(** * omniTAK: the Cursor-on-Target encoder and the REST client

    A shallow embedding of
      - [claude_tools/tak_geometry.py] ([CotMessageBuilder]) and
      - [omnitak_client/client.py]     ([OmniTAKClient]),
    followed by the properties the specification states about them.

    Conventions of the embedding
      - Python [str] is [string]; the character [chr 34] and the line feed
        are written [dq] and [nl].
      - A Python number is [Int z] or [Float r], where [r] is the text
        Python's [repr] prints for the float: the encoder only ever
        interpolates numbers into text, it never computes with them.
      - [datetime.utcnow()] and [uuid.uuid4()] are read from the
        environment: every encoder call takes the instant [now]
        (microseconds, naive UTC) and the text of the drawn UUID.
        [datetime.isoformat] is the library's and stays a parameter.
      - A call that can raise returns [result A].
      - The builder writes text and escapes nothing. What a document
        holds (its elements, attributes and character data) is what
        [Wire.read] finds in the text returned. *)

From Stdlib Require Import Ascii.
From stdpp Require Import gmap strings list fin_maps pretty.

#[local] Set Warnings "-register-all".

(** ** Python values, truthiness, exceptions *)

Module Py.

Inductive number :=
| Int (z : Z)
| Float (repr : string).

Definition zero_reprs : list string := ["0.0"; "-0.0"].

Definition str_number (n : number) : string :=
  match n with
  | Int z => pretty z
  | Float r => r
  end.

(** What [json.loads] can give back, and what a request body is built of. *)
Inductive value :=
| None_
| Bool (b : bool)
| Num (n : number)
| Str (s : string)
| List_ (l : list value)
| Dict (d : gmap string value).

Definition truthy (v : value) : bool :=
  match v with
  | None_ => false
  | Bool b => b
  | Num (Int z) => negb (z =? 0)%Z
  | Num (Float r) => negb (bool_decide (r ∈ zero_reprs))
  | Str s => negb (bool_decide (s = EmptyString))
  | List_ l => negb (bool_decide (l = []))
  | Dict d => negb (bool_decide (d = ∅))
  end.

(** [x or y] on an optional string ([None] and the empty string are falsy). *)
Definition str_or (x : option string) (y : string) : string :=
  match x with
  | Some s => if bool_decide (s = EmptyString) then y else s
  | None => y
  end.

Inductive exn :=
| IndexError
| KeyError (key : string)
| AttributeError
| TypeError
| TimeoutError
| OmniTAKError (msg : string).

Inductive result (A : Type) :=
| Return (a : A)
| Raise (e : exn).
Arguments Return {A} a.
Arguments Raise {A} e.

Definition bind {A B} (r : result A) (k : A → result B) : result B :=
  match r with
  | Return a => k a
  | Raise e => Raise e
  end.

(** A call fails when it raises instead of returning. *)
Definition fails {A} (r : result A) : Prop := ∃ e, r = Raise e.

(** [l[0]] *)
Definition first {A} (l : list A) : result A :=
  match l with
  | x :: _ => Return x
  | [] => Raise IndexError
  end.

Definition dq : string := String "034"%char EmptyString.
Definition nl : string := String "010"%char EmptyString.

(** [s] between double quotes, as in [attr="{s}"]. *)
Definition q (s : string) : string := dq +:+ s +:+ dq.

(** [sep.join(l)] *)
Definition join (sep : string) (l : list string) : string := String.concat sep l.

End Py.

(** ** The layout of the wire documents

    The builder writes its documents with f-strings.  [Xml.render] is the
    one layout all of its templates follow (two more blanks per level, a
    childless element closed in place): each template is the rendering
    of a tree. No text is escaped, here or in the source, so a tree is
    not determined by its rendering; what a document holds is what
    [Wire] reads back from the text. *)

Module Xml.
Import Py.

Inductive xml :=
| Elem (tag : string) (attrs : list (string * string)) (kids : list xml)
| TextElem (tag : string) (text : string)
| Raw (text : string).

Definition render_attr (a : string * string) : string :=
  " " +:+ a.1 +:+ "=" +:+ q a.2.

Definition render_attrs (l : list (string * string)) : string :=
  foldr (λ a acc, render_attr a +:+ acc) EmptyString l.

Fixpoint render_at (ind : string) (x : xml) : string :=
  match x with
  | Elem tag attrs kids =>
      match kids with
      | [] => ind +:+ "<" +:+ tag +:+ render_attrs attrs +:+ "/>"
      | _ :: _ =>
          ind +:+ "<" +:+ tag +:+ render_attrs attrs +:+ ">" +:+ nl
          +:+ join nl (List.map (render_at ("  " +:+ ind)) kids) +:+ nl
          +:+ ind +:+ "</" +:+ tag +:+ ">"
      end
  | TextElem tag text => ind +:+ "<" +:+ tag +:+ ">" +:+ text +:+ "</" +:+ tag +:+ ">"
  | Raw text => ind +:+ text
  end.

Definition prolog : string :=
  "<?xml version=" +:+ q "1.0" +:+ " encoding=" +:+ q "UTF-8" +:+ "?>".

Definition render (x : xml) : string := prolog +:+ nl +:+ render_at EmptyString x.

Fixpoint assoc (k : string) (l : list (string * string)) : option string :=
  match l with
  | [] => None
  | (k', v) :: l' => if String.eqb k' k then Some v else assoc k l'
  end.

End Xml.

(** ** [tak_geometry.py] *)

Module Geometry.
Import Py Xml.

(** Geographic coordinate; [hae] (height above ellipsoid) defaults to [0.0]. *)
Record LatLon := { lat : number; lon : number; hae : number }.

Definition LatLon2 (la lo : number) : LatLon :=
  {| lat := la; lon := lo; hae := Float "0.0" |}.

Record Circle := { center : LatLon; radius_meters : number }.
Record Polygon := { vertices : list LatLon }.
Record Route := { waypoints : list (LatLon * string) }.

(** Instants are microseconds (naive UTC), a [timedelta] is a difference
    of instants. *)
Definition datetime := Z.

Definition timedelta_hours (h : Z) : Z := (h * 3600 * 1000000)%Z.

(** The palette, the same dictionary in the three shape builders. *)
Definition colors : gmap string string :=
  {[ "red" := "-65536"; "green" := "-16711936"; "blue" := "-16776961"; "yellow" := "-256" ]}.

(** The marker type table (MIL-STD-2525). *)
Definition types : gmap string string :=
  {[ "friendly" := "a-f-G-E-S"; "hostile" := "a-h-G-E-S"; "neutral" := "a-n-G-E-S";
     "unknown" := "a-u-G-E-S"; "emergency" := "b-a-o-tl"; "medical" := "b-m-p-c" ]}.

Section CotMessageBuilder.
(** [datetime.isoformat] *)
Variable isoformat : datetime → string.

(** The three timestamp lines shared by every template. *)
Definition stamp_lines (now stale : datetime) : list string :=
  [ "  <time>" +:+ isoformat now +:+ "Z</time>";
    "  <start>" +:+ isoformat now +:+ "Z</start>";
    "  <stale>" +:+ isoformat stale +:+ "Z</stale>" ].

Definition point_line (p : LatLon) (err : string) : string :=
  "  <point lat=" +:+ q (str_number (lat p)) +:+ " lon=" +:+ q (str_number (lon p))
  +:+ " hae=" +:+ q (str_number (hae p)) +:+ " ce=" +:+ q err +:+ " le=" +:+ q err +:+ "/>".

Definition event_line (uid type : string) : string :=
  "<event version=" +:+ q "2.0" +:+ " uid=" +:+ q uid +:+ " type=" +:+ q type
  +:+ " how=" +:+ q "h-g-i-g-o" +:+ ">".

Definition create_circle_event (now : datetime) (uuid4 : string)
    (circle : Circle) (callsign color : string) (uid : option string) : string :=
  let uid := str_or uid ("circle-" +:+ uuid4) in
  let stale := (now + timedelta_hours 24)%Z in
  let color_value := default "-65536" (colors !! color) in
  join nl
    ([ prolog;
       event_line uid "u-d-f";
       point_line (center circle) "9999999" ]
     ++ stamp_lines now stale ++
     [ "  <detail>";
       "    <contact callsign=" +:+ q callsign +:+ "/>";
       "    <link uid=" +:+ q uid +:+ " type=" +:+ q "a-f-G-E-V-C" +:+ " relation=" +:+ q "p-p" +:+ "/>";
       "    <shape>";
       "      <ellipse major=" +:+ q (str_number (radius_meters circle))
         +:+ " minor=" +:+ q (str_number (radius_meters circle)) +:+ " angle=" +:+ q "0" +:+ "/>";
       "    </shape>";
       "    <color value=" +:+ q color_value +:+ "/>";
       "    <strokeColor value=" +:+ q color_value +:+ "/>";
       "    <strokeWeight value=" +:+ q "2.0" +:+ "/>";
       "    <labels_on value=" +:+ q "true" +:+ "/>";
       "  </detail>";
       "</event>" ])%list.

Definition vertex_str (v : LatLon) : string :=
  "<vertex lat=" +:+ q (str_number (lat v)) +:+ " lon=" +:+ q (str_number (lon v))
  +:+ " hae=" +:+ q (str_number (hae v)) +:+ "/>".

Definition create_polygon_event (now : datetime) (uuid4 : string)
    (polygon : Polygon) (callsign color : string) (filled : bool)
    (uid : option string) : result string :=
  let uid := str_or uid ("polygon-" +:+ uuid4) in
  let stale := (now + timedelta_hours 24)%Z in
  let color_value := default "-16711936" (colors !! color) in
  let fill_value := if filled then "1342177280" else "0" in
  let vertices_xml := join (nl +:+ "        ") (vertex_str <$> vertices polygon) in
  bind (first (vertices polygon)) (λ first,
  Return (join nl
    ([ prolog;
       event_line uid "u-d-f";
       point_line first "9999999" ]
     ++ stamp_lines now stale ++
     [ "  <detail>";
       "    <contact callsign=" +:+ q callsign +:+ "/>";
       "    <link relation=" +:+ q "p-p" +:+ "/>";
       "    <shape>";
       "      <polyline closed=" +:+ q "true" +:+ ">";
       "        " +:+ vertices_xml;
       "      </polyline>";
       "    </shape>";
       "    <color value=" +:+ q color_value +:+ "/>";
       "    <fillColor value=" +:+ q fill_value +:+ "/>";
       "    <strokeColor value=" +:+ q color_value +:+ "/>";
       "    <strokeWeight value=" +:+ q "2.0" +:+ "/>";
       "    <labels_on value=" +:+ q "true" +:+ "/>";
       "  </detail>";
       "</event>" ])%list)).

(** The body of the loop over [enumerate(route.waypoints)]. *)
Definition wp_uid (uid : string) (idx : nat) : string :=
  uid +:+ "-wp-" +:+ pretty idx.

Definition waypoint_link (uid : string) (idx : nat) : string :=
  "<link relation=" +:+ q "c" +:+ " type=" +:+ q "b-m-p-s-p-loc" +:+ " uid=" +:+ q (wp_uid uid idx) +:+ "/>".

Definition wp_xml (now stale : datetime) (uid : string) (idx : nat)
    (wp : LatLon * string) : string :=
  join nl
    ([ prolog;
       event_line (wp_uid uid idx) "b-m-p-s-p-loc";
       point_line wp.1 "10" ]
     ++ stamp_lines now stale ++
     [ "  <detail>";
       "    <contact callsign=" +:+ q wp.2 +:+ "/>";
       "    <labels_on value=" +:+ q "true" +:+ "/>";
       "  </detail>";
       "</event>" ])%list.

Definition create_route_event (now : datetime) (uuid4 : string)
    (route : Route) (route_name color : string)
    (uid : option string) : result (list string) :=
  let uid := str_or uid ("route-" +:+ uuid4) in
  let stale := (now + timedelta_hours 24)%Z in
  let color_value := default "-256" (colors !! color) in
  let waypoint_links := imap (λ idx _, waypoint_link uid idx) (waypoints route) in
  let waypoint_messages := imap (wp_xml now stale uid) (waypoints route) in
  bind (first (waypoints route)) (λ first,
  let links_xml := join (nl +:+ "    ") waypoint_links in
  let route_xml :=
    join nl
      ([ prolog;
         event_line uid "b-m-p-s-p-loc";
         point_line first.1 "9999999" ]
       ++ stamp_lines now stale ++
       [ "  <detail>";
         "    <contact callsign=" +:+ q route_name +:+ "/>";
         "    " +:+ links_xml;
         "    <labels_on value=" +:+ q "true" +:+ "/>";
         "    <color value=" +:+ q color_value +:+ "/>";
         "  </detail>";
         "</event>" ])%list in
  Return ([route_xml] ++ waypoint_messages)%list).

Definition create_marker_event (now : datetime) (uuid4 : string)
    (position : LatLon) (callsign marker_type : string)
    (remarks uid : option string) : string :=
  let uid := str_or uid ("marker-" +:+ uuid4) in
  let stale := (now + timedelta_hours 12)%Z in
  let event_type := default "a-f-G-E-S" (types !! marker_type) in
  let remarks_xml :=
    match remarks with
    | Some r => if bool_decide (r = EmptyString) then EmptyString
                else "<remarks>" +:+ r +:+ "</remarks>"
    | None => EmptyString
    end in
  join nl
    ([ prolog;
       event_line uid event_type;
       point_line position "10" ]
     ++ stamp_lines now stale ++
     [ "  <detail>";
       "    <contact callsign=" +:+ q callsign +:+ "/>";
       "    " +:+ remarks_xml;
       "    <labels_on value=" +:+ q "true" +:+ "/>";
       "  </detail>";
       "</event>" ])%list.

End CotMessageBuilder.
End Geometry.

(** ** The trees the templates of [tak_geometry.py] are renderings of *)

Module Documents.
Import Py Xml Geometry.

Section Trees.
Variable isoformat : datetime → string.

Definition event_doc (uid type : string) (kids : list xml) : xml :=
  Elem "event" [("version", "2.0"); ("uid", uid); ("type", type); ("how", "h-g-i-g-o")] kids.

Definition point_elem (p : LatLon) (err : string) : xml :=
  Elem "point" [("lat", str_number (lat p)); ("lon", str_number (lon p));
                ("hae", str_number (hae p)); ("ce", err); ("le", err)] [].

Definition stamp_elems (now stale : datetime) : list xml :=
  [ TextElem "time" (isoformat now +:+ "Z");
    TextElem "start" (isoformat now +:+ "Z");
    TextElem "stale" (isoformat stale +:+ "Z") ].

Definition value_elem (tag v : string) : xml := Elem tag [("value", v)] [].

Definition contact_elem (callsign : string) : xml :=
  Elem "contact" [("callsign", callsign)] [].

Definition ellipse_elem (radius : number) : xml :=
  Elem "ellipse" [("major", str_number radius); ("minor", str_number radius); ("angle", "0")] [].

Definition circle_doc (now : datetime) (uuid4 : string)
    (circle : Circle) (callsign color : string) (uid : option string) : xml :=
  let uid := str_or uid ("circle-" +:+ uuid4) in
  let color_value := default "-65536" (colors !! color) in
  event_doc uid "u-d-f"
    (point_elem (center circle) "9999999"
     :: stamp_elems now (now + timedelta_hours 24)%Z ++
     [ Elem "detail" []
         [ contact_elem callsign;
           Elem "link" [("uid", uid); ("type", "a-f-G-E-V-C"); ("relation", "p-p")] [];
           Elem "shape" [] [ ellipse_elem (radius_meters circle) ];
           value_elem "color" color_value;
           value_elem "strokeColor" color_value;
           value_elem "strokeWeight" "2.0";
           value_elem "labels_on" "true" ] ])%list.

Definition vertex_elem (v : LatLon) : xml :=
  Elem "vertex" [("lat", str_number (lat v)); ("lon", str_number (lon v));
                 ("hae", str_number (hae v))] [].

Definition polygon_doc (now : datetime) (uuid4 : string)
    (polygon : Polygon) (callsign color : string) (filled : bool)
    (uid : option string) (anchor : LatLon) : xml :=
  let uid := str_or uid ("polygon-" +:+ uuid4) in
  let color_value := default "-16711936" (colors !! color) in
  event_doc uid "u-d-f"
    (point_elem anchor "9999999"
     :: stamp_elems now (now + timedelta_hours 24)%Z ++
     [ Elem "detail" []
         [ contact_elem callsign;
           Elem "link" [("relation", "p-p")] [];
           Elem "shape" []
             [ Elem "polyline" [("closed", "true")] (vertex_elem <$> vertices polygon) ];
           value_elem "color" color_value;
           value_elem "fillColor" (if filled then "1342177280" else "0");
           value_elem "strokeColor" color_value;
           value_elem "strokeWeight" "2.0";
           value_elem "labels_on" "true" ] ])%list.

Definition link_elem (uid : string) (idx : nat) : xml :=
  Elem "link" [("relation", "c"); ("type", "b-m-p-s-p-loc"); ("uid", wp_uid uid idx)] [].

Definition waypoint_doc (now : datetime) (uid : string) (idx : nat)
    (wp : LatLon * string) : xml :=
  event_doc (wp_uid uid idx) "b-m-p-s-p-loc"
    (point_elem wp.1 "10"
     :: stamp_elems now (now + timedelta_hours 24)%Z ++
     [ Elem "detail" []
         [ contact_elem wp.2;
           value_elem "labels_on" "true" ] ])%list.

Definition route_doc (now : datetime) (uuid4 : string)
    (route : Route) (route_name color : string)
    (uid : option string) (anchor : LatLon * string) : xml :=
  let uid := str_or uid ("route-" +:+ uuid4) in
  let color_value := default "-256" (colors !! color) in
  event_doc uid "b-m-p-s-p-loc"
    (point_elem anchor.1 "9999999"
     :: stamp_elems now (now + timedelta_hours 24)%Z ++
     [ Elem "detail" []
         (contact_elem route_name
          :: imap (λ idx _, link_elem uid idx) (waypoints route) ++
          [ value_elem "labels_on" "true";
            value_elem "color" color_value ]) ])%list.

(** The documents of a route: its own, then one per waypoint. *)
Definition route_docs (now : datetime) (uuid4 : string)
    (route : Route) (route_name color : string)
    (uid : option string) (anchor : LatLon * string) : list xml :=
  route_doc now uuid4 route route_name color uid anchor
  :: imap (waypoint_doc now (str_or uid ("route-" +:+ uuid4))) (waypoints route).

Definition remarks_elem (remarks : option string) : xml :=
  match remarks with
  | Some r => if bool_decide (r = EmptyString) then Raw EmptyString else TextElem "remarks" r
  | None => Raw EmptyString
  end.

Definition marker_doc (now : datetime) (uuid4 : string)
    (position : LatLon) (callsign marker_type : string)
    (remarks uid : option string) : xml :=
  let uid := str_or uid ("marker-" +:+ uuid4) in
  event_doc uid (default "a-f-G-E-S" (types !! marker_type))
    (point_elem position "10"
     :: stamp_elems now (now + timedelta_hours 12)%Z ++
     [ Elem "detail" []
         [ contact_elem callsign;
           remarks_elem remarks;
           value_elem "labels_on" "true" ] ])%list.

End Trees.

(** The palette as the specification states it, with the default of the
    shape kind for any other name. *)
Definition palette_value (fallback name : string) : string :=
  if bool_decide (name = "red") then "-65536"
  else if bool_decide (name = "green") then "-16711936"
  else if bool_decide (name = "blue") then "-16776961"
  else if bool_decide (name = "yellow") then "-256"
  else fallback.

End Documents.

(** ** The document read back from the text

    What a consumer of the wire format finds in a text the builder
    returned: the elements with their attributes, in document order,
    each with the names of the elements it lies in, and the character
    data of the elements that hold no element. The reader goes through
    the text once, a character at a time. It reads the XML the
    templates are written in (a declaration, tags with double-quoted
    attributes, character data) and refuses what they never write:
    references ([&]), comments, single quotes around a value, a [<]
    inside a value, a [>] in character data, an attribute given twice,
    character data beside elements, tags that do not match, a second
    root. It also refuses the characters an XML reader rejects or
    replaces: control characters, the carriage return, and a tabulation
    or a line feed inside a value. A character is a byte of the
    text. *)

Module Wire.
Import Py Xml Geometry.

Inductive node :=
| Element (path : list string) (name : string) (attrs : list (string * string))
| Text (path : list string) (text : string).

(** Where the reader is: in character data ([fresh]: no element since
    the tag was opened), after [<], in the declaration, in a name, among
    the attributes, in the name of one, after [=], in a value, after a
    value, after the [/] of an empty element, in a closing tag. *)
Inductive mode :=
| Content (fresh : bool) (acc : string)
| Open (fresh : bool) (acc : string)
| Decl
| Name (acc : string)
| Attrs (name : string) (attrs : list (string * string))
| Key (name : string) (attrs : list (string * string)) (acc : string)
| Equals (name : string) (attrs : list (string * string)) (key : string)
| Value (name : string) (attrs : list (string * string)) (key : string) (acc : string)
| Quoted (name : string) (attrs : list (string * string))
| Slash (name : string) (attrs : list (string * string))
| Closing (acc : string)
| Bad.

Record reader := Reader { at_ : mode; stack : list string; seen : list node }.

Definition char_code (c : ascii) : N := N_of_ascii c.
Definition in_range (lo hi : N) (c : ascii) : bool :=
  ((lo <=? char_code c) && (char_code c <=? hi))%N.

(** Blank, tabulation, line feed. *)
Definition is_space (c : ascii) : bool :=
  Ascii.eqb c " " || in_range 0x09 0x0A c.

(** Letters, digits, [_], [-], [.] and [:]. *)
Definition name_char (c : ascii) : bool :=
  in_range 0x61 0x7A c || in_range 0x41 0x5A c || in_range 0x30 0x39 c
  || Ascii.eqb c "_" || Ascii.eqb c "-" || Ascii.eqb c "." || Ascii.eqb c ":".

(** What character data may hold, and what a value between double
    quotes may. *)
Definition data_char (c : ascii) : bool :=
  negb (Ascii.eqb c "<") && negb (Ascii.eqb c "&") && negb (Ascii.eqb c ">")
  && (in_range 0x20 0xFF c || is_space c).

Definition value_char (c : ascii) : bool :=
  negb (Ascii.eqb c "<") && negb (Ascii.eqb c "&") && negb (Ascii.eqb c "034")
  && in_range 0x20 0xFF c.

Fixpoint all_chars (P : ascii → bool) (s : string) : bool :=
  match s with
  | EmptyString => true
  | String c s' => P c && all_chars P s'
  end.

Definition blank (s : string) : bool := all_chars is_space s.

Definition has_key (key : string) (attrs : list (string * string)) : bool :=
  existsb (λ a, String.eqb a.1 key) attrs.

Definition go (m : mode) (r : reader) : reader :=
  {| at_ := m; stack := stack r; seen := seen r |}.

Definition found (n : node) (m : mode) (r : reader) : reader :=
  {| at_ := m; stack := stack r; seen := seen r ++ [n] |}.

(** [>] at the end of an opening tag, [>] at the end of an empty
    element, [>] at the end of a closing tag. *)
Definition opened (name : string) (attrs : list (string * string)) (r : reader) : reader :=
  {| at_ := Content true EmptyString; stack := name :: stack r;
     seen := seen r ++ [Element (stack r) name attrs] |}.

Definition emptied (name : string) (attrs : list (string * string)) (r : reader) : reader :=
  found (Element (stack r) name attrs) (Content false EmptyString) r.

Definition closed (name : string) (r : reader) : reader :=
  match stack r with
  | top :: rest =>
      if String.eqb top name
      then {| at_ := Content false EmptyString; stack := rest; seen := seen r |}
      else go Bad r
  | [] => go Bad r
  end.

(** After the name of a tag and after a value. *)
Definition delimit (name : string) (attrs : list (string * string)) (c : ascii)
    (r : reader) : reader :=
  if is_space c then go (Attrs name attrs) r
  else if Ascii.eqb c "/" then go (Slash name attrs) r
  else if Ascii.eqb c ">" then opened name attrs r
  else go Bad r.

Definition push (acc : string) (c : ascii) : string := acc +:+ String c EmptyString.

Definition step (r : reader) (c : ascii) : reader :=
  match at_ r with
  | Content fresh acc =>
      if Ascii.eqb c "<" then go (Open fresh acc) r
      else if data_char c then go (Content fresh (push acc c)) r
      else go Bad r
  | Open fresh acc =>
      if Ascii.eqb c "/" then
        if fresh then found (Text (stack r) acc) (Closing EmptyString) r
        else if blank acc then go (Closing EmptyString) r
        else go Bad r
      else if negb (blank acc) then go Bad r
      else
        match stack r, seen r with
        | [], _ :: _ => go Bad r
        | [], [] =>
            if Ascii.eqb c "?" then go Decl r
            else if name_char c then go (Name (push EmptyString c)) r
            else go Bad r
        | _ :: _, _ =>
            if name_char c then go (Name (push EmptyString c)) r else go Bad r
        end
  | Decl => if Ascii.eqb c ">" then go (Content false EmptyString) r else r
  | Name acc =>
      if name_char c then go (Name (push acc c)) r else delimit acc [] c r
  | Attrs name attrs =>
      if is_space c then r
      else if Ascii.eqb c "/" then go (Slash name attrs) r
      else if Ascii.eqb c ">" then opened name attrs r
      else if name_char c then go (Key name attrs (push EmptyString c)) r
      else go Bad r
  | Key name attrs acc =>
      if name_char c then go (Key name attrs (push acc c)) r
      else if Ascii.eqb c "=" then
        if has_key acc attrs then go Bad r else go (Equals name attrs acc) r
      else go Bad r
  | Equals name attrs key =>
      if Ascii.eqb c "034" then go (Value name attrs key EmptyString) r else go Bad r
  | Value name attrs key acc =>
      if Ascii.eqb c "034" then go (Quoted name (attrs ++ [(key, acc)])) r
      else if value_char c then go (Value name attrs key (push acc c)) r
      else go Bad r
  | Quoted name attrs => delimit name attrs c r
  | Slash name attrs =>
      if Ascii.eqb c ">" then emptied name attrs r else go Bad r
  | Closing acc =>
      if name_char c then go (Closing (push acc c)) r
      else if Ascii.eqb c ">" then closed acc r
      else go Bad r
  | Bad => r
  end.

Fixpoint scan (r : reader) (s : string) : reader :=
  match s with
  | EmptyString => r
  | String c s' => scan (step r c) s'
  end.

Definition start : reader :=
  {| at_ := Content false EmptyString; stack := []; seen := [] |}.

(** The text read to its end: a document when every tag was closed and
    there was an element. *)
Definition read (text : string) : option (list node) :=
  let r := scan start text in
  match at_ r, stack r, seen r with
  | Content _ acc, [], _ :: _ => if blank acc then Some (seen r) else None
  | _, _, _ => None
  end.

(** The elements called [name] of a list of nodes, each with the names
    of the elements around it (innermost first) and its attributes. *)
Definition named (name : string) (l : list node)
    : list (list string * list (string * string)) :=
  omap (λ n, match n with
             | Element p t a => if String.eqb t name then Some (p, a) else None
             | Text _ _ => None
             end) l.

(** The character data of the elements called [name] that hold no
    element, each with the names of the elements around that element. *)
Definition data (name : string) (l : list node) : list (list string * string) :=
  omap (λ n, match n with
             | Text (t :: p) s => if String.eqb t name then Some (p, s) else None
             | _ => None
             end) l.

Definition elements (name text : string)
    : option (list (list string * list (string * string))) :=
  named name <$> read text.

Definition texts (name text : string) : option (list (list string * string)) :=
  data name <$> read text.

(** What the reader finds in the rendering of a tree. *)
Fixpoint view (st : list string) (x : xml) : list node :=
  match x with
  | Elem tag attrs kids => Element st tag attrs :: List.flat_map (view (tag :: st)) kids
  | TextElem tag text => [Element st tag []; Text (tag :: st) text]
  | Raw _ => []
  end.

(** Texts the reader takes as they are: a name, a value, character
    data. *)
Definition is_name (s : string) : Prop := s ≠ EmptyString ∧ all_chars name_char s = true.
Definition is_value (s : string) : Prop := all_chars value_char s = true.
Definition is_data (s : string) : Prop := all_chars data_char s = true.

(** Attributes with names, values and no name twice. *)
Fixpoint attrs_ok (seen_ attrs : list (string * string)) : Prop :=
  match attrs with
  | [] => True
  | a :: attrs' =>
      is_name a.1 ∧ is_value a.2 ∧ has_key a.1 seen_ = false
      ∧ attrs_ok (seen_ ++ [a]) attrs'
  end.

Definition is_raw (x : xml) : bool := if x is Raw _ then true else false.

(** The trees whose rendering the reader reads back: an element starts
    with an element, and what lies beside elements is blank. *)
Fixpoint wf (x : xml) : Prop :=
  match x with
  | Elem tag attrs kids =>
      is_name tag ∧ attrs_ok [] attrs
      ∧ (if kids is k :: _ then is_raw k = false else True)
      ∧ foldr (λ k rest, wf k ∧ rest) True kids
  | TextElem tag text => is_name tag ∧ is_data text
  | Raw text => blank text = true
  end.

(** A position whose numbers are written without markup. *)
Definition plain_position (p : LatLon) : Prop :=
  is_value (str_number (lat p)) ∧ is_value (str_number (lon p))
  ∧ is_value (str_number (hae p)).

(** The reader reads the rendering of [x] wherever it stands: blank
    lines stay character data; an element is read to its end and leaves
    what [view] lists. *)
Definition reads (x : xml) : Prop :=
  ∀ ind st out f acc,
    blank ind = true → blank acc = true → st ≠ [] ∨ out = [] →
    match x with
    | Raw _ =>
        ∃ acc', blank acc' = true ∧
                scan (Reader (Content f acc) st out) (render_at ind x)
                = Reader (Content f acc') st out
    | _ =>
        scan (Reader (Content f acc) st out) (render_at ind x)
        = Reader (Content false EmptyString) st (out ++ view st x)
    end.

End Wire.

(** ** [omnitak_client/client.py]

    The client is an object with four fields that talks to a server.
    Its methods are computations over the object and a log of what
    happened on the wire. The answer of the network to a request is a
    parameter [net] of every method: either [session.request] raises
    [aiohttp.ClientError], or the total time the client allows a request
    runs out and [asyncio.TimeoutError] is raised, or a response
    arrives, given by its status, its text and what [json.loads] makes
    of that text. Calls to [logger]
    leave no trace here, but the expressions they format are evaluated,
    as they can raise. *)

Module Client.
Import Py.

Record ConnectionInfo := {
  id : value; name : value; connection_type : value; status : value; address : value;
  messages_received : value; messages_sent : value;
  bytes_received : value; bytes_sent : value }.

Record SystemStatus := {
  uptime_seconds : value; active_connections : value; messages_processed : value;
  messages_per_second : value; memory_usage_bytes : value; version : value }.

Record OmniTAKClient := {
  base_url : string;
  api_key : option string;
  timeout : Z;               (* [aiohttp.ClientTimeout(total=timeout)] *)
  session : option nat;      (* [None] or the live [aiohttp.ClientSession] *)
  _token : value }.

Record request := {
  method : string; url : string;
  json : option value; params : option value;
  headers : gmap string string }.

Inductive decoded :=
| Json (v : value)
| JSONDecodeError (e : string).

Inductive outcome :=
| ClientError (e : string)
| Timeout
| Response (status : Z) (text : string) (loads : decoded).

Inductive event :=
| SessionOpened (h : nat)
| SessionClosed (h : nat)
| Sent (r : request).

Record state := { self : OmniTAKClient; log : list event }.

Definition M (A : Type) : Type := state → result A * state.

#[global] Instance M_ret : MRet M := λ A a s, (Return a, s).
#[global] Instance M_bind : MBind M := λ A B k m s,
  match m s with
  | (Return a, s') => k a s'
  | (Raise e, s') => (Raise e, s')
  end.
#[global] Instance M_fmap : FMap M := λ A B f m, m ≫= (λ a, mret (f a)).

Definition raise {A} (e : exn) : M A := λ s, (Raise e, s).
Definition lift {A} (r : result A) : M A := λ s, (r, s).
Definition get_self : M OmniTAKClient := λ s, (Return (self s), s).
Definition put_self (c : OmniTAKClient) : M unit :=
  λ s, (Return (), {| self := c; log := log s |}).
Definition emit (e : event) : M unit :=
  λ s, (Return (), {| self := self s; log := log s ++ [e] |}).

(** [try: m except OmniTAKError: h] *)
Definition except_OmniTAKError {A} (m : M A) (h : M A) : M A := λ s,
  match m s with
  | (Raise (OmniTAKError _), s') => h s'
  | r => r
  end.

Definition set_session (o : option nat) (c : OmniTAKClient) : OmniTAKClient :=
  {| base_url := base_url c; api_key := api_key c; timeout := timeout c;
     session := o; _token := _token c |}.

Definition set_token (t : value) (c : OmniTAKClient) : OmniTAKClient :=
  {| base_url := base_url c; api_key := api_key c; timeout := timeout c;
     session := session c; _token := t |}.

(** [s.rstrip(c)] *)
Fixpoint rstrip (c : ascii) (s : string) : string :=
  match s with
  | EmptyString => EmptyString
  | String a s' =>
      match rstrip c s' with
      | EmptyString => if bool_decide (a = c) then EmptyString else String a EmptyString
      | r => String a r
      end
  end.

(** [v[key]] for a string [key] *)
Definition subscript (v : value) (key : string) : result value :=
  match v with
  | Dict d => match d !! key with
              | Some x => Return x
              | None => Raise (KeyError key)
              end
  | _ => Raise TypeError
  end.

(** [v.get(key, dflt)]: only a dictionary has the method. *)
Definition get (v : value) (key : string) (dflt : value) : result value :=
  match v with
  | Dict d => Return (default dflt (d !! key))
  | _ => Raise AttributeError
  end.

(** [v == s] for a string [s] *)
Definition eq_str (v : value) (s : string) : bool :=
  match v with
  | Str s' => bool_decide (s' = s)
  | _ => false
  end.

Fixpoint chars (s : string) : list value :=
  match s with
  | EmptyString => []
  | String a s' => Str (String a EmptyString) :: chars s'
  end.

(** The items [for x in v] runs over (the keys of a dictionary, in an
    order that plays no role below). *)
Definition iterate (v : value) : result (list value) :=
  match v with
  | List_ l => Return l
  | Str s => Return (chars s)
  | Dict d => Return (Str <$> (map_to_list d).*1)
  | _ => Raise TypeError
  end.

Fixpoint mapM {A B} (f : A → result B) (l : list A) : result (list B) :=
  match l with
  | [] => Return []
  | x :: l' => Py.bind (f x) (λ y, Py.bind (mapM f l') (λ ys, Return (y :: ys)))
  end.

Section Methods.
(** [str] of a list or of a dictionary (Python's [repr]). *)
Variable repr : value → string.
(** What the network answers. *)
Variable net : request → outcome.

Definition str (v : value) : string :=
  match v with
  | None_ => "None"
  | Bool true => "True"
  | Bool false => "False"
  | Num n => str_number n
  | Str s => s
  | v => repr v
  end.

Definition __init__ (base_url : string) (api_key : option string) (timeout : Z)
    : OmniTAKClient :=
  {| base_url := rstrip "/"%char base_url; api_key := api_key; timeout := timeout;
     session := None; _token := None_ |}.

Definition connect : M unit := λ s,
  match session (self s) with
  | None => let h := length (log s) in
            (Return (), {| self := set_session (Some h) (self s);
                           log := log s ++ [SessionOpened h] |})
  | Some _ => (Return (), s)
  end.

Definition close : M unit := λ s,
  match session (self s) with
  | Some h => (Return (), {| self := set_session None (self s);
                             log := log s ++ [SessionClosed h] |})
  | None => (Return (), s)
  end.

Definition _get_headers (c : OmniTAKClient) : gmap string string :=
  let headers := {[ "Content-Type" := "application/json" ]} in
  if truthy (_token c) then <[ "Authorization" := "Bearer " +:+ str (_token c) ]> headers
  else match api_key c with
       | Some k => if bool_decide (k = EmptyString) then headers
                   else <[ "X-API-Key" := k ]> headers
       | None => headers
       end.

(** The body of the [try] of [_request], once the network has answered. *)
Definition response_result (o : outcome) : result value :=
  match o with
  | ClientError e => Raise (OmniTAKError ("HTTP request failed: " +:+ e))
  | Timeout => Raise TimeoutError
  | Response status response_text loads =>
      if (400 <=? status)%Z then
        match loads with
        | Json error_data =>
            Py.bind (get error_data "message" (Str response_text)) (λ error_msg,
            Raise (OmniTAKError ("API error " +:+ pretty status +:+ ": " +:+ str error_msg)))
        | JSONDecodeError _ =>
            Raise (OmniTAKError ("API error " +:+ pretty status +:+ ": " +:+ response_text))
        end
      else
        match loads with
        | Json v => Return v
        | JSONDecodeError e => Raise (OmniTAKError ("Invalid JSON response: " +:+ e))
        end
  end.

Definition build_request (c : OmniTAKClient) (method endpoint : string)
    (data : option value) : request :=
  {| method := method; url := base_url c +:+ endpoint; json := data; params := None;
     headers := _get_headers c |}.

Definition _request (method endpoint : string) (data : option value) : M value :=
  c ← get_self;
  _ ← (if session c is None then connect else mret ());
  c ← get_self;
  let req := build_request c method endpoint data in
  _ ← emit (Sent req);
  lift (response_result (net req)).

Definition login (username password : string) : M value :=
  response ← _request "POST" "/api/v1/auth/login"
               (Some (Dict {[ "username" := Str username; "password" := Str password ]}));
  token ← lift (subscript response "token");
  c ← get_self;
  _ ← put_self (set_token token c);
  mret token.

Definition get_status : M SystemStatus :=
  data ← _request "GET" "/api/v1/status" None;
  a ← lift (subscript data "uptime_seconds");
  b ← lift (subscript data "active_connections");
  c ← lift (subscript data "messages_processed");
  d ← lift (subscript data "messages_per_second");
  e ← lift (subscript data "memory_usage_bytes");
  f ← lift (subscript data "version");
  mret {| uptime_seconds := a; active_connections := b; messages_processed := c;
          messages_per_second := d; memory_usage_bytes := e; version := f |}.

Definition health_check : M bool :=
  except_OmniTAKError
    (data ← _request "GET" "/api/v1/health" None;
     st ← lift (get data "status" None_);
     mret (eq_str st "healthy"))
    (mret false).

Definition connection_info (conn : value) : result ConnectionInfo :=
  Py.bind (subscript conn "id") (λ a,
  Py.bind (subscript conn "name") (λ b,
  Py.bind (subscript conn "connection_type") (λ c,
  Py.bind (subscript conn "status") (λ d,
  Py.bind (subscript conn "address") (λ e,
  Py.bind (get conn "messages_received" (Num (Int 0))) (λ f,
  Py.bind (get conn "messages_sent" (Num (Int 0))) (λ g,
  Py.bind (get conn "bytes_received" (Num (Int 0))) (λ h,
  Py.bind (get conn "bytes_sent" (Num (Int 0))) (λ i,
  Return {| id := a; name := b; connection_type := c; status := d; address := e;
            messages_received := f; messages_sent := g;
            bytes_received := h; bytes_sent := i |}))))))))).

Definition get_connections : M (list ConnectionInfo) :=
  data ← _request "GET" "/api/v1/connections" None;
  conns ← lift (get data "connections" (List_ []));
  items ← lift (iterate conns);
  lift (mapM connection_info items).

(** The data of [send_cot_message]. *)
Definition cot_data (cot_xml : string) (target_connections : option (list string))
    (apply_filters : bool) (priority : Z) : gmap string value :=
  let data : gmap string value :=
    {[ "message" := Str cot_xml; "apply_filters" := Bool apply_filters;
       "priority" := Num (Int priority) ]} in
  match target_connections with
  | Some (t :: ts) => <[ "target_connections" := List_ (Str <$> t :: ts) ]> data
  | _ => data
  end.

Definition send_cot_message (cot_xml : string) (target_connections : option (list string))
    (apply_filters : bool) (priority : Z) : M value :=
  let data := cot_data cot_xml target_connections apply_filters priority in
  response ← _request "POST" "/api/v1/cot/send" (Some (Dict data));
  w ← lift (get response "warnings" None_);
  _ ← (if truthy w
       then lift (Py.bind (subscript response "warnings") iterate)
       else mret []);
  _ ← lift (subscript response "message_id");
  _ ← lift (subscript response "sent_to_count");
  mret response.

Definition create_connection (name address protocol : string)
    (kwargs : gmap string value) : M value :=
  let data : gmap string value :=
    kwargs ∪ {[ "name" := Str name; "address" := Str address; "protocol" := Str protocol ]} in
  _request "POST" "/api/v1/connections" (Some (Dict data)).

Definition delete_connection (connection_id : string) : M value :=
  _request "DELETE" ("/api/v1/connections/" +:+ connection_id) None.

(** The request-shaped operations, to speak of all of them at once. *)
Inductive operation :=
| Login (username password : string)
| SendCotMessage (cot_xml : string) (target_connections : option (list string))
    (apply_filters : bool) (priority : Z)
| GetStatus
| GetConnections
| CreateConnection (name address protocol : string) (kwargs : gmap string value)
| DeleteConnection (connection_id : string).

Inductive answer :=
| Token (v : value)
| Reply (v : value)
| Status (s : SystemStatus)
| Connections (l : list ConnectionInfo).

Definition perform (op : operation) : M answer :=
  match op with
  | Login u p => Token <$> login u p
  | SendCotMessage x t f p => Reply <$> send_cot_message x t f p
  | GetStatus => Status <$> get_status
  | GetConnections => Connections <$> get_connections
  | CreateConnection n a p k => Reply <$> create_connection n a p k
  | DeleteConnection i => Reply <$> delete_connection i
  end.

Definition is_login (op : operation) : bool :=
  if op is Login _ _ then true else false.

(** Operations one after the other, whatever each of them returns. *)
Definition perform_all (ops : list operation) (s : state) : state :=
  foldl (λ s op, (perform op s).2) s ops.

(** The request an operation puts on the wire (section 6 of the
    specification: the paths are fixed). *)
Definition request_for (c : OmniTAKClient) (op : operation) : request :=
  match op with
  | Login u p =>
      build_request c "POST" "/api/v1/auth/login"
        (Some (Dict {[ "username" := Str u; "password" := Str p ]}))
  | SendCotMessage x t f p =>
      build_request c "POST" "/api/v1/cot/send" (Some (Dict (cot_data x t f p)))
  | GetStatus => build_request c "GET" "/api/v1/status" None
  | GetConnections => build_request c "GET" "/api/v1/connections" None
  | CreateConnection n a p k =>
      build_request c "POST" "/api/v1/connections"
        (Some (Dict (k ∪ {[ "name" := Str n; "address" := Str a; "protocol" := Str p ]})))
  | DeleteConnection i =>
      build_request c "DELETE" ("/api/v1/connections/" +:+ i) None
  end.

End Methods.

(** The state once [_request] has made sure of a session. *)
Definition connected (s : state) : state :=
  match session (self s) with
  | None => {| self := set_session (Some (length (log s))) (self s);
               log := log s ++ [SessionOpened (length (log s))] |}
  | Some _ => s
  end.

(** The requests of a log, oldest first. *)
Definition requests (l : list event) : list request :=
  omap (λ e, if e is Sent r then Some r else None) l.

(** Whether a result is an [OmniTAKError]. *)
Definition is_OmniTAKError {A} (r : result A) : bool :=
  match r with
  | Raise (OmniTAKError _) => true
  | _ => false
  end.

(** The three shapes of an [OmniTAKError] message. *)
Inductive shape := Transport | Protocol | Decoding.

Fixpoint starts_with (p s : string) : bool :=
  match p, s with
  | EmptyString, _ => true
  | String a p', String b s' => bool_decide (a = b) && starts_with p' s'
  | String _ _, EmptyString => false
  end.

Definition classify (e : exn) : option shape :=
  match e with
  | OmniTAKError msg =>
      if starts_with "HTTP request failed: " msg then Some Transport
      else if starts_with "API error " msg then Some Protocol
      else if starts_with "Invalid JSON response: " msg then Some Decoding
      else None
  | _ => None
  end.

Definition shape_of {A} (r : result A) : option shape :=
  match r with
  | Raise e => classify e
  | Return _ => None
  end.

(** The values a [for] loop can run over. *)
Definition iterable (v : value) : bool :=
  match v with
  | List_ _ | Str _ | Dict _ => true
  | _ => false
  end.

End Client.

(** ** Concrete inputs, used by the closed examples *)

Module Samples.
Import Py Geometry Client.

(** In closed examples the instant is printed as its microsecond count:
    how [isoformat] lays an instant out plays no role in them. *)
Definition iso_micros : datetime → string := λ t, pretty t.

Definition san_francisco : LatLon :=
  {| lat := Float "37.7749"; lon := Float "-122.4194"; hae := Int 0 |}.

(** [Circle(center=LatLon(37.7749, -122.4194, 0), radius_meters=5000)] *)
Definition zone : Circle := {| center := san_francisco; radius_meters := Int 5000 |}.

Definition two_vertices : Polygon :=
  {| vertices := [ LatLon2 (Float "34.0") (Float "-118.0");
                   LatLon2 (Float "34.0") (Float "-117.0") ] |}.

Definition one_waypoint : Route :=
  {| waypoints := [ (LatLon2 (Float "33.123") (Float "-117.456"), "A") ] |}.

Definition patrol : Route :=
  {| waypoints := [ (LatLon2 (Float "33.123") (Float "-117.456"), "A");
                    (LatLon2 (Float "33.234") (Float "-117.567"), "B") ] |}.

(** In closed examples no list and no dictionary is ever formatted. *)
Definition no_repr : value → string := λ _, EmptyString.

(** A client right after [OmniTAKClient("http://localhost:9443/", api_key)]. *)
Definition fresh (api_key : option string) : state :=
  {| self := __init__ "http://localhost:9443/" api_key 30; log := [] |}.

(** A connected client that holds the token [tok]. *)
Definition holding (tok : string) (api_key : option string) : state :=
  {| self := {| base_url := "http://localhost:9443"; api_key := api_key; timeout := 30;
                session := Some 0; _token := Str tok |};
     log := [SessionOpened 0] |}.

(** A server that answers every request [status] with the JSON [body];
    [text] is the body as sent, abbreviated where it plays no part. *)
Definition answers (status : Z) (text : string) (body : value) : request → outcome :=
  λ _, Response status text (Json body).

Definition refused : request → outcome := λ _, ClientError "Cannot connect to host".

Definition token_body (tok : string) : value := Dict {[ "token" := Str tok ]}.

Definition sent_body (warnings : value) : value :=
  Dict {[ "message_id" := Str "m-1"; "sent_to_count" := Num (Int 1);
          "warnings" := warnings ]}.

End Samples.

(** Labels that hold markup: each closes the attribute it is written in
    and goes on with elements of its own. *)
Module Markup.
Import Py.

Definition label_with_an_ellipse : string :=
  "A" +:+ dq +:+ "/><shape><ellipse major=" +:+ q "1" +:+ " minor=" +:+ q "1"
  +:+ " angle=" +:+ q "0" +:+ "/></shape><contact callsign=" +:+ dq +:+ "B".

Definition label_with_a_link : string :=
  "A" +:+ dq +:+ "/><link relation=" +:+ q "c" +:+ " type=" +:+ q "b-m-p-s-p-loc"
  +:+ " uid=" +:+ q "elsewhere" +:+ "/><contact callsign=" +:+ dq +:+ "B".

Definition label_with_a_stale : string :=
  "A" +:+ dq +:+ "/></detail><stale>never</stale><detail><contact callsign=" +:+ dq +:+ "B".


End Markup.

(** ** [claude_tools/tak_tools.py]

    Each tool encodes its geometry, then opens a client of its own with
    [async with OmniTAKClient() as client], sends, and answers with a
    sentence. A tool is run from the client [OmniTAKClient()] builds; it
    gives back its result and the log of that client. *)

Module Tools.
Import Py Geometry Client.

(** [OmniTAKClient()]: the defaults of [__init__]. *)
Definition default_client : state :=
  {| self := __init__ "http://localhost:9443" None 30; log := [] |}.

(** [async with client: body]: [__aenter__] connects, [__aexit__] closes
    whether or not [body] raised, and lets what was raised through. *)
Definition async_with {A} (body : M A) : M A := λ s,
  let '(_, s1) := connect s in
  let '(r, s2) := body s1 in
  let '(_, s3) := close s2 in
  (r, s3).

(** [try: m except OmniTAKError as e: h(str(e))] *)
Definition except_OmniTAKError_as {A} (m : M A) (h : string → M A) : M A := λ s,
  match m s with
  | (Raise (OmniTAKError msg), s') => h msg s'
  | r => r
  end.

(** [for x in l: f(x)] *)
Fixpoint for_each {A B} (f : A → M B) (l : list A) : M unit :=
  match l with
  | [] => mret ()
  | x :: l' => _ ← f x; for_each f l'
  end.

(** [LatLon(lat, lon, 0)] *)
Definition LatLon0 (la lo : number) : LatLon := {| lat := la; lon := lo; hae := Int 0 |}.

Section Tools.
Variable repr : value → string.
Variable net : request → outcome.
Variable isoformat : datetime → string.
(** [x * 1000] for a float [x], both given by their [repr]. *)
Variable float_times_1000 : string → string.

(** [client.send_cot_message(cot_message)], with the defaults of its
    other parameters. *)
Definition send (cot_message : string) : M value :=
  send_cot_message repr net cot_message None true 5.

Definition times_1000 (n : number) : number :=
  match n with
  | Int z => Int (z * 1000)
  | Float r => Float (float_times_1000 r)
  end.

Definition create_exclusion_zone (now : datetime) (uuid4 : string)
    (center_lat center_lon radius_km : number) (zone_name color : string)
    : result string * list event :=
  let circle := {| center := LatLon0 center_lat center_lon;
                   radius_meters := times_1000 radius_km |} in
  let cot_message := create_circle_event isoformat now uuid4 circle zone_name color None in
  let '(r, s) :=
    except_OmniTAKError_as
      (result ← async_with (send cot_message);
       n ← lift (subscript result "sent_to_count");
       mret ("✓ Created " +:+ zone_name +:+ ": " +:+ str_number radius_km
             +:+ "km radius at (" +:+ str_number center_lat +:+ ", "
             +:+ str_number center_lon +:+ "). Sent to " +:+ str repr n
             +:+ " TAK server(s)."))
      (λ e, mret ("✗ Failed to create zone: " +:+ e))
      default_client in
  (r, log s).

Definition create_area_polygon (now : datetime) (uuid4 : string)
    (vertices : list (number * number)) (area_name color : string) (filled : bool)
    : result string * list event :=
  let polygon := {| Geometry.vertices := (λ v, LatLon0 v.1 v.2) <$> vertices |} in
  match create_polygon_event isoformat now uuid4 polygon area_name color filled None with
  | Raise e => (Raise e, [])
  | Return cot_message =>
      let '(r, s) :=
        except_OmniTAKError_as
          (result ← async_with (send cot_message);
           n ← lift (subscript result "sent_to_count");
           mret ("✓ Created polygon '" +:+ area_name +:+ "' with "
                 +:+ pretty (length vertices) +:+ " vertices. Sent to "
                 +:+ str repr n +:+ " TAK server(s)."))
          (λ e, mret ("✗ Failed to create polygon: " +:+ e))
          default_client in
      (r, log s)
  end.

Definition create_patrol_route (now : datetime) (uuid4 : string)
    (waypoints : list (number * number * string)) (route_name color : string)
    : result string * list event :=
  let route := {| Geometry.waypoints := (λ w, (LatLon0 w.1.1 w.1.2, w.2)) <$> waypoints |} in
  match create_route_event isoformat now uuid4 route route_name color None with
  | Raise e => (Raise e, [])
  | Return cot_messages =>
      let '(r, s) :=
        except_OmniTAKError_as
          (_ ← async_with (for_each send cot_messages);
           mret ("✓ Created route '" +:+ route_name +:+ "' with "
                 +:+ pretty (length waypoints) +:+ " waypoints. Sent to TAK server(s)."))
          (λ e, mret ("✗ Failed to create route: " +:+ e))
          default_client in
      (r, log s)
  end.

Definition place_marker (now : datetime) (uuid4 : string)
    (lat lon : number) (callsign marker_type : string) (remarks : option string)
    : result string * list event :=
  let position := LatLon0 lat lon in
  let cot_message :=
    create_marker_event isoformat now uuid4 position callsign marker_type remarks None in
  let '(r, s) :=
    except_OmniTAKError_as
      (result ← async_with (send cot_message);
       n ← lift (subscript result "sent_to_count");
       mret ("✓ Placed " +:+ marker_type +:+ " marker '" +:+ callsign +:+ "' at ("
             +:+ str_number lat +:+ ", " +:+ str_number lon +:+ "). Sent to "
             +:+ str repr n +:+ " TAK server(s)."))
      (λ e, mret ("✗ Failed to place marker: " +:+ e))
      default_client in
  (r, log s).

(** A client that has a session, and neither token nor key, as a tool's
    client has while the tool sends. *)
Definition ready (s : state) : Prop :=
  is_Some (session (self s)) ∧ base_url (self s) = "http://localhost:9443" ∧
  api_key (self s) = None ∧ _token (self s) = None_.

(** The request that carries the document [m], and what sending it
    gives, for a client that holds no token and no key. *)
Definition carrying (m : string) : request :=
  request_for repr (self default_client) (SendCotMessage m None true 5).

Definition reply (m : string) : result value :=
  (send m default_client).1.

(** [result['sent_to_count']] of what [send_cot_message] returned. *)
Definition sent_to_count (v : value) : value :=
  match v with
  | Dict d => default None_ (d !! "sent_to_count")
  | _ => None_
  end.

(** The documents that go out when [l] is sent one after the other: up
    to and including the first whose sending raises. *)
Fixpoint until_failure (l : list string) : list string :=
  match l with
  | [] => []
  | m :: l' => m :: (if reply m is Return _ then until_failure l' else [])
  end.

(** What is raised first, if anything. *)
Fixpoint first_failure (l : list string) : option exn :=
  match l with
  | [] => None
  | m :: l' => match reply m with
               | Return _ => first_failure l'
               | Raise e => Some e
               end
  end.

End Tools.
End Tools.

(** ** Notions used to state further properties *)

Module Notions.
Import Py Xml Geometry Client.

(** [n] times the character [c]. *)
Fixpoint copies (n : nat) (c : ascii) : string :=
  match n with
  | 0 => EmptyString
  | S n' => String c (copies n' c)
  end.

Fixpoint last_char (s : string) : option ascii :=
  match s with
  | EmptyString => None
  | String a EmptyString => Some a
  | String _ s' => last_char s'
  end.

(** Reading a log from the start, with [cur] the session that is open:
    a session is opened only when none is, the session closed is the one
    that is open, a request goes out only on an open session. The result
    is the session open at the end, if the log is of that kind. *)
Fixpoint track (cur : option nat) (l : list event) : option (option nat) :=
  match l with
  | [] => Some cur
  | SessionOpened h :: l' => if cur is None then track (Some h) l' else None
  | SessionClosed h :: l' =>
      match cur with
      | Some h' => if bool_decide (h = h') then track None l' else None
      | None => None
      end
  | Sent _ :: l' => if cur is Some _ then track cur l' else None
  end.

(** What a caller can do with a client. *)
Inductive action :=
| Connect
| Close
| Do (op : operation)
| HealthCheck.

Definition act (repr : value → string) (net : request → outcome)
    (a : action) (s : state) : state :=
  match a with
  | Connect => (connect s).2
  | Close => (close s).2
  | Do op => (perform repr net op s).2
  | HealthCheck => (health_check repr net s).2
  end.

(** The keys [get_status] reads, in the order it reads them. *)
Definition status_keys : list string :=
  ["uptime_seconds"; "active_connections"; "messages_processed";
   "messages_per_second"; "memory_usage_bytes"; "version"].

(** The keys [get_connections] requires of a connection, in order. *)
Definition connection_keys : list string :=
  ["id"; "name"; "connection_type"; "status"; "address"].

(** The first key of [keys] that [d] lacks. *)
Fixpoint first_missing (keys : list string) (d : gmap string value) : option string :=
  match keys with
  | [] => None
  | k :: keys' => if d !! k is Some _ then first_missing keys' d else Some k
  end.

(** [d[k]] when the key is known to be there. *)
Definition field (d : gmap string value) (k : string) : value := default None_ (d !! k).

Definition status_of (d : gmap string value) : SystemStatus :=
  {| uptime_seconds := field d "uptime_seconds";
     active_connections := field d "active_connections";
     messages_processed := field d "messages_processed";
     messages_per_second := field d "messages_per_second";
     memory_usage_bytes := field d "memory_usage_bytes";
     version := field d "version" |}.

Definition counter (d : gmap string value) (k : string) : value :=
  default (Num (Int 0)) (d !! k).

Definition info_of (d : gmap string value) : ConnectionInfo :=
  {| id := field d "id"; name := field d "name";
     connection_type := field d "connection_type";
     status := field d "status"; address := field d "address";
     messages_received := counter d "messages_received";
     messages_sent := counter d "messages_sent";
     bytes_received := counter d "bytes_received";
     bytes_sent := counter d "bytes_sent" |}.

(** The marker table as the docstring of [create_marker_event] lists it. *)
Definition marker_table : list (string * string) :=
  [ ("friendly", "a-f-G-E-S"); ("hostile", "a-h-G-E-S"); ("neutral", "a-n-G-E-S");
    ("unknown", "a-u-G-E-S"); ("emergency", "b-a-o-tl"); ("medical", "b-m-p-c") ].

End Notions.

(** ** The interactive demo ([interactive_demo.py])

    A handler gets the words of a command line, parses them, prints,
    builds a document and hands it to [send_cot]. Its run is what it
    printed, sent and slept, in order, and the exception it ended with,
    if it did not return.
      - [float] is Python's: the [repr] of the float a text denotes, or
        [ValueError]. [x * 1000] on floats is a parameter as well.
      - [send_cot] is called for its effect and its result is dropped;
        it lets the errors of the HTTP library through, so a call may
        not return: [send_cot_returns k] tells whether the call number
        [k] of the handler does.
      - Text is the UTF-8 bytes of the Python [str]. *)

Module Demo.
Import Py Geometry.

Definition code (c : ascii) : N := N_of_ascii c.
Definition byte_is (n : N) (c : ascii) : bool := (code c =? n)%N.
Definition between (lo hi : N) (c : ascii) : bool :=
  ((lo <=? code c) && (code c <=? hi))%N.

(** [str.isspace] one character at a time: the number of bytes of the
    white-space character the text starts with, [0] if it starts with
    none. White space is U+0009-000D, U+001C-0020, U+0085, U+00A0,
    U+1680, U+2000-200A, U+2028, U+2029, U+202F, U+205F, U+3000. *)
Definition space_width (s : string) : nat :=
  match s with
  | String c s1 =>
      if between 0x09 0x0D c || between 0x1C 0x20 c then 1
      else
        match s1 with
        | String d s2 =>
            if byte_is 0xC2 c && (byte_is 0x85 d || byte_is 0xA0 d) then 2
            else
              match s2 with
              | String e _ =>
                  if (byte_is 0xE1 c && byte_is 0x9A d && byte_is 0x80 e)
                     || (byte_is 0xE2 c && byte_is 0x80 d
                         && (between 0x80 0x8A e || byte_is 0xA8 e || byte_is 0xA9 e || byte_is 0xAF e))
                     || (byte_is 0xE2 c && byte_is 0x81 d && byte_is 0x9F e)
                     || (byte_is 0xE3 c && byte_is 0x80 d && byte_is 0x80 e)
                  then 3 else 0
              | EmptyString => 0
              end
        | EmptyString => 0
        end
  | EmptyString => 0
  end.

(** A finished word; [str.split()] gives no empty words. *)
Definition word (cur : string) : list string :=
  if bool_decide (cur = EmptyString) then [] else [cur].

(** [str.split()]: the maximal runs without white space. [skip] bytes of
    a white-space character are still to be passed over, [cur] is the
    word read so far. *)
Fixpoint split_from (skip : nat) (cur : string) (s : string) : list string :=
  match s with
  | EmptyString => word cur
  | String c s' =>
      match skip with
      | S k => split_from k cur s'
      | O =>
          match space_width (String c s') with
          | S k => (word cur ++ split_from k EmptyString s')%list
          | O => split_from 0 (cur +:+ String c EmptyString) s'
          end
      end
  end.

Definition split (s : string) : list string := split_from 0 EmptyString s.

(** [s.replace(',', ' ')] *)
Fixpoint replace_comma (s : string) : string :=
  match s with
  | EmptyString => EmptyString
  | String c s' => String (if Ascii.eqb c "," then " "%char else c) (replace_comma s')
  end.

(** [':' in part] and [part.split(':', 1)]: the text before the first
    colon and the text after it. *)
Fixpoint split_colon (part : string) : option (string * string) :=
  match part with
  | EmptyString => None
  | String c s' =>
      if Ascii.eqb c ":" then Some (EmptyString, s')
      else (λ p, (String c p.1, p.2)) <$> split_colon s'
  end.

Inductive error :=
| ValueError
| Builder (e : exn)
| Sender.

Inductive tried (A : Type) :=
| Got (a : A)
| Failed (e : error).
Arguments Got {A} a.
Arguments Failed {A} e.

Inductive effect :=
| Printed (line : string)
| SendCot (cot_xml description : string)
| Sleep.

Record run := { out : list effect; raised : option error }.

Definition returned (l : list effect) : run := {| out := l; raised := None |}.
Definition failed (l : list effect) (e : error) : run := {| out := l; raised := Some e |}.
Definition after (l : list effect) (r : run) : run :=
  {| out := l ++ out r; raised := raised r |}.

Section Handlers.
Variable isoformat : datetime → string.
Variable float : string → option string.
Variable float_times_1000 : string → string.
Variable send_cot_returns : nat → bool.

(** [parse_coords]: [Got None] is the pair [(None, None)]. *)
Definition parse_coords (coord_str : string) : tried (option (number * number)) :=
  match split (replace_comma coord_str) with
  | a :: b :: _ =>
      match float a with
      | None => Failed ValueError
      | Some x =>
          match float b with
          | None => Failed ValueError
          | Some y => Got (Some (Float x, Float y))
          end
      end
  | _ => Got None
  end.

(** [await send_cot(cot_xml, description)], the call number [k]. *)
Definition send_cot (k : nat) (cot_xml description : string) (rest : run) : run :=
  if send_cot_returns k then after [SendCot cot_xml description] rest
  else failed [SendCot cot_xml description] Sender.

(** The [while] loop of [handle_polygon_command], at [parts[i:]]. *)
Fixpoint parse_vertices (rest : list string) (vertices : list LatLon)
    (name color : string) : tried (list LatLon * string * string) :=
  match rest with
  | [] => Got (vertices, name, color)
  | part :: rest' =>
      match parse_coords part with
      | Failed e => Failed e
      | Got (Some (lat, lon)) =>
          parse_vertices rest' (vertices ++ [LatLon2 lat lon]) name color
      | Got None =>
          Got (vertices, part, match rest' with c :: _ => c | [] => color end)
      end
  end.

Definition handle_polygon_command (now : datetime) (uuid4 : string)
    (parts : list string) : run :=
  match parse_vertices (drop 1 parts) [] "Interactive Polygon" "blue" with
  | Failed e => failed [] e
  | Got (vertices, name, color) =>
      if length vertices <? 3 then
        returned [ Printed "❌ Need at least 3 coordinate pairs for a polygon";
                   Printed "   Example: polygon 34.0,-118.0 34.0,-117.0 33.5,-117.0" ]
      else
        let prints :=
          ([ Printed (nl +:+ "📐 Creating polygon with " +:+ pretty (length vertices)
                    +:+ " vertices:") ]
           ++ imap (λ i v, Printed ("   Point " +:+ pretty (S i) +:+ ": "
                                  +:+ str_number (lat v) +:+ ", " +:+ str_number (lon v)))
                   vertices
           ++ [ Printed ("   Name: " +:+ name);
                Printed ("   Color: " +:+ color +:+ nl) ])%list in
        let polygon := {| Geometry.vertices := vertices |} in
        match create_polygon_event isoformat now uuid4 polygon name color true None with
        | Raise e => failed prints (Builder e)
        | Return cot_xml =>
            after prints (send_cot 0 cot_xml ("Polygon '" +:+ name +:+ "'") (returned []))
        end
  end.

Definition handle_circle_command (now : datetime) (uuid4 : string)
    (parts : list string) : run :=
  match parts with
  | _ :: center :: radius :: optional =>
      match parse_coords center with
      | Failed e => failed [] e
      | Got None => returned [ Printed "❌ Invalid coordinates. Use format: 34.0,-118.0" ]
      | Got (Some (lat, lon)) =>
          match float radius with
          | None => returned [ Printed "❌ Invalid radius. Use a number (kilometers)" ]
          | Some radius_km =>
              let name := match optional with n :: _ => n | [] => "Interactive Circle" end in
              let color := match optional with _ :: c :: _ => c | _ => "red" end in
              let prints :=
                [ Printed (nl +:+ "⭕ Creating circle:");
                  Printed ("   Center: " +:+ str_number lat +:+ ", " +:+ str_number lon);
                  Printed ("   Radius: " +:+ radius_km +:+ " km");
                  Printed ("   Name: " +:+ name);
                  Printed ("   Color: " +:+ color +:+ nl) ] in
              let circle := {| center := LatLon2 lat lon;
                               radius_meters := Float (float_times_1000 radius_km) |} in
              let cot_xml := create_circle_event isoformat now uuid4 circle name color None in
              after prints (send_cot 0 cot_xml ("Circle '" +:+ name +:+ "'") (returned []))
          end
      end
  | _ => returned [ Printed "❌ Usage: circle <lat,lon> <radius_km> [name] [color]" ]
  end.

(** The [while] loop of [handle_route_command], at [parts[i:]]. *)
Fixpoint parse_waypoints (rest : list string) (waypoints : list (LatLon * string))
    (name color : string) : tried (list (LatLon * string) * string * string) :=
  match rest with
  | [] => Got (waypoints, name, color)
  | part :: rest' =>
      match split_colon part with
      | Some (coord_part, wp_name) =>
          match parse_coords coord_part with
          | Failed e => Failed e
          | Got (Some (lat, lon)) =>
              parse_waypoints rest' (waypoints ++ [(LatLon2 lat lon, wp_name)]) name color
          | Got None => Got (waypoints, name, color)
          end
      | None =>
          match parse_coords part with
          | Failed e => Failed e
          | Got (Some (lat, lon)) =>
              parse_waypoints rest'
                (waypoints ++ [(LatLon2 lat lon, "WP" +:+ pretty (S (length waypoints)))])
                name color
          | Got None =>
              Got (waypoints, part, match rest' with c :: _ => c | [] => color end)
          end
      end
  end.

(** [for idx, msg in enumerate(route_msgs)], from [idx] on. *)
Fixpoint send_route (idx : nat) (name : string) (route_msgs : list string) : run :=
  match route_msgs with
  | [] => returned []
  | msg :: rest =>
      match idx with
      | O => send_cot idx msg ("Route '" +:+ name +:+ "'") (send_route (S idx) name rest)
      | S _ =>
          send_cot idx msg ("  Waypoint " +:+ pretty idx)
            (after [Sleep] (send_route (S idx) name rest))
      end
  end.

Definition handle_route_command (now : datetime) (uuid4 : string)
    (parts : list string) : run :=
  if length parts <? 3 then
    returned [ Printed "❌ Usage: route <lat,lon:name> <lat,lon:name> ... [route_name] [color]" ]
  else
    match parse_waypoints (drop 1 parts) [] "Interactive Route" "yellow" with
    | Failed e => failed [] e
    | Got (waypoints, name, color) =>
        if length waypoints <? 2 then
          returned [ Printed "❌ Need at least 2 waypoints for a route" ]
        else
          let prints :=
            ([ Printed (nl +:+ "🛣️  Creating route with " +:+ pretty (length waypoints)
                      +:+ " waypoints:") ]
             ++ imap (λ i w, Printed ("   " +:+ pretty (S i) +:+ ". " +:+ w.2 +:+ ": "
                                    +:+ str_number (lat w.1) +:+ ", "
                                    +:+ str_number (lon w.1)))
                     waypoints
             ++ [ Printed ("   Route Name: " +:+ name);
                  Printed ("   Color: " +:+ color +:+ nl) ])%list in
          let route := {| Geometry.waypoints := waypoints |} in
          match create_route_event isoformat now uuid4 route name color None with
          | Raise e => failed prints (Builder e)
          | Return route_msgs => after prints (send_route 0 name route_msgs)
          end
    end.

End Handlers.

(** What a run handed to [send_cot]. *)
Definition sends (l : list effect) : list (string * string) :=
  omap (λ e, match e with SendCot x d => Some (x, d) | _ => None end) l.

(** How often it slept. *)
Definition sleeps (l : list effect) : nat :=
  length (omap (λ e, match e with Sleep => Some () | _ => None end) l).

(** The document number [i] of a route with what [send_cot] is told
    about it. *)
Definition described (name : string) (i : nat) (cot_xml : string) : string * string :=
  (cot_xml,
   match i with
   | O => "Route '" +:+ name +:+ "'"
   | S _ => "  Waypoint " +:+ pretty i
   end).

(** A text of visible ASCII characters other than the comma and the
    colon: what a number, or a name without punctuation of the command
    language, is written with. *)
Definition plain_char (c : ascii) : bool :=
  between 0x21 0x7E c && negb (byte_is 0x2C c) && negb (byte_is 0x3A c).

Fixpoint plain (s : string) : bool :=
  match s with
  | EmptyString => true
  | String c s' => plain_char c && plain s'
  end.

Definition bare (s : string) : Prop := s ≠ EmptyString ∧ plain s = true.

(** The word [lat,lon] of a command line and the word [lat,lon:name]. *)
Definition pair_word (p : string * string) : string := p.1 +:+ "," +:+ p.2.

Definition stop_word (w : string * string * option string) : string :=
  match w.2 with
  | Some name => pair_word w.1 +:+ ":" +:+ name
  | None => pair_word w.1
  end.

(** A pair of texts [float] reads, and the position they denote. *)
Definition numeric (float : string → option string) (p : string * string) : Prop :=
  bare p.1 ∧ bare p.2 ∧ is_Some (float p.1) ∧ is_Some (float p.2).

Definition reading (float : string → option string) (w : string) : number :=
  Float (default EmptyString (float w)).

Definition position (float : string → option string) (p : string * string) : LatLon :=
  LatLon2 (reading float p.1) (reading float p.2).

(** The stop number [i] of a route: a stop without a name is called
    after its rank. *)
Definition stop (float : string → option string) (i : nat)
    (w : string * string * option string) : LatLon * string :=
  (position float w.1, default ("WP" +:+ pretty (S i)) w.2).

(** The name and the colour the words after the coordinates give. *)
Definition name_of (dflt : string) (tail : list string) : string :=
  match tail with n :: _ => n | [] => dflt end.

Definition color_of (dflt : string) (tail : list string) : string :=
  match tail with _ :: c :: _ => c | _ => dflt end.

(** A [float] for examples: it reads the texts listed, which are the
    [repr] of the floats they denote. *)
Definition sample_float (s : string) : option string :=
  if bool_decide (s ∈ ["34.0"; "33.5"; "-118.0"; "-117.0"; "5.0"; "-5.0"]) then Some s
  else None.

End Demo.

(** * Properties *)

(** ** Text: appending and joining *)

Module Text.
Import Py.

Lemma append_assoc (a b c : string) : (a +:+ b) +:+ c = a +:+ (b +:+ c).
Proof.
  induction a as [|x a IH]; [done|].
  change (String x ((a +:+ b) +:+ c) = String x (a +:+ (b +:+ c))).
  by rewrite IH.
Qed.

Lemma join_cons sep (x y : string) (l : list string) :
  join sep (x :: y :: l) = x +:+ sep +:+ join sep (y :: l).
Proof. reflexivity. Qed.

Lemma join_app sep (l1 l2 : list string) :
  l1 ≠ [] → l2 ≠ [] →
  join sep (l1 ++ l2) = join sep l1 +:+ sep +:+ join sep l2.
Proof.
  intros H1 H2. induction l1 as [|x [|y l1] IH]; [done| |].
  - destruct l2 as [|z l2]; [done|]. reflexivity.
  - change (x +:+ sep +:+ join sep ((y :: l1) ++ l2)
            = (x +:+ sep +:+ join sep (y :: l1)) +:+ sep +:+ join sep l2).
    rewrite IH by done. by rewrite !append_assoc.
Qed.

(** Lines that all start with the same indentation: the indentation of
    the first can be written in front, that of the others after the
    separator. This is how the templates place [vertices_xml] and
    [links_xml]. *)
Lemma join_indent sep ind (l : list string) :
  l ≠ [] →
  join sep ((λ s, ind +:+ s) <$> l) = ind +:+ join (sep +:+ ind) l.
Proof.
  induction l as [|x [|y l] IH]; intros Hl; [done|done|].
  change (((ind +:+ x) +:+ sep +:+ join sep ((λ s, ind +:+ s) <$> y :: l))
          = ind +:+ x +:+ (sep +:+ ind) +:+ join (sep +:+ ind) (y :: l)).
  rewrite IH by done. by rewrite !append_assoc.
Qed.

End Text.

(** ** Every template is the rendering of its tree *)

Module Rendering.
Import Py Xml Geometry Documents Text.

Ltac flatten :=
  unfold render, event_doc, point_line, event_line, stamp_lines, prolog, join,
    point_elem, ellipse_elem, contact_elem, value_elem, stamp_elems;
  cbn -[str_number pretty];
  unfold render_attr, q; cbn [fst snd];
  rewrite ?append_assoc.

Lemma render_at_elem ind tag attrs k kids :
  render_at ind (Elem tag attrs (k :: kids))
  = ind +:+ "<" +:+ tag +:+ render_attrs attrs +:+ ">" +:+ nl
    +:+ join nl (List.map (render_at ("  " +:+ ind)) (k :: kids)) +:+ nl
    +:+ ind +:+ "</" +:+ tag +:+ ">".
Proof. reflexivity. Qed.

Section Templates.
Variable isoformat : datetime → string.

Lemma circle_render now u c cs col uid :
  create_circle_event isoformat now u c cs col uid
  = render (circle_doc isoformat now u c cs col uid).
Proof.
  unfold create_circle_event, circle_doc.
  generalize (str_or uid ("circle-" +:+ u)) (default "-65536" (colors !! col)).
  intros i cv. destruct c as [[la lo h] r].
  flatten. reflexivity.
Qed.

Lemma marker_render now u p cs kind remarks uid :
  create_marker_event isoformat now u p cs kind remarks uid
  = render (marker_doc isoformat now u p cs kind remarks uid).
Proof.
  unfold create_marker_event, marker_doc, remarks_elem.
  generalize (str_or uid ("marker-" +:+ u)) (default "a-f-G-E-S" (types !! kind)).
  intros i ty. destruct p as [la lo h].
  destruct remarks as [r|]; [destruct (bool_decide (r = EmptyString))|];
    flatten; reflexivity.
Qed.

Lemma waypoint_render now uid idx wp :
  wp_xml isoformat now (now + timedelta_hours 24)%Z uid idx wp
  = render (waypoint_doc isoformat now uid idx wp).
Proof.
  unfold wp_xml, waypoint_doc. generalize (wp_uid uid idx). intros i.
  destruct wp as [[la lo h] name].
  flatten. reflexivity.
Qed.

(** [vertices_xml], indented as the template indents it. *)
Lemma vertices_render ind (vs : list LatLon) :
  vs ≠ [] →
  join nl (List.map (render_at ind) (vertex_elem <$> vs))
  = ind +:+ join (nl +:+ ind) (vertex_str <$> vs).
Proof.
  intros Hvs. rewrite <- join_indent by (by destruct vs).
  f_equal. rewrite <- list_fmap_compose.
  change (List.map (render_at ind) (vertex_elem <$> vs))
    with (render_at ind <$> (vertex_elem <$> vs)).
  rewrite <- list_fmap_compose. apply list_fmap_ext. intros k [la lo h] _. unfold compose.
  unfold vertex_str. flatten. reflexivity.
Qed.

(** [links_xml], likewise. *)
Lemma links_render ind uid (wps : list (LatLon * string)) :
  wps ≠ [] →
  join nl (List.map (render_at ind) (imap (λ idx _, link_elem uid idx) wps))
  = ind +:+ join (nl +:+ ind) (imap (λ idx _, waypoint_link uid idx) wps).
Proof.
  intros Hwps. rewrite <- join_indent by (by destruct wps).
  f_equal.
  change (List.map (render_at ind) (imap (λ idx _, link_elem uid idx) wps))
    with (render_at ind <$> imap (λ idx _, link_elem uid idx) wps).
  rewrite !fmap_imap. apply imap_ext. intros idx wp _.
  unfold waypoint_link, link_elem. cbn. generalize (wp_uid uid idx). intros i.
  flatten. reflexivity.
Qed.

Lemma polyline_render ind (vs : list LatLon) :
  vs ≠ [] →
  render_at ind (Elem "polyline" [("closed", "true")] (vertex_elem <$> vs))
  = ind +:+ "<polyline closed=" +:+ q "true" +:+ ">" +:+ nl
    +:+ ("  " +:+ ind) +:+ join (nl +:+ "  " +:+ ind) (vertex_str <$> vs) +:+ nl
    +:+ ind +:+ "</polyline>".
Proof.
  intros Hvs. destruct vs as [|v vs]; [done|].
  rewrite fmap_cons, render_at_elem, <- fmap_cons, vertices_render by done.
  cbn -[join]. unfold render_attr, q. cbn [fst snd].
  rewrite ?append_assoc. reflexivity.
Qed.

Lemma polygon_render now u p cs col fl uid :
  create_polygon_event isoformat now u p cs col fl uid
  = match vertices p with
    | [] => Raise IndexError
    | a :: _ => Return (render (polygon_doc isoformat now u p cs col fl uid a))
    end.
Proof.
  unfold create_polygon_event, polygon_doc. destruct p as [vs]. cbn [vertices].
  destruct vs as [|a vs]; [reflexivity|]. cbn [first bind]. f_equal.
  assert (a :: vs ≠ []) as Hvs by done. revert Hvs.
  cbn [vertices]. generalize (a :: vs). intros l Hl.
  generalize (str_or uid ("polygon-" +:+ u)) (default "-16711936" (colors !! col))
    (if fl then "1342177280" else "0").
  intros i cv fv. destruct a as [la lo h].
  remember (Elem "polyline" [("closed", "true")] (vertex_elem <$> l)) as P eqn:HP.
  remember (join (nl +:+ "        ") (vertex_str <$> l)) as V eqn:HV.
  flatten. subst P. rewrite polyline_render by done. subst V.
  unfold q. rewrite ?append_assoc. reflexivity.
Qed.

Lemma route_detail_render ind uid name cv (wps : list (LatLon * string)) :
  wps ≠ [] →
  render_at ind
    (Elem "detail" []
       (contact_elem name
        :: imap (λ idx _, link_elem uid idx) wps ++
        [ value_elem "labels_on" "true"; value_elem "color" cv ]))
  = ind +:+ "<detail>" +:+ nl
    +:+ ("  " +:+ ind) +:+ "<contact callsign=" +:+ q name +:+ "/>" +:+ nl
    +:+ ("  " +:+ ind) +:+ join (nl +:+ "  " +:+ ind) (imap (λ idx _, waypoint_link uid idx) wps) +:+ nl
    +:+ ("  " +:+ ind) +:+ "<labels_on value=" +:+ q "true" +:+ "/>" +:+ nl
    +:+ ("  " +:+ ind) +:+ "<color value=" +:+ q cv +:+ "/>" +:+ nl
    +:+ ind +:+ "</detail>".
Proof.
  intros Hwps. rewrite render_at_elem.
  change (List.map ?f (?x :: ?l)) with ([f x] ++ List.map f l)%list.
  rewrite List.map_app.
  assert (List.map (render_at ("  " +:+ ind)) (imap (λ idx _, link_elem uid idx) wps) ≠ [])
    as Hne by (by destruct wps).
  rewrite join_app; [|done|by intros [? _]%app_eq_nil].
  rewrite join_app by done.
  rewrite links_render by done.
  unfold contact_elem, value_elem, join. cbn -[String.concat imap].
  unfold render_attr, q. cbn [fst snd String.concat].
  rewrite ?append_assoc. reflexivity.
Qed.

Lemma route_render now u r name col uid :
  create_route_event isoformat now u r name col uid
  = match waypoints r with
    | [] => Raise IndexError
    | a :: _ => Return (render <$> route_docs isoformat now u r name col uid a)
    end.
Proof.
  unfold create_route_event, route_docs, route_doc. destruct r as [wps]. cbn [waypoints].
  destruct wps as [|a wps]; [reflexivity|]. cbn [first bind]. f_equal.
  assert (a :: wps ≠ []) as Hwps by done. revert Hwps.
  generalize (a :: wps). intros l Hl.
  generalize (str_or uid ("route-" +:+ u)) (default "-256" (colors !! col)).
  intros i cv. rewrite fmap_cons. apply (f_equal2 cons).
  - destruct a as [[la lo h] nm]. cbn [fst].
    remember (Elem "detail" [] _) as D eqn:HD.
    remember (join (nl +:+ "    ") _) as L eqn:HL.
    flatten. subst D. rewrite route_detail_render by done. subst L.
    unfold q. rewrite ?append_assoc. reflexivity.
  - rewrite fmap_imap. apply imap_ext. intros idx wp _. apply waypoint_render.
Qed.

End Templates.
End Rendering.

(** ** The encoder *)

Module Encoder.
Import Py Xml Geometry Documents Text Rendering.

Lemma palette_lookup fallback name :
  default fallback (colors !! name) = palette_value fallback name.
Proof.
  unfold palette_value, colors.
  repeat (case_bool_decide; [subst name; reflexivity|]).
  by rewrite !lookup_insert_ne, lookup_singleton_ne by done.
Qed.

Section Claims.
Variable isoformat : datetime → string.

(** C2, as the code has it. The builder has no vertex or waypoint
    count check and no error of its own: a polygon is encoded as soon
    as it has a first vertex and a route as soon as it has a first
    waypoint; only the empty polygon and the empty route fail, with
    the [IndexError] of [[0]], and then nothing is produced. *)
Theorem count_is_not_checked now u p r callsign color filled uid :
  create_polygon_event isoformat now u p callsign color filled uid
  = match vertices p with
    | [] => Raise IndexError
    | a :: _ => Return (render (polygon_doc isoformat now u p callsign color filled uid a))
    end ∧
  create_route_event isoformat now u r callsign color uid
  = match waypoints r with
    | [] => Raise IndexError
    | a :: _ => Return (render <$> route_docs isoformat now u r callsign color uid a)
    end.
Proof. split; [apply polygon_render|apply route_render]. Qed.

End Claims.

(** C2 as stated fails: a polygon of two vertices and a route of one
    waypoint are encoded, nothing is raised. *)
Lemma short_shapes_are_encoded :
  ¬ fails (create_polygon_event Samples.iso_micros 0%Z "0" Samples.two_vertices
             "Area" "green" true None) ∧
  ¬ fails (create_route_event Samples.iso_micros 0%Z "0" Samples.one_waypoint
             "Route" "yellow" None).
Proof. split; intros [e He]; vm_compute in He; discriminate He. Qed.

End Encoder.

(** ** The client *)

Module Session.
Import Py Client.

Section Runs.
Variable repr : value → string.
Variable net : request → outcome.

Lemma connected_self s :
  base_url (self (connected s)) = base_url (self s) ∧
  api_key (self (connected s)) = api_key (self s) ∧
  _token (self (connected s)) = _token (self s) ∧
  is_Some (session (self (connected s))).
Proof. unfold connected. destruct (session (self s)) eqn:E; cbn; rewrite ?E; eauto. Qed.

Lemma build_request_connected s method endpoint data :
  build_request repr (self (connected s)) method endpoint data
  = build_request repr (self s) method endpoint data.
Proof. unfold connected. by destruct (session (self s)). Qed.

(** One call of [_request]: a session is opened if there is none, the
    request goes out, the answer is turned into a result. *)
Lemma _request_run method endpoint data s :
  _request repr net method endpoint data s
  = (response_result repr (net (build_request repr (self s) method endpoint data)),
     {| self := self (connected s);
        log := log (connected s) ++ [Sent (build_request repr (self s) method endpoint data)] |}).
Proof.
  unfold _request, mbind, M_bind, get_self, connect, connected, emit, lift, mret, M_ret.
  destruct s as [c l]. cbn. destruct (session c) eqn:E; cbn; rewrite ?E; reflexivity.
Qed.

Ltac run :=
  unfold perform, login, get_status, get_connections, send_cot_message, create_connection,
    delete_connection, health_check, except_OmniTAKError, fmap, M_fmap, mbind, M_bind,
    get_self, put_self, lift, mret, M_ret;
  rewrite ?_request_run.

(** What an operation leaves on the wire: its one request. *)
Lemma perform_log op s :
  log (perform repr net op s).2
  = log (connected s) ++ [Sent (request_for repr (self s) op)].
Proof.
  destruct op; run; cbn [request_for];
    repeat (match goal with
            | |- context [match ?r with Return _ => _ | Raise _ => _ end] => destruct r
            | |- context [if ?b then _ else _] => destruct b
            end; cbn [fst snd log]); reflexivity.
Qed.

(** An operation leaves the client as [_request] left it; only a
    login that returns changes it, and only the token. *)
Lemma perform_self op s :
  base_url (self (perform repr net op s).2) = base_url (self s) ∧
  api_key (self (perform repr net op s).2) = api_key (self s) ∧
  is_Some (session (self (perform repr net op s).2)).
Proof.
  pose proof (connected_self s) as (Hb & Hk & _ & Hs).
  destruct op; run;
    repeat (match goal with
            | |- context [match ?r with Return _ => _ | Raise _ => _ end] => destruct r
            | |- context [if ?b then _ else _] => destruct b
            end; cbn [fst snd self set_token base_url api_key session]); auto.
Qed.

(** The result of an operation depends on the client only through the
    request it builds. *)
Lemma perform_result op s s' :
  request_for repr (self s) op = request_for repr (self s') op →
  (perform repr net op s).1 = (perform repr net op s').1.
Proof.
  intros Hreq. destruct op; run; cbn [request_for] in Hreq; rewrite Hreq;
    repeat (match goal with
            | |- context [match ?r with Return _ => _ | Raise _ => _ end] => destruct r
            | |- context [if ?b then _ else _] => destruct b
            end; cbn [fst snd]); reflexivity.
Qed.

Lemma requests_app l1 l2 : requests (l1 ++ l2) = requests l1 ++ requests l2.
Proof. apply omap_app. Qed.

Lemma requests_connected s : requests (log (connected s)) = requests (log s).
Proof.
  unfold connected. destruct (session (self s)); [done|].
  cbn [log]. rewrite requests_app. cbn. by rewrite app_nil_r.
Qed.

Lemma perform_requests op s :
  requests (log (perform repr net op s).2)
  = requests (log s) ++ [request_for repr (self s) op].
Proof. by rewrite perform_log, requests_app, requests_connected. Qed.

Lemma request_for_ext c c' op :
  base_url c = base_url c' → api_key c = api_key c' → _token c = _token c' →
  request_for repr c op = request_for repr c' op.
Proof.
  intros Hb Hk Ht. destruct op; cbn; unfold build_request, _get_headers;
    by rewrite Hb, Hk, Ht.
Qed.

(** C3, as the code has it. [close] gives the session back and keeps
    the token, and it is not final: an operation called afterwards
    finds no session, opens a new one, sends its request and returns
    what it would have returned had [close] not been called. Nothing
    in the client is a [ClientClosedError]. *)
Theorem close_is_not_terminal op s :
  let s1 := (close s).2 in
  session (self s1) = None ∧
  _token (self s1) = _token (self s) ∧
  (perform repr net op s1).1 = (perform repr net op s).1 ∧
  requests (log (perform repr net op s1).2)
  = requests (log s) ++ [request_for repr (self s) op] ∧
  is_Some (session (self (perform repr net op s1).2)).
Proof.
  intros s1.
  assert (session (self s1) = None ∧ base_url (self s1) = base_url (self s) ∧
          api_key (self s1) = api_key (self s) ∧ _token (self s1) = _token (self s) ∧
          requests (log s1) = requests (log s)) as (Hs & Hb & Hk & Ht & Hl).
  { subst s1. unfold close. destruct (session (self s)) eqn:E; cbn; [|by rewrite E].
    rewrite requests_app. cbn. by rewrite app_nil_r. }
  pose proof (request_for_ext _ _ op Hb Hk Ht) as Hreq.
  split; [done|]. split; [done|]. split; [by apply perform_result|].
  split; [by rewrite perform_requests, Hl, Hreq|apply perform_self].
Qed.

(** The messages of the three shapes are told apart by how they begin. *)
Lemma classify_shapes e (status : Z) msg :
  classify (OmniTAKError ("HTTP request failed: " +:+ e)) = Some Transport ∧
  classify (OmniTAKError ("API error " +:+ pretty status +:+ ": " +:+ msg)) = Some Protocol ∧
  classify (OmniTAKError ("Invalid JSON response: " +:+ e)) = Some Decoding.
Proof. done. Qed.

(** What raises once the response is decoded is never an [OmniTAKError]. *)
Lemma subscript_foreign v k : is_OmniTAKError (subscript v k) = false.
Proof. unfold subscript. destruct v; try done. by destruct (_ !! _). Qed.

Lemma get_foreign v k d : is_OmniTAKError (get v k d) = false.
Proof. by destruct v. Qed.

Lemma iterate_foreign v : is_OmniTAKError (iterate v) = false.
Proof. by destruct v. Qed.

Lemma bind_foreign {A B} (r : result A) (k : A → result B) :
  is_OmniTAKError r = false → (∀ a, is_OmniTAKError (k a) = false) →
  is_OmniTAKError (Py.bind r k) = false.
Proof. destruct r as [a|e]; cbn; auto. Qed.

Lemma connection_info_foreign conn : is_OmniTAKError (connection_info conn) = false.
Proof.
  unfold connection_info.
  repeat (apply bind_foreign; [apply subscript_foreign || apply get_foreign|intros ?]).
  done.
Qed.

Lemma mapM_foreign l : is_OmniTAKError (mapM connection_info l) = false.
Proof.
  induction l as [|conn l IH]; [done|]. cbn [mapM].
  apply bind_foreign; [apply connection_info_foreign|intros c].
  apply bind_foreign; [exact IH|done].
Qed.

Ltac foreign :=
  repeat (match goal with
          | |- context [match ?r with Return _ => _ | Raise _ => _ end] =>
              let H := fresh in
              assert (is_OmniTAKError r = false) as H
                by first [ apply subscript_foreign | apply get_foreign | apply iterate_foreign
                         | apply mapM_foreign
                         | apply bind_foreign;
                           [apply subscript_foreign|intros; apply iterate_foreign] ];
              destruct r as [?|[]]
          | |- context [if ?b then _ else _] => destruct b
          end; cbn in *; try done).

Lemma perform_Return op s v :
  response_result repr (net (request_for repr (self s) op)) = Return v →
  is_OmniTAKError (perform repr net op s).1 = false.
Proof.
  intros Hv. destruct op; run; cbn [request_for] in Hv; rewrite Hv; cbn; try done; foreign.
Qed.

Lemma perform_Raise op s e :
  response_result repr (net (request_for repr (self s) op)) = Raise e →
  (perform repr net op s).1 = Raise e.
Proof.
  intros He. destruct op; run; cbn [request_for] in He; by rewrite He.
Qed.

Lemma perform_token op s :
  is_login op = false →
  _token (self (perform repr net op s).2) = _token (self s).
Proof.
  pose proof (connected_self s) as (_ & _ & Ht & _). intros Hop.
  destruct op; try done; run;
    repeat (match goal with
            | |- context [match ?r with Return _ => _ | Raise _ => _ end] => destruct r
            | |- context [if ?b then _ else _] => destruct b
            end; cbn [fst snd self]); done.
Qed.

Lemma perform_all_requests ops s :
  Forall (λ op, is_login op = false) ops →
  requests (log (perform_all repr net ops s))
  = requests (log s) ++ (request_for repr (self s) <$> ops).
Proof.
  revert s. induction ops as [|op ops IH]; intros s Hops.
  { cbn. by rewrite app_nil_r. }
  apply Forall_cons in Hops as [Hop Hops]. cbn [perform_all foldl].
  fold (perform_all repr net ops (perform repr net op s).2).
  rewrite IH, perform_requests by done.
  pose proof (perform_self op s) as (Hb & Hk & _).
  pose proof (perform_token op s Hop) as Ht.
  rewrite <- app_assoc. cbn. do 2 f_equal.
  apply list_fmap_ext. intros _ op' _. by apply request_for_ext.
Qed.

(** [login]: the token is stored when the call returns, and only then. *)
Lemma login_run u p s :
  let r := login repr net u p s in
  match r.1 with
  | Return tok => _token (self r.2) = tok
  | Raise _ => _token (self r.2) = _token (self s)
  end ∧
  base_url (self r.2) = base_url (self s) ∧ api_key (self r.2) = api_key (self s).
Proof.
  pose proof (connected_self s) as (Hb & Hk & Ht & _).
  cbn zeta. run.
  destruct (response_result _ _) as [v|e]; cbn; [|done].
  destruct (subscript v "token"); cbn; done.
Qed.


End Runs.

Section Claims.
Variable repr : value → string.

(** C4, as the code has it. The client has one error class,
    [OmniTAKError], which carries a message and nothing else. An
    operation raises it in three cases, told apart by how the message
    begins: the HTTP library raised [aiohttp.ClientError]
    ([HTTP request failed: ...]); a response of status 400 or more
    ([API error <status>: <message>], the message being the [message]
    field when the body is a JSON object that has one and the text of
    the body when the body is not JSON or the field is missing); a
    response below 400 whose body is not JSON
    ([Invalid JSON response: ...]). Once the body of a response below
    400 is decoded, whatever else is raised is no [OmniTAKError]. An
    error body that is JSON but no object, and a request whose time
    ran out, are left aside. *)
Theorem error_shapes net op s :
  let r := (perform repr net op s).1 in
  match net (request_for repr (self s) op) with
  | ClientError e =>
      r = Raise (OmniTAKError ("HTTP request failed: " +:+ e)) ∧
      shape_of r = Some Transport
  | Timeout => True
  | Response status text loads =>
      if (400 <=? status)%Z then
        match loads with
        | JSONDecodeError _ =>
            r = Raise (OmniTAKError ("API error " +:+ pretty status +:+ ": " +:+ text)) ∧
            shape_of r = Some Protocol
        | Json (Dict d) =>
            r = Raise (OmniTAKError ("API error " +:+ pretty status +:+ ": "
                                     +:+ str repr (default (Str text) (d !! "message")))) ∧
            shape_of r = Some Protocol
        | Json _ => True
        end
      else
        match loads with
        | JSONDecodeError e =>
            r = Raise (OmniTAKError ("Invalid JSON response: " +:+ e)) ∧
            shape_of r = Some Decoding
        | Json _ => is_OmniTAKError r = false
        end
  end.
Proof.
  intros r. subst r.
  destruct (net _) as [e| |status text loads] eqn:Hnet; [|done|].
  - rewrite (perform_Raise repr net op s (OmniTAKError ("HTTP request failed: " +:+ e)))
      by (by rewrite Hnet). done.
  - destruct (400 <=? status)%Z eqn:Hst; destruct loads as [v|e].
    + destruct v; try done.
      rewrite (perform_Raise repr net op s
                 (OmniTAKError ("API error " +:+ pretty status +:+ ": "
                                +:+ str repr (default (Str text) (d !! "message")))))
        by (by rewrite Hnet; cbn; rewrite Hst). done.
    + rewrite (perform_Raise repr net op s
                 (OmniTAKError ("API error " +:+ pretty status +:+ ": " +:+ text)))
        by (by rewrite Hnet; cbn; rewrite Hst). done.
    + apply (perform_Return repr net op s v). by rewrite Hnet; cbn; rewrite Hst.
    + rewrite (perform_Raise repr net op s (OmniTAKError ("Invalid JSON response: " +:+ e)))
        by (by rewrite Hnet; cbn; rewrite Hst). done.
Qed.

(** C8, as the code has it. A login answered below 400 with a JSON
    object that has a [token] returns that token and has stored it.
    While the token stored is truthy, every request of every later
    operation carries [Content-Type] and [Authorization: Bearer <token>]
    and nothing else, whether or not an API key is configured. The
    guard of [_get_headers] is the truth of the token: a token that is
    empty (or falsy otherwise) is stored all the same and is never
    sent, and the key, if there is one, goes out as [X-API-Key]. A
    login that raises leaves the token as it was. *)
Theorem bearer_token net u p s status text d tok :
  net (request_for repr (self s) (Login u p)) = Response status text (Json (Dict d)) →
  (status < 400)%Z →
  d !! "token" = Some tok →
  let r := login repr net u p s in
  r.1 = Return tok ∧
  _token (self r.2) = tok ∧
  (∀ net' ops,
     Forall (λ op, is_login op = false) ops →
     requests (log (perform_all repr net' ops r.2))
     = requests (log r.2) ++ (request_for repr (self r.2) <$> ops)) ∧
  (∀ op, headers (request_for repr (self r.2) op)
         = if truthy tok
           then <[ "Authorization" := "Bearer " +:+ str repr tok ]>
                  {[ "Content-Type" := "application/json" ]}
           else match api_key (self s) with
                | Some k => if bool_decide (k = EmptyString)
                            then {[ "Content-Type" := "application/json" ]}
                            else <[ "X-API-Key" := k ]>
                                   {[ "Content-Type" := "application/json" ]}
                | None => {[ "Content-Type" := "application/json" ]}
                end) ∧
  (∀ net0 u0 p0 e,
     (login repr net0 u0 p0 s).1 = Raise e →
     _token (self (login repr net0 u0 p0 s).2) = _token (self s)).
Proof.
  intros Hnet Hst Htok r.
  assert (r.1 = Return tok) as Hret.
  { subst r. unfold login, mbind, M_bind, get_self, put_self, lift, mret, M_ret.
    rewrite _request_run. cbn [request_for] in Hnet. rewrite Hnet. cbn [response_result].
    replace (400 <=? status)%Z with false by (symmetry; apply Z.leb_gt; lia).
    cbn [subscript]. by rewrite Htok. }
  pose proof (login_run repr net u p s) as (Hr & _ & Hk). fold r in Hr, Hk.
  rewrite Hret in Hr. split; [exact Hret|]. split; [exact Hr|]. split; [|split].
  - intros net' ops Hops. by apply perform_all_requests.
  - intros op. destruct op; cbn; unfold _get_headers; by rewrite Hr, Hk.
  - intros net0 u0 p0 e He. pose proof (login_run repr net0 u0 p0 s) as [H0 _].
    cbn zeta in H0. by rewrite He in H0.
Qed.

(** C10, as the code has it. When the answer to [send_cot_message] is
    a JSON object of status below 400, the call returns that object
    as it is, provided it has the keys [message_id] and
    [sent_to_count]; it raises [KeyError] when one of them is missing.
    A [warnings] field that is missing, falsy, or a list, a string or
    an object changes nothing to that; a [warnings] that is a number
    other than zero or [true] makes the call raise [TypeError]. *)
Theorem send_result net cot_xml targets filters priority s status text d :
  net (request_for repr (self s) (SendCotMessage cot_xml targets filters priority))
  = Response status text (Json (Dict d)) →
  (status < 400)%Z →
  let w := default None_ (d !! "warnings") in
  (send_cot_message repr net cot_xml targets filters priority s).1
  = if truthy w && negb (iterable w) then Raise TypeError
    else match d !! "message_id", d !! "sent_to_count" with
         | Some _, Some _ => Return (Dict d)
         | None, _ => Raise (KeyError "message_id")
         | Some _, None => Raise (KeyError "sent_to_count")
         end.
Proof.
  intros Hnet Hst w.
  unfold send_cot_message, mbind, M_bind, lift, mret, M_ret.
  rewrite _request_run. cbn [request_for] in Hnet. rewrite Hnet. cbn [response_result].
  replace (400 <=? status)%Z with false by (symmetry; apply Z.leb_gt; lia).
  cbn [get subscript]. subst w.
  destruct (d !! "warnings") as [w|] eqn:Hw; cbn [default from_option id].
  - destruct w as [|b|n|x|l|m]; cbn [iterable negb andb Py.bind iterate];
      destruct (truthy _); cbn [fst andb];
      destruct (d !! "message_id"), (d !! "sent_to_count"); done.
  - cbn. destruct (d !! "message_id"), (d !! "sent_to_count"); done.
Qed.

End Claims.

(** C3 as stated fails: a client that was connected and then closed
    deletes a connection all the same; the call returns and its request
    is on the wire. *)
Lemma closed_client_sends :
  let closed := (close (connect (Samples.fresh None)).2).2 in
  let run := perform Samples.no_repr (Samples.answers 200 "{}" (Dict ∅))
               (DeleteConnection "c-1") closed in
  session (self closed) = None ∧
  ¬ fails run.1 ∧
  requests (log run.2)
  = [ {| method := "DELETE"; url := "http://localhost:9443/api/v1/connections/c-1";
         json := None; params := None;
         headers := {[ "Content-Type" := "application/json" ]} |} ].
Proof.
  cbn zeta. split; [done|]. split; [|by vm_compute].
  intros [e He]. vm_compute in He. discriminate He.
Qed.

(** C4 as stated fails: a refused connection, a 404 and a body that
    is not JSON make the operation raise one and the same class of
    exception, [OmniTAKError], which holds a text and nothing else:
    there is no variant to match on and no status field, the kind of
    failure and the status are inside the text. *)
Lemma one_error_class :
  let run net := (perform Samples.no_repr net GetStatus (Samples.fresh None)).1 in
  run Samples.refused
  = Raise (OmniTAKError "HTTP request failed: Cannot connect to host") ∧
  run (Samples.answers 404 "{...}" (Dict {[ "message" := Str "Not found" ]}))
  = Raise (OmniTAKError "API error 404: Not found") ∧
  run (λ _, Response 200 "<html>" (JSONDecodeError "Expecting value"))
  = Raise (OmniTAKError "Invalid JSON response: Expecting value").
Proof. by vm_compute. Qed.

(** C9 at a response of status 200 whose body is the JSON list [[]]:
    [health_check] raises. *)
Theorem health_check_raises :
  (health_check Samples.no_repr (Samples.answers 200 "[]" (List_ [])) (Samples.fresh None)).1
  = Raise AttributeError.
Proof. by vm_compute. Qed.

(** C10 as stated fails: with [warnings] set to [true] in an answer
    that has both keys, the call raises. *)
Lemma warnings_true_raises :
  (send_cot_message Samples.no_repr
     (Samples.answers 200 "{...}" (Samples.sent_body (Bool true)))
     "<event/>" None true 5 (Samples.fresh None)).1
  = Raise TypeError ∧
  (send_cot_message Samples.no_repr
     (Samples.answers 200 "{...}" (Samples.sent_body (List_ [Str "stale target"])))
     "<event/>" None true 5 (Samples.fresh None)).1
  = Return (Samples.sent_body (List_ [Str "stale target"])).
Proof. by vm_compute. Qed.

(** C8 as stated fails: a login that the server answers with an empty
    token returns, and the requests that follow carry no
    [Authorization]; the key goes out instead. *)
Lemma empty_token_is_not_sent :
  let s := Samples.fresh (Some "key-1") in
  let r := login Samples.no_repr (Samples.answers 200 "{...}" (Samples.token_body EmptyString))
             "user" "secret" s in
  let h := headers (request_for Samples.no_repr (self r.2) GetStatus) in
  r.1 = Return (Str EmptyString) ∧
  h !! "Authorization" = None ∧
  h !! "X-API-Key" = Some "key-1".
Proof. by vm_compute. Qed.

Lemma bearer_token_witness :
  let s := Samples.fresh (Some "key-1") in
  let net := Samples.answers 200 "{...}" (Samples.token_body "abc") in
  let r := login Samples.no_repr net "user" "secret" s in
  (200 < 400)%Z ∧
  r.1 = Return (Str "abc") ∧
  _token (self r.2) = Str "abc" ∧
  headers (request_for Samples.no_repr (self r.2) GetStatus)
  = <[ "Authorization" := "Bearer abc" ]> {[ "Content-Type" := "application/json" ]}.
Proof.
  intros s net r.
  destruct (bearer_token Samples.no_repr net "user" "secret" s 200 "{...}"
              {[ "token" := Str "abc" ]} (Str "abc") eq_refl ltac:(lia) eq_refl)
    as (Hret & Htok & _ & Hhdr & _).
  split; [lia|]. split; [exact Hret|]. split; [exact Htok|]. exact (Hhdr GetStatus).
Defined.

Lemma send_result_witness :
  let net := Samples.answers 200 "{...}" (Dict {[ "sent_to_count" := Num (Int 1) ]}) in
  (200 < 400)%Z ∧
  (send_cot_message Samples.no_repr net "<event/>" None true 5 (Samples.fresh None)).1
  = Raise (KeyError "message_id").
Proof.
  intros net. split; [lia|].
  exact (send_result Samples.no_repr net "<event/>" None true 5 (Samples.fresh None)
           200 "{...}" {[ "sent_to_count" := Num (Int 1) ]} eq_refl ltac:(lia)).
Defined.

End Session.

(** ** The uids of a route and the table of marker types *)

Module EncoderFacts.
Import Py Xml Geometry Documents Text Rendering Encoder Notions.

Lemma append_nil_r (s : string) : s +:+ EmptyString = s.
Proof.
  induction s as [|a s IH]; [done|].
  change (String a (s +:+ EmptyString) = String a s). by rewrite IH.
Qed.

Lemma wp_uid_inj uid : Inj (=) (=) (wp_uid uid).
Proof.
  intros i j H. unfold wp_uid in H.
  apply (inj (String.app uid)) in H. apply (inj (String.app "-wp-")) in H.
  by apply (inj pretty) in H.
Qed.

Lemma wp_uid_longer uid i : wp_uid uid i ≠ uid.
Proof.
  unfold wp_uid. intros H. rewrite <- (append_nil_r uid) in H at 2.
  apply (inj (String.app uid)) in H. discriminate H.
Qed.

Lemma types_lookup kind :
  default "a-f-G-E-S" (types !! kind) = default "a-f-G-E-S" (assoc kind marker_table).
Proof.
  unfold types, marker_table. cbn [assoc].
  repeat (match goal with
          | |- context [String.eqb ?k kind] => destruct (String.eqb_spec k kind) as [<-|?]
          end; [reflexivity|]).
  by rewrite !lookup_insert_ne, lookup_singleton_ne by done.
Qed.

End EncoderFacts.

(** ** Reading back what was rendered *)

Module Reading.
Import Py Xml Geometry Documents Wire Text.

Lemma scan_app r a b : scan r (a +:+ b) = scan (scan r a) b.
Proof.
  revert r. induction a as [|c a IH]; intros r; [done|].
  change (String c a +:+ b) with (String c (a +:+ b)). cbn [scan]. apply IH.
Qed.

Lemma push_app acc c s : push acc c +:+ s = acc +:+ String c s.
Proof. unfold push. by rewrite append_assoc. Qed.

Lemma all_chars_app P a b :
  all_chars P (a +:+ b) = all_chars P a && all_chars P b.
Proof.
  induction a as [|c a IH]; [done|].
  change (String c a +:+ b) with (String c (a +:+ b)). cbn [all_chars].
  by rewrite IH, andb_assoc.
Qed.

Lemma all_chars_impl (P Q : ascii → bool) s :
  (∀ c, P c = true → Q c = true) → all_chars P s = true → all_chars Q s = true.
Proof.
  intros HPQ. induction s as [|c s IH]; [done|]. cbn [all_chars].
  intros [Hc Hs]%andb_prop. by rewrite (HPQ c Hc), IH.
Qed.

Lemma space_data c : is_space c = true → data_char c = true.
Proof. destruct c as [[] [] [] [] [] [] [] []]; try discriminate; reflexivity. Qed.

Lemma blank_data s : blank s = true → all_chars data_char s = true.
Proof. apply all_chars_impl, space_data. Qed.

(** A character of a name is none of the characters that end one. *)
Lemma name_char_plain c :
  name_char c = true →
  is_space c = false ∧ Ascii.eqb c "/" = false ∧ Ascii.eqb c ">" = false ∧
  Ascii.eqb c "?" = false ∧ Ascii.eqb c "=" = false.
Proof. destruct c as [[] [] [] [] [] [] [] []]; try discriminate; by intros _. Qed.

Lemma data_char_plain c :
  data_char c = true → Ascii.eqb c "<" = false.
Proof. destruct c as [[] [] [] [] [] [] [] []]; try discriminate; by intros _. Qed.

Lemma value_char_plain c : value_char c = true → Ascii.eqb c "034" = false.
Proof. destruct c as [[] [] [] [] [] [] [] []]; try discriminate; by intros _. Qed.

Lemma scan_closing_gen st out acc s :
  all_chars name_char s = true →
  scan (Reader (Closing acc) st out) s = Reader (Closing (acc +:+ s)) st out.
Proof.
  revert acc. induction s as [|c s IH]; intros acc.
  - intros _. by rewrite EncoderFacts.append_nil_r.
  - cbn [all_chars]. intros [Hc Hs]%andb_prop.
    cbn [scan step at_]. rewrite Hc. unfold go. cbn [stack seen].
    by rewrite IH, push_app.
Qed.

Section Runs.
Variables (st : list string) (out : list node).

Lemma scan_content f acc s :
  all_chars data_char s = true →
  scan (Reader (Content f acc) st out) s = Reader (Content f (acc +:+ s)) st out.
Proof.
  revert acc. induction s as [|c s IH]; intros acc.
  - intros _. by rewrite EncoderFacts.append_nil_r.
  - cbn [all_chars]. intros [Hc Hs]%andb_prop.
    cbn [scan step at_]. rewrite (data_char_plain c Hc), Hc. unfold go. cbn [stack seen].
    by rewrite IH, push_app.
Qed.

Lemma scan_name acc s :
  all_chars name_char s = true →
  scan (Reader (Name acc) st out) s = Reader (Name (acc +:+ s)) st out.
Proof.
  revert acc. induction s as [|c s IH]; intros acc.
  - intros _. by rewrite EncoderFacts.append_nil_r.
  - cbn [all_chars]. intros [Hc Hs]%andb_prop.
    cbn [scan step at_]. rewrite Hc. unfold go. cbn [stack seen].
    by rewrite IH, push_app.
Qed.

Lemma scan_key name attrs acc s :
  all_chars name_char s = true →
  scan (Reader (Key name attrs acc) st out) s = Reader (Key name attrs (acc +:+ s)) st out.
Proof.
  revert acc. induction s as [|c s IH]; intros acc.
  - intros _. by rewrite EncoderFacts.append_nil_r.
  - cbn [all_chars]. intros [Hc Hs]%andb_prop.
    cbn [scan step at_]. rewrite Hc. unfold go. cbn [stack seen].
    by rewrite IH, push_app.
Qed.

Lemma scan_value name attrs key acc s :
  all_chars value_char s = true →
  scan (Reader (Value name attrs key acc) st out) s
  = Reader (Value name attrs key (acc +:+ s)) st out.
Proof.
  revert acc. induction s as [|c s IH]; intros acc.
  - intros _. by rewrite EncoderFacts.append_nil_r.
  - cbn [all_chars]. intros [Hc Hs]%andb_prop.
    cbn [scan step at_]. rewrite (value_char_plain c Hc), Hc. unfold go. cbn [stack seen].
    by rewrite IH, push_app.
Qed.

(** The steps on the characters the templates write between names,
    values and data. *)
Lemma step_lt f acc :
  scan (Reader (Content f acc) st out) "<" = Reader (Open f acc) st out.
Proof. reflexivity. Qed.

Lemma step_equals name attrs key :
  scan (Reader (Key name attrs key) st out) "="
  = if has_key key attrs then Reader Bad st out else Reader (Equals name attrs key) st out.
Proof. cbn. by destruct (has_key key attrs). Qed.

Lemma step_quote name attrs key :
  scan (Reader (Equals name attrs key) st out) dq
  = Reader (Value name attrs key EmptyString) st out.
Proof. reflexivity. Qed.

Lemma step_unquote name attrs key acc :
  scan (Reader (Value name attrs key acc) st out) dq
  = Reader (Quoted name (attrs ++ [(key, acc)])) st out.
Proof. reflexivity. Qed.

Lemma step_blank name attrs :
  scan (Reader (Quoted name attrs) st out) " " = Reader (Attrs name attrs) st out.
Proof. reflexivity. Qed.

Lemma step_blank_name name :
  scan (Reader (Name name) st out) " " = Reader (Attrs name []) st out.
Proof. reflexivity. Qed.

Lemma step_empty name attrs :
  scan (Reader (Quoted name attrs) st out) "/>"
  = Reader (Content false EmptyString) st (out ++ [Element st name attrs]).
Proof. reflexivity. Qed.

Lemma step_empty_name name :
  scan (Reader (Name name) st out) "/>"
  = Reader (Content false EmptyString) st (out ++ [Element st name []]).
Proof. reflexivity. Qed.

Lemma step_gt name attrs :
  scan (Reader (Quoted name attrs) st out) ">"
  = Reader (Content true EmptyString) (name :: st) (out ++ [Element st name attrs]).
Proof. reflexivity. Qed.

Lemma step_gt_name name :
  scan (Reader (Name name) st out) ">"
  = Reader (Content true EmptyString) (name :: st) (out ++ [Element st name []]).
Proof. reflexivity. Qed.

(** The first character of a name. *)
Lemma scan_key_start name attrs k :
  is_name k →
  scan (Reader (Attrs name attrs) st out) k = Reader (Key name attrs k) st out.
Proof.
  intros [Hne Hk]. destruct k as [|c k]; [done|]. cbn [all_chars] in Hk.
  apply andb_prop in Hk as [Hc Hk].
  destruct (name_char_plain c Hc) as (H1 & H2 & H3 & _).
  cbn [scan step at_]. rewrite H1, H2, H3, Hc. unfold go. cbn [stack seen].
  by rewrite scan_key.
Qed.

Lemma scan_name_start f acc k :
  is_name k → blank acc = true → st ≠ [] ∨ out = [] →
  scan (Reader (Open f acc) st out) k = Reader (Name k) st out.
Proof.
  intros [Hne Hk] Hacc Hroot. destruct k as [|c k]; [done|]. cbn [all_chars] in Hk.
  apply andb_prop in Hk as [Hc Hk].
  destruct (name_char_plain c Hc) as (_ & H2 & _ & H4 & _).
  cbn [scan step at_]. rewrite H2, Hacc, Hc. cbn [negb stack seen].
  assert (∀ r, match st, out with
               | [], _ :: _ => go Bad r
               | [], [] => if Ascii.eqb c "?" then go Decl r
                           else go (Name (push EmptyString c)) r
               | _ :: _, _ => go (Name (push EmptyString c)) r
               end = go (Name (push EmptyString c)) r) as ->.
  { intros r. destruct Hroot as [Hst| ->]; [by destruct st|].
    destruct st; [by rewrite H4|done]. }
  unfold go. cbn [stack seen]. by rewrite scan_name.
Qed.

Lemma scan_closing_tag acc name rest :
  is_name name → blank acc = true →
  scan (Reader (Open false acc) (name :: rest) out) ("/" +:+ name +:+ ">")
  = Reader (Content false EmptyString) rest out.
Proof.
  intros [Hne Hk] Hacc.
  change ("/" +:+ name +:+ ">") with (String "/" (name +:+ ">")).
  cbn [scan step at_]. change (Ascii.eqb "/" "/") with true. cbn iota.
  rewrite Hacc. unfold go. cbn [stack seen].
  rewrite scan_app. rewrite (scan_closing_gen (name :: rest)) by done.
  cbn [scan step at_].
  assert (name_char ">" = false) as -> by reflexivity.
  change (Ascii.eqb ">" ">") with true. cbn iota.
  unfold closed. cbn [stack seen]. by rewrite String.eqb_refl.
Qed.

(** One attribute, from among the attributes. *)
Lemma scan_attr name attrs a :
  is_name a.1 → is_value a.2 → has_key a.1 attrs = false →
  scan (Reader (Attrs name attrs) st out) (a.1 +:+ "=" +:+ q a.2)
  = Reader (Quoted name (attrs ++ [a])) st out.
Proof.
  destruct a as [k v]. cbn [fst snd]. intros Hk Hv Hnew. unfold q.
  rewrite !scan_app, scan_key_start, step_equals, Hnew, step_quote by done.
  by rewrite scan_value, step_unquote.
Qed.

Lemma scan_attrs name seen_ attrs :
  attrs_ok seen_ attrs →
  scan (Reader (Quoted name seen_) st out) (render_attrs attrs)
  = Reader (Quoted name (seen_ ++ attrs)) st out.
Proof.
  revert seen_. induction attrs as [|a attrs IH]; intros seen_.
  - intros _. by rewrite app_nil_r.
  - cbn [attrs_ok]. intros (Hk & Hv & Hnew & Hrest).
    cbn [render_attrs foldr]. fold (render_attrs attrs). unfold render_attr.
    rewrite scan_app, scan_app, step_blank.
    rewrite (scan_attr name seen_ a) by done.
    rewrite IH by done. by rewrite <- app_assoc.
Qed.

(** A tag from its [<] to the end of its attributes. *)
Lemma scan_tag f acc tag attrs :
  is_name tag → attrs_ok [] attrs → blank acc = true → st ≠ [] ∨ out = [] →
  scan (Reader (Content f acc) st out) ("<" +:+ tag +:+ render_attrs attrs)
  = Reader (if attrs is [] then Name tag else Quoted tag attrs) st out.
Proof.
  intros Htag Hattrs Hacc Hroot.
  rewrite !scan_app, step_lt, scan_name_start by done.
  destruct attrs as [|a attrs]; [done|].
  cbn [attrs_ok] in Hattrs. destruct Hattrs as (Hk & Hv & Hnew & Hrest).
  cbn [render_attrs foldr]. fold (render_attrs attrs). unfold render_attr.
  rewrite scan_app, scan_app, step_blank_name.
  rewrite (scan_attr tag [] a) by done.
  by rewrite scan_attrs.
Qed.

Lemma scan_tag' f acc tag attrs :
  is_name tag → attrs_ok [] attrs → blank acc = true → st ≠ [] ∨ out = [] →
  scan (scan (scan (Reader (Content f acc) st out) "<") tag) (render_attrs attrs)
  = Reader (if attrs is [] then Name tag else Quoted tag attrs) st out.
Proof.
  intros Htag Hattrs Hacc Hroot.
  pose proof (scan_tag f acc tag attrs Htag Hattrs Hacc Hroot) as H.
  by rewrite !scan_app in H.
Qed.

End Runs.

(** The end of an element that holds elements, and of one that holds
    character data. *)
Lemma step_slash acc st out :
  blank acc = true →
  scan (Reader (Open false acc) st out) "/" = Reader (Closing EmptyString) st out.
Proof.
  intros Hacc. change (scan ?r "/") with (step r "/"%char). unfold step. cbn [at_].
  change (Ascii.eqb "/" "/") with true. cbn iota. by rewrite Hacc.
Qed.

Lemma step_slash_text acc st out :
  scan (Reader (Open true acc) st out) "/"
  = Reader (Closing EmptyString) st (out ++ [Text st acc]).
Proof. reflexivity. Qed.

Lemma step_closed name st out :
  scan (Reader (Closing name) (name :: st) out) ">" = Reader (Content false EmptyString) st out.
Proof.
  change (scan ?r ">") with (step r ">"%char). unfold step. cbn [at_].
  change (name_char ">") with false. change (Ascii.eqb ">" ">") with true. cbn iota.
  unfold closed. cbn [stack seen]. by rewrite String.eqb_refl.
Qed.

Lemma scan_close acc name rest out :
  is_name name → blank acc = true →
  scan (scan (scan (Reader (Content false acc) (name :: rest) out) "</") name) ">"
  = Reader (Content false EmptyString) rest out.
Proof.
  intros [Hne Hk] Hacc. change "</" with ("<" +:+ "/").
  rewrite scan_app, step_lt, step_slash, scan_closing_gen by done.
  apply step_closed.
Qed.

Lemma scan_close_text acc name rest out :
  is_name name →
  scan (scan (scan (Reader (Content true acc) (name :: rest) out) "</") name) ">"
  = Reader (Content false EmptyString) rest (out ++ [Text (name :: rest) acc]).
Proof.
  intros [Hne Hk]. change "</" with ("<" +:+ "/").
  rewrite scan_app, step_lt, step_slash_text, scan_closing_gen by done.
  apply step_closed.
Qed.

Lemma scan_join r x (l : list string) :
  scan r (join nl (x :: l)) = foldl (λ r y, scan (scan r nl) y) (scan r x) l.
Proof.
  revert r x. induction l as [|y l IH]; intros r x; [done|].
  rewrite join_cons, !scan_app, IH. reflexivity.
Qed.

(** Induction on a tree, the children of an element included. *)
Lemma xml_kids_ind (P : xml → Prop) :
  (∀ tag attrs kids, Forall P kids → P (Elem tag attrs kids)) →
  (∀ tag text, P (TextElem tag text)) →
  (∀ text, P (Raw text)) →
  ∀ x, P x.
Proof.
  intros HE HT HR. fix IH 1. intros [tag attrs kids|tag text|text]; [|apply HT|apply HR].
  apply HE. induction kids as [|k kids IHkids]; constructor; [apply IH|apply IHkids].
Qed.

Lemma wf_kids (kids : list xml) :
  foldr (λ k rest, wf k ∧ rest) True kids ↔ Forall wf kids.
Proof.
  induction kids as [|k kids IH]; cbn [foldr]; [by split|].
  rewrite Forall_cons, IH. done.
Qed.

Lemma read_kids st ind (kids : list xml) :
  Forall reads kids → st ≠ [] → blank ind = true →
  ∀ out acc, blank acc = true →
    ∃ acc', blank acc' = true ∧
            foldl (λ r y, scan (scan r nl) y) (Reader (Content false acc) st out)
              (List.map (render_at ind) kids)
            = Reader (Content false acc') st (out ++ List.flat_map (view st) kids).
Proof.
  intros Hkids Hst Hind. induction Hkids as [|k kids Hk _ IH]; intros out acc Hacc.
  - exists acc. by rewrite app_nil_r.
  - cbn [List.map foldl List.flat_map].
    rewrite scan_content by done.
    assert (blank (acc +:+ nl) = true) as Hacc'.
    { unfold blank in *. by rewrite all_chars_app, Hacc. }
    specialize (Hk ind st out false (acc +:+ nl) Hind Hacc' (or_introl Hst)).
    destruct k as [tag attrs ks|tag text|text].
    + rewrite Hk. destruct (IH (out ++ view st (Elem tag attrs ks)) EmptyString eq_refl)
        as (acc' & Hb & ->).
      exists acc'. by rewrite <- app_assoc.
    + rewrite Hk. destruct (IH (out ++ view st (TextElem tag text)) EmptyString eq_refl)
        as (acc' & Hb & ->).
      exists acc'. by rewrite <- app_assoc.
    + destruct Hk as (acc1 & Hb1 & ->). destruct (IH out acc1 Hb1) as (acc' & Hb & ->).
      by exists acc'.
Qed.

(** The reader on the rendering of a tree, wherever the tree stands:
    what is blank stays character data, an element is read to its
    end and leaves what [view] lists. *)
Lemma read_node x : wf x → reads x.
Proof.
  induction x as [tag attrs kids IH|tag text|text] using xml_kids_ind.
  - cbn [wf]. intros (Htag & Hattrs & Hfirst & Hkids%wf_kids) ind st out f acc Hind Hacc Hroot.
    assert (blank (acc +:+ ind) = true) as Hai.
    { unfold blank in *. by rewrite all_chars_app, Hacc, Hind. }
    assert (Forall reads kids) as Hreads.
    { clear Hfirst. induction IH as [|k kids Hk _ IHk]; [done|].
      apply Forall_cons in Hkids as [??]. constructor; auto. }
    destruct kids as [|k kids].
    + cbn [render_at view List.flat_map]. rewrite !scan_app.
      rewrite scan_content by (by apply blank_data).
      rewrite scan_tag' by done.
      destruct attrs; [by rewrite step_empty_name|by rewrite step_empty].
    + rewrite Rendering.render_at_elem. rewrite !scan_app.
      rewrite scan_content by (by apply blank_data).
      rewrite scan_tag' by done.
      assert (scan (Reader (if attrs is [] then Name tag else Quoted tag attrs) st out) ">"
              = Reader (Content true EmptyString) (tag :: st) (out ++ [Element st tag attrs]))
        as -> by (by destruct attrs).
      rewrite scan_content by done.
      change (List.map ?g (k :: kids)) with (g k :: List.map g kids).
      rewrite scan_join.
      apply Forall_cons in Hreads as [Hk Hks].
      assert (blank ("  " +:+ ind) = true) as Hind' by exact Hind.
      specialize (Hk ("  " +:+ ind) (tag :: st) (out ++ [Element st tag attrs]) true
                    (EmptyString +:+ nl) Hind' eq_refl (or_introl (λ H, nil_cons (eq_sym H)))).
      destruct k as [ktag kattrs kkids|ktag ktext|ktext]; [| |done].
      all: rewrite Hk.
      all: match goal with
           | |- context [foldl _ (Reader _ _ ?o) _] =>
               destruct (read_kids (tag :: st) ("  " +:+ ind) kids Hks
                           (λ H, nil_cons (eq_sym H)) Hind' o EmptyString eq_refl)
                 as (acc' & Hb & ->)
           end.
      all: rewrite !scan_content by (by apply blank_data).
      all: rewrite scan_close;
        [ |done|unfold blank in *; by rewrite !all_chars_app, Hb, Hind].
      all: cbn [view List.flat_map]; by rewrite <- !app_assoc.
  - cbn [wf]. intros [Htag Htext] ind st out f acc Hind Hacc Hroot.
    assert (blank (acc +:+ ind) = true) as Hai.
    { unfold blank in *. by rewrite all_chars_app, Hacc, Hind. }
    cbn [render_at view]. rewrite !scan_app.
    rewrite scan_content by (by apply blank_data).
    rewrite step_lt, scan_name_start, step_gt_name by done.
    rewrite scan_content by done.
    rewrite scan_close_text by done. by rewrite <- app_assoc.
  - cbn [wf]. intros Htext ind st out f acc Hind Hacc Hroot.
    cbn [render_at]. exists (acc +:+ ind +:+ text).
    split; [unfold blank in *; by rewrite !all_chars_app, Hacc, Hind, Htext|].
    rewrite scan_content; [done|].
    apply blank_data. unfold blank in *. by rewrite all_chars_app, Hind, Htext.
Qed.

(** A rendered tree read from the start of the text to its end. *)
Lemma read_render tag attrs kids :
  wf (Elem tag attrs kids) →
  read (render (Elem tag attrs kids)) = Some (view [] (Elem tag attrs kids)).
Proof.
  intros Hwf. unfold read, render.
  assert (scan start (prolog +:+ nl) = Reader (Content false nl) [] []) as Hp
    by reflexivity.
  rewrite <- append_assoc, scan_app, Hp.
  pose proof (read_node _ Hwf EmptyString [] [] false nl eq_refl eq_refl
                (or_intror eq_refl)) as H.
  cbn beta iota in H. rewrite H. reflexivity.
Qed.

(** *** The documents of the builder *)

(** Numbers are printed with digits. *)
Lemma pretty_N_go_chars (P : ascii → bool) x s :
  (∀ d, P (pretty_N_char d) = true) →
  all_chars P s = true → all_chars P (pretty_N_go x s) = true.
Proof.
  intros HP. revert s. induction (N.lt_wf_0 x) as [x _ IH]; intros s Hs.
  assert (x = 0 ∨ 0 < x)%N as [->|Hx] by lia; [by rewrite pretty_N_go_0|].
  rewrite pretty_N_go_step by done. apply IH; [by apply N.div_lt|].
  cbn [all_chars]. by rewrite HP, Hs.
Qed.

Lemma digit_value d : value_char (pretty_N_char d) = true.
Proof. unfold pretty_N_char. by repeat case_match. Qed.

Lemma digit_data d : data_char (pretty_N_char d) = true.
Proof. unfold pretty_N_char. by repeat case_match. Qed.

Lemma pretty_N_go_value x s : is_value s → is_value (pretty_N_go x s).
Proof. apply pretty_N_go_chars, digit_value. Qed.

Lemma pretty_nat_value (i : nat) : is_value (pretty i).
Proof.
  unfold pretty, pretty_nat, pretty, pretty_N. case_decide; [done|].
  by apply pretty_N_go_value.
Qed.

Lemma is_value_app a b : is_value a → is_value b → is_value (a +:+ b).
Proof. unfold is_value. intros Ha Hb. by rewrite all_chars_app, Ha, Hb. Qed.

Lemma is_data_app a b : is_data a → is_data b → is_data (a +:+ b).
Proof. unfold is_data. intros Ha Hb. by rewrite all_chars_app, Ha, Hb. Qed.

Lemma wp_uid_value uid i : is_value uid → is_value (wp_uid uid i).
Proof.
  intros Hu. unfold wp_uid. apply is_value_app; [done|].
  apply is_value_app; [done|apply pretty_nat_value].
Qed.

Lemma palette_value_ok fallback name :
  is_value fallback → is_value (default fallback (colors !! name)).
Proof.
  intros Hf. rewrite Encoder.palette_lookup. unfold Documents.palette_value.
  by repeat case_bool_decide.
Qed.

Lemma marker_type_ok kind : is_value (default "a-f-G-E-S" (types !! kind)).
Proof.
  rewrite EncoderFacts.types_lookup. unfold Notions.marker_table. cbn [assoc].
  by repeat (destruct (String.eqb _ kind)).
Qed.

Lemma named_app name l1 l2 : named name (l1 ++ l2) = (named name l1 ++ named name l2)%list.
Proof. apply omap_app. Qed.

Lemma data_app name l1 l2 : data name (l1 ++ l2) = (data name l1 ++ data name l2)%list.
Proof. apply omap_app. Qed.

Lemma named_element name p t a l :
  named name (Element p t a :: l)
  = ((if String.eqb t name then [(p, a)] else []) ++ named name l)%list.
Proof. unfold named. cbn [omap list_omap]. by destruct (String.eqb t name). Qed.

Lemma named_text name p s l : named name (Text p s :: l) = named name l.
Proof. done. Qed.

Lemma data_element name p t a l : data name (Element p t a :: l) = data name l.
Proof. done. Qed.

Lemma data_text name t p s l :
  data name (Text (t :: p) s :: l)
  = ((if String.eqb t name then [(p, s)] else []) ++ data name l)%list.
Proof. unfold data. cbn [omap list_omap]. by destruct (String.eqb t name). Qed.

(** Elements without children, one per item of a list. *)
Lemma view_leaves {A} st tag (attrs : A → list (string * string)) (l : list A) :
  List.flat_map (view st) ((λ a, Elem tag (attrs a) []) <$> l)
  = (λ a, Element st tag (attrs a)) <$> l.
Proof. induction l as [|a l IH]; [done|]. cbn. by f_equal. Qed.

Lemma view_leaves_imap {A} st tag (attrs : nat → list (string * string)) (l : list A) :
  List.flat_map (view st) (imap (λ i _, Elem tag (attrs i) []) l)
  = imap (λ i _, Element st tag (attrs i)) l.
Proof.
  revert attrs. induction l as [|a l IH]; intros attrs; [done|].
  cbn [imap List.flat_map view app]. f_equal. apply (IH (attrs ∘ S)).
Qed.

Lemma named_leaves {A} name st tag (attrs : A → list (string * string)) (l : list A) :
  named name ((λ a, Element st tag (attrs a)) <$> l)
  = if String.eqb tag name then (λ a, (st, attrs a)) <$> l else [].
Proof.
  induction l as [|a l IH]; [by destruct (String.eqb tag name)|].
  rewrite fmap_cons. unfold named in *. cbn [omap list_omap]. rewrite IH.
  by destruct (String.eqb tag name).
Qed.

Lemma named_leaves_imap {A} name st tag (attrs : nat → list (string * string)) (l : list A) :
  named name (imap (λ i _, Element st tag (attrs i)) l)
  = if String.eqb tag name then imap (λ i _, (st, attrs i)) l else [].
Proof.
  destruct (String.eqb tag name) eqn:E; revert attrs;
    induction l as [|a l IH]; intros attrs; try done.
  - cbn [imap]. unfold named. cbn [omap list_omap]. rewrite E. f_equal.
    apply (IH (attrs ∘ S)).
  - cbn [imap]. unfold named. cbn [omap list_omap]. rewrite E. apply (IH (attrs ∘ S)).
Qed.

Lemma data_leaves {A} name st tag (attrs : A → list (string * string)) (l : list A) :
  data name ((λ a, Element st tag (attrs a)) <$> l) = [].
Proof. induction l as [|a l IH]; [done|]. by rewrite fmap_cons. Qed.

Lemma data_leaves_imap {A} name st tag (attrs : nat → list (string * string)) (l : list A) :
  data name (imap (λ i _, Element st tag (attrs i)) l) = [].
Proof.
  revert attrs. induction l as [|a l IH]; intros attrs; [done|].
  cbn [imap]. unfold data in *. cbn [omap list_omap]. apply (IH (attrs ∘ S)).
Qed.

Lemma Forall_imap_2 {A B} (P : B → Prop) (f : nat → A → B) (l : list A) :
  (∀ i a, l !! i = Some a → P (f i a)) → Forall P (imap f l).
Proof.
  intros H. apply Forall_forall. intros b (i & a & -> & Ha)%elem_of_lookup_imap. eauto.
Qed.

Lemma wf_elem tag attrs kids :
  is_name tag → attrs_ok [] attrs →
  (if kids is k :: _ then is_raw k = false else True) →
  Forall wf kids →
  wf (Elem tag attrs kids).
Proof. intros. cbn [wf]. by rewrite wf_kids. Qed.

Lemma wf_leaf tag attrs : is_name tag → attrs_ok [] attrs → wf (Elem tag attrs []).
Proof. intros. by apply wf_elem. Qed.

Section Builder.
Variable isoformat : datetime → string.
Hypothesis Hiso : ∀ t, is_data (isoformat t).

Lemma stamp_ok t : is_data (isoformat t +:+ "Z").
Proof. by apply is_data_app. Qed.

Ltac well :=
  cbn [wf attrs_ok foldr app fst snd is_raw List.app];
  repeat split;
  first [ done | reflexivity | apply stamp_ok | by apply palette_value_ok
        | apply marker_type_ok | by apply wp_uid_value | idtac ].

Lemma point_wf p err : plain_position p → is_value err → wf (point_elem p err).
Proof. intros (Hla & Hlo & Hh) He. unfold point_elem. well. Qed.

Lemma stamps_wf now stale : Forall wf (stamp_elems isoformat now stale).
Proof. unfold stamp_elems. repeat constructor; well. Qed.

Lemma event_wf uid type (head : xml) (kids : list xml) :
  is_value uid → is_value type → is_raw head = false → Forall wf (head :: kids) →
  wf (event_doc uid type (head :: kids)).
Proof. intros Hu Ht Hh Hk. unfold event_doc. apply wf_elem; [well|well|done|done]. Qed.

Lemma circle_wf now u circle callsign color uid :
  is_value (str_or uid ("circle-" +:+ u)) → is_value callsign →
  plain_position (center circle) → is_value (str_number (radius_meters circle)) →
  wf (circle_doc isoformat now u circle callsign color uid).
Proof.
  intros Hu Hc Hp Hr. unfold circle_doc. apply event_wf; [done|done|done|].
  apply Forall_cons_2; [by apply point_wf|]. apply Forall_app_2; [apply stamps_wf|].
  apply Forall_singleton.
  unfold contact_elem, value_elem, ellipse_elem. well.
Qed.

Lemma marker_wf now u position callsign kind remarks uid :
  is_value (str_or uid ("marker-" +:+ u)) → is_value callsign →
  plain_position position → is_data (default EmptyString remarks) →
  wf (marker_doc isoformat now u position callsign kind remarks uid).
Proof.
  intros Hu Hc Hp Hr. unfold marker_doc.
  apply event_wf; [done|apply marker_type_ok|done|].
  apply Forall_cons_2; [by apply point_wf|]. apply Forall_app_2; [apply stamps_wf|].
  apply Forall_singleton.
  unfold contact_elem, value_elem, remarks_elem.
  destruct remarks as [r|]; [case_bool_decide|]; well.
Qed.

Lemma waypoint_wf now uid idx wp :
  is_value uid → plain_position wp.1 → is_value wp.2 →
  wf (waypoint_doc isoformat now uid idx wp).
Proof.
  intros Hu Hp Hn. unfold waypoint_doc.
  apply event_wf; [by apply wp_uid_value|done|done|].
  apply Forall_cons_2; [by apply point_wf|]. apply Forall_app_2; [apply stamps_wf|].
  apply Forall_singleton.
  unfold contact_elem, value_elem. well.
Qed.

Lemma polygon_wf now u polygon callsign color filled uid anchor :
  is_value (str_or uid ("polygon-" +:+ u)) → is_value callsign →
  plain_position anchor → Forall plain_position (vertices polygon) →
  wf (polygon_doc isoformat now u polygon callsign color filled uid anchor).
Proof.
  intros Hu Hc Hp Hvs. unfold polygon_doc.
  apply event_wf; [done|done|done|].
  apply Forall_cons_2; [by apply point_wf|]. apply Forall_app_2; [apply stamps_wf|].
  apply Forall_singleton. apply wf_elem; [well|well|done|].
  unfold contact_elem, value_elem.
  repeat (apply Forall_cons_2 || apply Forall_nil_2); try (by well).
  - apply wf_elem; [well|well|done|]. apply Forall_singleton.
    apply wf_elem; [well|well|by destruct (vertices polygon)|].
    apply Forall_fmap. eapply Forall_impl; [exact Hvs|].
    intros v (Hla & Hlo & Hh). unfold vertex_elem. cbn [compose]. well.
  - destruct filled; well.
Qed.

Lemma route_wf now u route name color uid anchor :
  is_value (str_or uid ("route-" +:+ u)) → is_value name →
  plain_position anchor.1 →
  wf (route_doc isoformat now u route name color uid anchor).
Proof.
  intros Hu Hc Hp. unfold route_doc.
  apply event_wf; [done|done|done|].
  apply Forall_cons_2; [by apply point_wf|]. apply Forall_app_2; [apply stamps_wf|].
  apply Forall_singleton. apply wf_elem; [well|well|done|].
  unfold contact_elem, value_elem.
  apply Forall_cons_2; [well|]. apply Forall_app_2.
  - apply Forall_imap_2. intros i wp _. unfold link_elem. well.
  - repeat (apply Forall_cons_2 || apply Forall_nil_2); well.
Qed.

Lemma circle_read now u circle callsign color uid :
  is_value (str_or uid ("circle-" +:+ u)) → is_value callsign →
  plain_position (center circle) → is_value (str_number (radius_meters circle)) →
  read (create_circle_event isoformat now u circle callsign color uid)
  = Some (view [] (circle_doc isoformat now u circle callsign color uid)).
Proof.
  intros Hu Hc Hp Hr. rewrite Rendering.circle_render.
  apply read_render. by apply circle_wf.
Qed.

Lemma marker_read now u position callsign kind remarks uid :
  is_value (str_or uid ("marker-" +:+ u)) → is_value callsign →
  plain_position position → is_data (default EmptyString remarks) →
  read (create_marker_event isoformat now u position callsign kind remarks uid)
  = Some (view [] (marker_doc isoformat now u position callsign kind remarks uid)).
Proof.
  intros Hu Hc Hp Hr. rewrite Rendering.marker_render.
  apply read_render. by apply marker_wf.
Qed.

Lemma polygon_read now u polygon callsign color filled uid :
  is_value (str_or uid ("polygon-" +:+ u)) → is_value callsign →
  Forall plain_position (vertices polygon) →
  match create_polygon_event isoformat now u polygon callsign color filled uid with
  | Return text =>
      ∃ anchor, vertices polygon !! 0 = Some anchor ∧
        read text
        = Some (view [] (polygon_doc isoformat now u polygon callsign color filled uid anchor))
  | Raise e => vertices polygon = [] ∧ e = IndexError
  end.
Proof.
  intros Hu Hc Hvs. rewrite Rendering.polygon_render.
  destruct (vertices polygon) as [|a vs] eqn:E; [done|].
  exists a. split; [done|]. apply read_render. apply polygon_wf; try done.
  - by apply Forall_cons in Hvs as [? _].
  - by rewrite E.
Qed.

Lemma route_read now u route name color uid :
  is_value (str_or uid ("route-" +:+ u)) → is_value name →
  Forall (λ wp, plain_position wp.1 ∧ is_value wp.2) (waypoints route) →
  match create_route_event isoformat now u route name color uid with
  | Return msgs =>
      ∃ anchor first_msg others,
        waypoints route !! 0 = Some anchor ∧
        msgs = first_msg :: others ∧
        read first_msg
        = Some (view [] (route_doc isoformat now u route name color uid anchor)) ∧
        length others = length (waypoints route) ∧
        ∀ i wp, waypoints route !! i = Some wp →
          ∃ m, others !! i = Some m ∧
               read m = Some (view [] (waypoint_doc isoformat now
                                         (str_or uid ("route-" +:+ u)) i wp))
  | Raise e => waypoints route = [] ∧ e = IndexError
  end.
Proof.
  intros Hu Hc Hwps. rewrite Rendering.route_render.
  destruct (waypoints route) as [|a wps] eqn:E; [done|].
  unfold route_docs. rewrite fmap_cons. eexists a, _, _.
  split; [done|]. split; [reflexivity|]. split; [|split].
  - apply read_render. apply route_wf; try done.
    by apply Forall_cons in Hwps as [[? _] _].
  - by rewrite length_fmap, length_imap, E.
  - intros i wp Hwp. rewrite E, list_lookup_fmap, list_lookup_imap, Hwp. cbn.
    eexists. split; [reflexivity|]. apply read_render.
    rewrite Forall_lookup in Hwps. destruct (Hwps i wp Hwp) as [Hp Hn].
    by apply waypoint_wf.
Qed.

End Builder.
End Reading.

(** ** What the builder writes, read from the text it returns

    The statements below are about the text a builder returns: what
    [Wire.elements] and [Wire.texts] find in it. The builder escapes
    nothing, so they hold for labels, names and uids that are values
    ([is_value]: no double quote, no [<], no [&], no control
    character) and for remarks that are character data ([is_data]: no
    [<], no [>], no [&], no control character but the tabulation and
    the line feed). Numbers and instants are printed by Python; that
    their text is of that kind is a hypothesis where the text is a
    parameter ([plain_position], [isoformat]). *)

Module Written.
Import Py Xml Geometry Documents Wire Text Reading Notions.

Ltac look :=
  unfold circle_doc, polygon_doc, route_doc, waypoint_doc, marker_doc, remarks_elem,
    event_doc, point_elem, stamp_elems, contact_elem, value_elem, ellipse_elem,
    vertex_elem, link_elem;
  cbn [view List.flat_map app];
  rewrite ?List.flat_map_app, ?app_nil_r;
  rewrite ?(view_leaves _ "vertex"), ?(view_leaves_imap _ "link");
  cbn [view List.flat_map app];
  repeat first
    [ rewrite named_app | rewrite data_app
    | rewrite named_element | rewrite named_text
    | rewrite data_element | rewrite data_text
    | rewrite named_leaves | rewrite named_leaves_imap
    | rewrite data_leaves | rewrite data_leaves_imap ];
  cbn [named data omap list_omap app String.eqb Ascii.eqb Bool.eqb];
  rewrite ?app_nil_r.

Lemma pretty_Z_data (z : Z) : is_data (pretty z).
Proof.
  assert (∀ p : positive, is_data (pretty p)) as Hp.
  { intros p. unfold pretty, pretty_positive, pretty, pretty_N. case_decide; [done|].
    by apply pretty_N_go_chars; [apply digit_data|]. }
  destruct z as [|p|p]; [done|apply Hp|]. by apply (is_data_app "-").
Qed.

Lemma iso_micros_ok t : is_data (Samples.iso_micros t).
Proof. apply pretty_Z_data. Qed.

Ltac clean :=
  first [ exact iso_micros_ok | done | reflexivity | by repeat split | by repeat constructor ].

Section Claims.
Variable isoformat : datetime → string.

(** C1, as the code has it. A route of N ≥ 2 waypoints whose name, uid
    and stops are written without markup is encoded as N+1 texts: that
    of the route, then one per stop in input order. Read back, the
    route document has exactly N links, all in its detail, the i-th
    pointing to [<route-id>-wp-<i>]; the (i+1)-th text is a document
    with that uid, named after the i-th stop. *)
Theorem route_documents now u r name color uid :
  let n := length (waypoints r) in
  let rid := str_or uid ("route-" +:+ u) in
  2 ≤ n →
  (∀ t, is_data (isoformat t)) →
  is_value rid → is_value name →
  Forall (λ wp, plain_position wp.1 ∧ is_value wp.2) (waypoints r) →
  ∃ route_msg stops,
    create_route_event isoformat now u r name color uid = Return (route_msg :: stops) ∧
    length (route_msg :: stops) = S n ∧
    Wire.elements "event" route_msg
    = Some [ ([], [ ("version", "2.0"); ("uid", rid);
                    ("type", "b-m-p-s-p-loc"); ("how", "h-g-i-g-o") ]) ] ∧
    Wire.elements "link" route_msg
    = Some (imap (λ i _, (["detail"; "event"],
                          [ ("relation", "c"); ("type", "b-m-p-s-p-loc");
                            ("uid", rid +:+ "-wp-" +:+ pretty i) ]))
              (waypoints r)) ∧
    ∀ i wp, waypoints r !! i = Some wp →
      ∃ m, stops !! i = Some m ∧
           Wire.elements "event" m
           = Some [ ([], [ ("version", "2.0"); ("uid", rid +:+ "-wp-" +:+ pretty i);
                           ("type", "b-m-p-s-p-loc"); ("how", "h-g-i-g-o") ]) ] ∧
           Wire.elements "contact" m
           = Some [ (["detail"; "event"], [ ("callsign", wp.2) ]) ].
Proof.
  intros n rid Hn Hiso Hrid Hname Hwps.
  pose proof (route_read isoformat Hiso now u r name color uid Hrid Hname Hwps) as H.
  destruct (create_route_event isoformat now u r name color uid) as [msgs|e];
    [|destruct H as [H _]; subst n; rewrite H in Hn; cbn in Hn; lia].
  destruct H as (a & m0 & others & Ha & -> & Hread & Hlen & Hothers).
  exists m0, others. split; [done|]. split; [cbn [length]; by rewrite Hlen|].
  unfold Wire.elements. rewrite Hread. cbn [fmap option_fmap option_map].
  split; [look; reflexivity|]. split; [look; reflexivity|].
  intros i wp Hwp. destruct (Hothers i wp Hwp) as (m & Hm & Hreadm).
  exists m. split; [done|]. rewrite Hreadm. cbn [fmap option_fmap option_map].
  split; look; reflexivity.
Qed.

(** C5, as the code has it. Read back from the text of a marker whose
    label, uid, numbers and remarks are written without markup, the
    time is the instant of issue and the stale time the instant 12
    hours (43 200 000 000 microseconds) later, whatever the kind; for a
    circle, a polygon, a route and each waypoint of the route it is
    the instant 24 hours (86 400 000 000 microseconds) later. *)
Theorem staleness now u uid :
  (∀ t, is_data (isoformat t)) →
  (∀ position callsign kind remarks,
     is_value (str_or uid ("marker-" +:+ u)) → is_value callsign →
     plain_position position → is_data (default EmptyString remarks) →
     let text := create_marker_event isoformat now u position callsign kind remarks uid in
     Wire.texts "time" text = Some [ (["event"], isoformat now +:+ "Z") ] ∧
     Wire.texts "stale" text
     = Some [ (["event"], isoformat (now + 43200000000)%Z +:+ "Z") ]) ∧
  (∀ circle callsign color,
     is_value (str_or uid ("circle-" +:+ u)) → is_value callsign →
     plain_position (center circle) → is_value (str_number (radius_meters circle)) →
     let text := create_circle_event isoformat now u circle callsign color uid in
     Wire.texts "time" text = Some [ (["event"], isoformat now +:+ "Z") ] ∧
     Wire.texts "stale" text
     = Some [ (["event"], isoformat (now + 86400000000)%Z +:+ "Z") ]) ∧
  (∀ polygon callsign color filled text,
     is_value (str_or uid ("polygon-" +:+ u)) → is_value callsign →
     Forall plain_position (vertices polygon) →
     create_polygon_event isoformat now u polygon callsign color filled uid = Return text →
     Wire.texts "time" text = Some [ (["event"], isoformat now +:+ "Z") ] ∧
     Wire.texts "stale" text
     = Some [ (["event"], isoformat (now + 86400000000)%Z +:+ "Z") ]) ∧
  (∀ route name color msgs,
     is_value (str_or uid ("route-" +:+ u)) → is_value name →
     Forall (λ wp, plain_position wp.1 ∧ is_value wp.2) (waypoints route) →
     create_route_event isoformat now u route name color uid = Return msgs →
     Forall (λ text,
               Wire.texts "time" text = Some [ (["event"], isoformat now +:+ "Z") ] ∧
               Wire.texts "stale" text
               = Some [ (["event"], isoformat (now + 86400000000)%Z +:+ "Z") ])
       msgs).
Proof.
  intros Hiso. split; [|split; [|split]].
  - intros position callsign kind remarks Hu Hc Hp Hr text. subst text. unfold Wire.texts.
    rewrite marker_read by done. cbn [fmap option_fmap option_map].
    unfold marker_doc, remarks_elem.
    destruct remarks as [r|]; [case_bool_decide|]; split; look; reflexivity.
  - intros circle callsign color Hu Hc Hp Hr text. subst text. unfold Wire.texts.
    rewrite circle_read by done. cbn [fmap option_fmap option_map].
    split; look; reflexivity.
  - intros polygon callsign color filled text Hu Hc Hvs Htext.
    pose proof (polygon_read isoformat Hiso now u polygon callsign color filled uid
                  Hu Hc Hvs) as H.
    rewrite Htext in H. destruct H as (a & _ & Hread). unfold Wire.texts.
    rewrite Hread. cbn [fmap option_fmap option_map]. split; look; reflexivity.
  - intros route name color msgs Hu Hc Hwps Hmsgs.
    pose proof (route_read isoformat Hiso now u route name color uid Hu Hc Hwps) as H.
    rewrite Hmsgs in H. destruct H as (a & m0 & others & _ & -> & Hread & Hlen & Hothers).
    unfold Wire.texts. apply Forall_cons_2.
    + rewrite Hread. cbn [fmap option_fmap option_map]. split; look; reflexivity.
    + apply Forall_lookup. intros i m Hm.
      assert (is_Some (waypoints route !! i)) as [wp Hwp].
      { apply lookup_lt_is_Some. rewrite <- Hlen. by eapply lookup_lt_Some. }
      destruct (Hothers i wp Hwp) as (m' & Hm' & Hreadm).
      assert (m' = m) as -> by congruence.
      rewrite Hreadm. cbn [fmap option_fmap option_map]. split; look; reflexivity.
Qed.


(** C7, as the code has it. A circle whose label, uid and numbers are
    written without markup is encoded as one document: read back, it
    has one root, a point that is the centre of the circle, and
    exactly one ellipse, of major and minor axis the radius and of
    angle 0. The circle of 5000 metres around (37.7749, -122.4194)
    labelled Zone, in red, has an ellipse with major="5000" and
    minor="5000" and the colour -65536. *)
Theorem circle_document now u circle callsign color uid :
  (∀ t, is_data (isoformat t)) →
  is_value (str_or uid ("circle-" +:+ u)) → is_value callsign →
  plain_position (center circle) → is_value (str_number (radius_meters circle)) →
  let text := create_circle_event isoformat now u circle callsign color uid in
  Wire.elements "event" text
  = Some [ ([], [ ("version", "2.0"); ("uid", str_or uid ("circle-" +:+ u));
                  ("type", "u-d-f"); ("how", "h-g-i-g-o") ]) ] ∧
  Wire.elements "point" text
  = Some [ (["event"], [ ("lat", str_number (lat (center circle)));
                         ("lon", str_number (lon (center circle)));
                         ("hae", str_number (hae (center circle)));
                         ("ce", "9999999"); ("le", "9999999") ]) ] ∧
  Wire.elements "ellipse" text
  = Some [ (["shape"; "detail"; "event"],
            [ ("major", str_number (radius_meters circle));
              ("minor", str_number (radius_meters circle)); ("angle", "0") ]) ] ∧
  let z := create_circle_event isoformat now u Samples.zone "Zone" "red" uid in
  Wire.elements "ellipse" z
  = Some [ (["shape"; "detail"; "event"],
            [ ("major", "5000"); ("minor", "5000"); ("angle", "0") ]) ] ∧
  Wire.elements "color" z = Some [ (["detail"; "event"], [ ("value", "-65536") ]) ].
Proof.
  intros Hiso Hu Hc Hp Hr text. subst text. unfold Wire.elements.
  rewrite circle_read by done. cbn [fmap option_fmap option_map].
  split; [look; reflexivity|]. split; [look; reflexivity|]. split; [look; reflexivity|].
  cbn zeta. rewrite circle_read by first [done | reflexivity | by repeat split].
  cbn [fmap option_fmap option_map]. split; look; reflexivity.
Qed.

End Claims.

(** C1 as stated fails. The name of a route is written into the route
    document as it is: this one closes the attribute it stands in and
    goes on with a link of its own, and the document of a route of two
    waypoints then holds three links, the first to a uid that is not
    one of the route's waypoints. *)
Lemma markup_adds_a_link :
  length (waypoints Samples.patrol) = 2 ∧
  match create_route_event Samples.iso_micros 0%Z "0" Samples.patrol
          Markup.label_with_a_link "yellow" None with
  | Return (route_msg :: _) => Wire.elements "link" route_msg
  | _ => None
  end
  = Some [ (["detail"; "event"],
            [ ("relation", "c"); ("type", "b-m-p-s-p-loc"); ("uid", "elsewhere") ]);
           (["detail"; "event"],
            [ ("relation", "c"); ("type", "b-m-p-s-p-loc"); ("uid", "route-0-wp-0") ]);
           (["detail"; "event"],
            [ ("relation", "c"); ("type", "b-m-p-s-p-loc"); ("uid", "route-0-wp-1") ]) ].
Proof. by vm_compute. Qed.

Lemma route_documents_witness :
  2 ≤ length (waypoints Samples.patrol) ∧
  (∀ t, is_data (Samples.iso_micros t)) ∧
  ∃ route_msg stops,
    create_route_event Samples.iso_micros 0%Z "0" Samples.patrol "Patrol" "yellow"
      (Some "route-1") = Return (route_msg :: stops) ∧
    length (route_msg :: stops) = 3 ∧
    Wire.elements "link" route_msg
    = Some [ (["detail"; "event"],
              [ ("relation", "c"); ("type", "b-m-p-s-p-loc"); ("uid", "route-1-wp-0") ]);
             (["detail"; "event"],
              [ ("relation", "c"); ("type", "b-m-p-s-p-loc"); ("uid", "route-1-wp-1") ]) ].
Proof.
  assert (2 ≤ length (waypoints Samples.patrol)) as H by (cbn; lia).
  split; [exact H|]. split; [exact iso_micros_ok|].
  destruct (route_documents Samples.iso_micros 0%Z "0" Samples.patrol "Patrol" "yellow"
              (Some "route-1") H iso_micros_ok)
    as (route_msg & stops & Hmsgs & Hlen & _ & Hlinks & _); [clean..|].
  exists route_msg, stops. split; [exact Hmsgs|]. split; [exact Hlen|exact Hlinks].
Defined.

(** C5 as stated fails. The label of a marker is written into the
    document as it is: this one closes the detail and goes on with a
    stale time of its own, and the document then holds two, one of
    them no instant at all. *)
Lemma markup_adds_a_stale :
  Wire.texts "stale"
    (create_marker_event Samples.iso_micros 0%Z "0" Samples.san_francisco
       Markup.label_with_a_stale "hostile" None None)
  = Some [ (["event"], "43200000000Z"); (["event"], "never") ].
Proof. by vm_compute. Qed.

Lemma staleness_witness :
  (∀ t, is_data (Samples.iso_micros t)) ∧
  Wire.texts "stale"
    (create_marker_event Samples.iso_micros 0%Z "0" Samples.san_francisco "Alpha" "hostile"
       None None)
  = Some [ (["event"], "43200000000Z") ] ∧
  Wire.texts "stale"
    (create_circle_event Samples.iso_micros 0%Z "0" Samples.zone "Zone" "red" None)
  = Some [ (["event"], "86400000000Z") ].
Proof.
  split; [exact iso_micros_ok|].
  destruct (staleness Samples.iso_micros 0%Z "0" None iso_micros_ok) as (Hm & Hc & _).
  split.
  - apply (Hm Samples.san_francisco "Alpha" "hostile" None); clean.
  - apply (Hc Samples.zone "Zone" "red"); clean.
Defined.



(** C7 as stated fails. The label of a circle is written into the
    document as it is: this one closes the attribute it stands in and
    goes on with a shape of its own, and the document then holds two
    ellipses, the first of radius 1. *)
Lemma markup_adds_an_ellipse :
  Wire.elements "ellipse"
    (create_circle_event Samples.iso_micros 0%Z "0" Samples.zone
       Markup.label_with_an_ellipse "red" None)
  = Some [ (["shape"; "detail"; "event"],
            [ ("major", "1"); ("minor", "1"); ("angle", "0") ]);
           (["shape"; "detail"; "event"],
            [ ("major", "5000"); ("minor", "5000"); ("angle", "0") ]) ].
Proof. by vm_compute. Qed.

Lemma circle_document_witness :
  (∀ t, is_data (Samples.iso_micros t)) ∧
  Wire.elements "ellipse"
    (create_circle_event Samples.iso_micros 0%Z "0" Samples.zone "Zone" "red" None)
  = Some [ (["shape"; "detail"; "event"],
            [ ("major", "5000"); ("minor", "5000"); ("angle", "0") ]) ].
Proof.
  split; [exact iso_micros_ok|].
  apply (circle_document Samples.iso_micros 0%Z "0" Samples.zone "Zone" "red" None); clean.
Defined.

Section Facts.
Variable isoformat : datetime → string.
Hypothesis Hiso : ∀ t, is_data (isoformat t).

(** X1. The polyline of a polygon whose label, uid and numbers are
    written without markup lists, read back from the text, the vertices
    given, all of them and in the order given; it is closed; the point
    of the document is the first vertex, with the error of a shape
    anchor. *)
Theorem polygon_vertices now u polygon callsign color filled uid text :
  is_value (str_or uid ("polygon-" +:+ u)) → is_value callsign →
  Forall plain_position (vertices polygon) →
  create_polygon_event isoformat now u polygon callsign color filled uid = Return text →
  ∃ anchor,
    vertices polygon !! 0 = Some anchor ∧
    Wire.elements "vertex" text
    = Some ((λ v, (["polyline"; "shape"; "detail"; "event"],
                   [ ("lat", str_number (lat v)); ("lon", str_number (lon v));
                     ("hae", str_number (hae v)) ])) <$> vertices polygon) ∧
    Wire.elements "polyline" text
    = Some [ (["shape"; "detail"; "event"], [ ("closed", "true") ]) ] ∧
    Wire.elements "point" text
    = Some [ (["event"], [ ("lat", str_number (lat anchor)); ("lon", str_number (lon anchor));
                           ("hae", str_number (hae anchor));
                           ("ce", "9999999"); ("le", "9999999") ]) ].
Proof.
  intros Hu Hc Hvs Htext.
  pose proof (polygon_read isoformat Hiso now u polygon callsign color filled uid
                Hu Hc Hvs) as H.
  rewrite Htext in H. destruct H as (a & Ha & Hread). exists a. split; [done|].
  unfold Wire.elements. rewrite Hread. cbn [fmap option_fmap option_map].
  repeat split; look; reflexivity.
Qed.

(** X2. The documents of a route whose name, uid and stops are written
    without markup have, read back from the texts, pairwise distinct
    uids. *)
Theorem route_uids_distinct now u route name color uid msgs :
  is_value (str_or uid ("route-" +:+ u)) → is_value name →
  Forall (λ wp, plain_position wp.1 ∧ is_value wp.2) (waypoints route) →
  create_route_event isoformat now u route name color uid = Return msgs →
  ∃ uids,
    Forall2 (λ text x,
               Wire.elements "event" text
               = Some [ ([], [ ("version", "2.0"); ("uid", x);
                               ("type", "b-m-p-s-p-loc"); ("how", "h-g-i-g-o") ]) ])
      msgs uids ∧
    NoDup uids.
Proof.
  intros Hu Hc Hwps Hmsgs.
  pose proof (route_read isoformat Hiso now u route name color uid Hu Hc Hwps) as H.
  rewrite Hmsgs in H. destruct H as (a & m0 & others & _ & -> & Hread & Hlen & Hothers).
  set (rid := str_or uid ("route-" +:+ u)) in *.
  exists (rid :: imap (λ i _, wp_uid rid i) (waypoints route)). split.
  - apply Forall2_cons. split.
    + unfold Wire.elements. rewrite Hread. cbn [fmap option_fmap option_map].
      look; reflexivity.
    + apply Forall2_same_length_lookup_2; [by rewrite length_imap|].
      intros i m x Hm Hx. rewrite list_lookup_imap in Hx.
      destruct (waypoints route !! i) as [wp|] eqn:Hwp; [|done]. injection Hx as <-.
      destruct (Hothers i wp Hwp) as (m' & Hm' & Hreadm).
      assert (m' = m) as -> by congruence.
      unfold Wire.elements. rewrite Hreadm. cbn [fmap option_fmap option_map].
      look; reflexivity.
  - rewrite imap_seq_0. apply NoDup_cons. split.
    + intros (i & H & _)%list_elem_of_fmap. symmetry in H.
      by apply EncoderFacts.wp_uid_longer in H.
    + apply NoDup_fmap_2; [|apply NoDup_seq].
      intros i j H. by apply EncoderFacts.wp_uid_inj in H.
Qed.

(** X3. A uid that is given and not empty is the uid of the document:
    the UUID drawn plays no part in the text, and the uid read back
    from it is the one given when that and the other texts written are
    without markup. An empty uid is treated as none: the text is the
    same, and the uid read back is the generated one. This is so for
    the four builders. *)
Theorem given_uid now u u' x circle polygon route position callsign color filled kind
    remarks :
  x ≠ EmptyString → is_value x → is_value u → is_value callsign →
  plain_position (center circle) → is_value (str_number (radius_meters circle)) →
  Forall plain_position (vertices polygon) →
  Forall (λ wp, plain_position wp.1 ∧ is_value wp.2) (waypoints route) →
  plain_position position → is_data (default EmptyString remarks) →
  (create_circle_event isoformat now u circle callsign color (Some x)
   = create_circle_event isoformat now u' circle callsign color (Some x) ∧
   create_circle_event isoformat now u circle callsign color (Some EmptyString)
   = create_circle_event isoformat now u circle callsign color None ∧
   Wire.elements "event" (create_circle_event isoformat now u circle callsign color (Some x))
   = Some [ ([], [ ("version", "2.0"); ("uid", x); ("type", "u-d-f");
                   ("how", "h-g-i-g-o") ]) ] ∧
   Wire.elements "event" (create_circle_event isoformat now u circle callsign color None)
   = Some [ ([], [ ("version", "2.0"); ("uid", "circle-" +:+ u); ("type", "u-d-f");
                   ("how", "h-g-i-g-o") ]) ]) ∧
  (create_polygon_event isoformat now u polygon callsign color filled (Some x)
   = create_polygon_event isoformat now u' polygon callsign color filled (Some x) ∧
   create_polygon_event isoformat now u polygon callsign color filled (Some EmptyString)
   = create_polygon_event isoformat now u polygon callsign color filled None ∧
   (∀ text,
      create_polygon_event isoformat now u polygon callsign color filled (Some x)
      = Return text →
      Wire.elements "event" text
      = Some [ ([], [ ("version", "2.0"); ("uid", x); ("type", "u-d-f");
                      ("how", "h-g-i-g-o") ]) ]) ∧
   (∀ text,
      create_polygon_event isoformat now u polygon callsign color filled None
      = Return text →
      Wire.elements "event" text
      = Some [ ([], [ ("version", "2.0"); ("uid", "polygon-" +:+ u); ("type", "u-d-f");
                      ("how", "h-g-i-g-o") ]) ])) ∧
  (create_route_event isoformat now u route callsign color (Some x)
   = create_route_event isoformat now u' route callsign color (Some x) ∧
   create_route_event isoformat now u route callsign color (Some EmptyString)
   = create_route_event isoformat now u route callsign color None ∧
   (∀ route_msg stops,
      create_route_event isoformat now u route callsign color (Some x)
      = Return (route_msg :: stops) →
      Wire.elements "event" route_msg
      = Some [ ([], [ ("version", "2.0"); ("uid", x); ("type", "b-m-p-s-p-loc");
                      ("how", "h-g-i-g-o") ]) ]) ∧
   (∀ route_msg stops,
      create_route_event isoformat now u route callsign color None
      = Return (route_msg :: stops) →
      Wire.elements "event" route_msg
      = Some [ ([], [ ("version", "2.0"); ("uid", "route-" +:+ u);
                      ("type", "b-m-p-s-p-loc"); ("how", "h-g-i-g-o") ]) ])) ∧
  (create_marker_event isoformat now u position callsign kind remarks (Some x)
   = create_marker_event isoformat now u' position callsign kind remarks (Some x) ∧
   create_marker_event isoformat now u position callsign kind remarks (Some EmptyString)
   = create_marker_event isoformat now u position callsign kind remarks None ∧
   Wire.elements "event"
     (create_marker_event isoformat now u position callsign kind remarks (Some x))
   = Some [ ([], [ ("version", "2.0"); ("uid", x);
                   ("type", default "a-f-G-E-S" (assoc kind marker_table));
                   ("how", "h-g-i-g-o") ]) ] ∧
   Wire.elements "event"
     (create_marker_event isoformat now u position callsign kind remarks None)
   = Some [ ([], [ ("version", "2.0"); ("uid", "marker-" +:+ u);
                   ("type", default "a-f-G-E-S" (assoc kind marker_table));
                   ("how", "h-g-i-g-o") ]) ]).
Proof.
  intros Hx Hvx Hvu Hc Hp Hr Hvs Hwps Hpos Hrem.
  assert (∀ y, str_or (Some x) y = x) as Hor.
  { intros y. unfold str_or. by rewrite bool_decide_eq_false_2. }
  assert (∀ y, is_value (str_or (Some x) y)) as Hgiven by (intros y; by rewrite Hor).
  assert (∀ p, is_value p → is_value (str_or None (p +:+ u))) as Hdrawn.
  { intros p Hp'. by apply is_value_app. }
  split; [|split; [|split]].
  - split; [unfold create_circle_event; by rewrite !Hor|]. split; [reflexivity|].
    unfold Wire.elements. rewrite !circle_read by first [done | by apply Hdrawn].
    cbn [fmap option_fmap option_map]. split; look; by rewrite ?Hor.
  - split; [unfold create_polygon_event; by rewrite !Hor|]. split; [reflexivity|].
    split; intros text Htext.
    + pose proof (polygon_read isoformat Hiso now u polygon callsign color filled (Some x)
                    (Hgiven _) Hc Hvs) as H.
      rewrite Htext in H. destruct H as (a & _ & Hread). unfold Wire.elements.
      rewrite Hread. cbn [fmap option_fmap option_map]. look. by rewrite Hor.
    + pose proof (polygon_read isoformat Hiso now u polygon callsign color filled None
                    (Hdrawn "polygon-" eq_refl) Hc Hvs) as H.
      rewrite Htext in H. destruct H as (a & _ & Hread). unfold Wire.elements.
      rewrite Hread. cbn [fmap option_fmap option_map]. look. reflexivity.
  - split; [unfold create_route_event; by rewrite !Hor|]. split; [reflexivity|].
    split; intros route_msg stops Hmsgs.
    + pose proof (route_read isoformat Hiso now u route callsign color (Some x)
                    (Hgiven _) Hc Hwps) as H.
      rewrite Hmsgs in H. destruct H as (a & m0 & others & _ & [= -> ->] & Hread & _).
      unfold Wire.elements. rewrite Hread. cbn [fmap option_fmap option_map].
      look. by rewrite Hor.
    + pose proof (route_read isoformat Hiso now u route callsign color None
                    (Hdrawn "route-" eq_refl) Hc Hwps) as H.
      rewrite Hmsgs in H. destruct H as (a & m0 & others & _ & [= -> ->] & Hread & _).
      unfold Wire.elements. rewrite Hread. cbn [fmap option_fmap option_map].
      look. reflexivity.
  - split; [unfold create_marker_event; by rewrite !Hor|]. split; [reflexivity|].
    unfold Wire.elements. rewrite !marker_read by first [done | by apply Hdrawn].
    cbn [fmap option_fmap option_map]. rewrite <- EncoderFacts.types_lookup.
    unfold marker_doc, remarks_elem.
    destruct remarks as [r|]; [case_bool_decide|]; split; look; by rewrite ?Hor.
Qed.

(** X4. Read back from the text of a marker whose label, uid, numbers
    and remarks are written without markup, the type is the one the
    table gives for its kind, and that of a friendly marker for any
    other kind; the point is the position given, with an error of
    10. *)
Theorem marker_types now u position callsign kind remarks uid :
  is_value (str_or uid ("marker-" +:+ u)) → is_value callsign →
  plain_position position → is_data (default EmptyString remarks) →
  let text := create_marker_event isoformat now u position callsign kind remarks uid in
  Wire.elements "event" text
  = Some [ ([], [ ("version", "2.0"); ("uid", str_or uid ("marker-" +:+ u));
                  ("type", default "a-f-G-E-S" (assoc kind marker_table));
                  ("how", "h-g-i-g-o") ]) ] ∧
  Wire.elements "point" text
  = Some [ (["event"], [ ("lat", str_number (lat position));
                         ("lon", str_number (lon position));
                         ("hae", str_number (hae position));
                         ("ce", "10"); ("le", "10") ]) ].
Proof.
  intros Hu Hc Hp Hr text. subst text. unfold Wire.elements.
  rewrite marker_read by done. cbn [fmap option_fmap option_map].
  rewrite <- EncoderFacts.types_lookup. unfold marker_doc, remarks_elem.
  destruct remarks as [r|]; [case_bool_decide|]; split; look; reflexivity.
Qed.

(** X5. Remarks that are given, not empty and without markup are, read
    back from the text of a marker, in the detail of the document, once
    and as they are; without remarks, or with empty ones, the document
    has no remarks element. *)
Theorem remarks_embedded now u position callsign kind remarks uid :
  is_value (str_or uid ("marker-" +:+ u)) → is_value callsign →
  plain_position position → is_data (default EmptyString remarks) →
  let text := create_marker_event isoformat now u position callsign kind remarks uid in
  Wire.elements "remarks" text
  = Some match remarks with
         | Some r => if bool_decide (r = EmptyString) then [] else [ (["detail"; "event"], []) ]
         | None => []
         end ∧
  Wire.texts "remarks" text
  = Some match remarks with
         | Some r => if bool_decide (r = EmptyString) then [] else [ (["detail"; "event"], r) ]
         | None => []
         end.
Proof.
  intros Hu Hc Hp Hr text. subst text. unfold Wire.elements, Wire.texts.
  rewrite marker_read by done. cbn [fmap option_fmap option_map].
  unfold marker_doc, remarks_elem.
  destruct remarks as [r|]; [case_bool_decide|]; split; look; reflexivity.
Qed.

(** X6. Read back from the texts of a route whose name, uid and stops
    are written without markup, the document of the i-th waypoint
    carries that stop: its point is the position of the stop with an
    error of 10 and its callsign is the name of the stop; the point of
    the route document is the first stop, with the error of a shape
    anchor, and its callsign is the name of the route. *)
Theorem waypoints_carry_stops now u route name color uid route_msg stops :
  is_value (str_or uid ("route-" +:+ u)) → is_value name →
  Forall (λ wp, plain_position wp.1 ∧ is_value wp.2) (waypoints route) →
  create_route_event isoformat now u route name color uid = Return (route_msg :: stops) →
  (∃ anchor,
     waypoints route !! 0 = Some anchor ∧
     Wire.elements "point" route_msg
     = Some [ (["event"], [ ("lat", str_number (lat anchor.1));
                            ("lon", str_number (lon anchor.1));
                            ("hae", str_number (hae anchor.1));
                            ("ce", "9999999"); ("le", "9999999") ]) ] ∧
     Wire.elements "contact" route_msg
     = Some [ (["detail"; "event"], [ ("callsign", name) ]) ]) ∧
  length stops = length (waypoints route) ∧
  ∀ i wp, waypoints route !! i = Some wp →
    ∃ text, stops !! i = Some text ∧
      Wire.elements "point" text
      = Some [ (["event"], [ ("lat", str_number (lat wp.1)); ("lon", str_number (lon wp.1));
                             ("hae", str_number (hae wp.1));
                             ("ce", "10"); ("le", "10") ]) ] ∧
      Wire.elements "contact" text
      = Some [ (["detail"; "event"], [ ("callsign", wp.2) ]) ].
Proof.
  intros Hu Hc Hwps Hmsgs.
  pose proof (route_read isoformat Hiso now u route name color uid Hu Hc Hwps) as H.
  rewrite Hmsgs in H.
  destruct H as (a & m0 & others & Ha & [= -> ->] & Hread & Hlen & Hothers).
  split; [|split; [done|]].
  - exists a. split; [done|]. unfold Wire.elements. rewrite Hread.
    cbn [fmap option_fmap option_map]. split; look; reflexivity.
  - intros i wp Hwp. destruct (Hothers i wp Hwp) as (m & Hm & Hreadm).
    exists m. split; [done|]. unfold Wire.elements. rewrite Hreadm.
    cbn [fmap option_fmap option_map]. split; look; reflexivity.
Qed.

(** X7. In every document whose label, uid, numbers and remarks are
    written without markup the validity starts, as read back from the
    text, when the document is issued: [start] is [time], the instant
    of issue. *)
Theorem start_is_time now u uid :
  (∀ circle callsign color,
     is_value (str_or uid ("circle-" +:+ u)) → is_value callsign →
     plain_position (center circle) → is_value (str_number (radius_meters circle)) →
     let text := create_circle_event isoformat now u circle callsign color uid in
     Wire.texts "start" text = Some [ (["event"], isoformat now +:+ "Z") ] ∧
     Wire.texts "start" text = Wire.texts "time" text) ∧
  (∀ polygon callsign color filled text,
     is_value (str_or uid ("polygon-" +:+ u)) → is_value callsign →
     Forall plain_position (vertices polygon) →
     create_polygon_event isoformat now u polygon callsign color filled uid = Return text →
     Wire.texts "start" text = Some [ (["event"], isoformat now +:+ "Z") ] ∧
     Wire.texts "start" text = Wire.texts "time" text) ∧
  (∀ route name color msgs,
     is_value (str_or uid ("route-" +:+ u)) → is_value name →
     Forall (λ wp, plain_position wp.1 ∧ is_value wp.2) (waypoints route) →
     create_route_event isoformat now u route name color uid = Return msgs →
     Forall (λ text,
               Wire.texts "start" text = Some [ (["event"], isoformat now +:+ "Z") ] ∧
               Wire.texts "start" text = Wire.texts "time" text)
       msgs) ∧
  (∀ position callsign kind remarks,
     is_value (str_or uid ("marker-" +:+ u)) → is_value callsign →
     plain_position position → is_data (default EmptyString remarks) →
     let text := create_marker_event isoformat now u position callsign kind remarks uid in
     Wire.texts "start" text = Some [ (["event"], isoformat now +:+ "Z") ] ∧
     Wire.texts "start" text = Wire.texts "time" text).
Proof.
  split; [|split; [|split]].
  - intros circle callsign color Hu Hc Hp Hr text. subst text. unfold Wire.texts.
    rewrite circle_read by done. cbn [fmap option_fmap option_map].
    split; look; reflexivity.
  - intros polygon callsign color filled text Hu Hc Hvs Htext.
    pose proof (polygon_read isoformat Hiso now u polygon callsign color filled uid
                  Hu Hc Hvs) as H.
    rewrite Htext in H. destruct H as (a & _ & Hread). unfold Wire.texts.
    rewrite Hread. cbn [fmap option_fmap option_map]. split; look; reflexivity.
  - intros route name color msgs Hu Hc Hwps Hmsgs.
    pose proof (route_read isoformat Hiso now u route name color uid Hu Hc Hwps) as H.
    rewrite Hmsgs in H. destruct H as (a & m0 & others & _ & -> & Hread & Hlen & Hothers).
    unfold Wire.texts. apply Forall_cons_2.
    + rewrite Hread. cbn [fmap option_fmap option_map]. split; look; reflexivity.
    + apply Forall_lookup. intros i m Hm.
      assert (is_Some (waypoints route !! i)) as [wp Hwp].
      { apply lookup_lt_is_Some. rewrite <- Hlen. by eapply lookup_lt_Some. }
      destruct (Hothers i wp Hwp) as (m' & Hm' & Hreadm).
      assert (m' = m) as -> by congruence.
      rewrite Hreadm. cbn [fmap option_fmap option_map]. split; look; reflexivity.
  - intros position callsign kind remarks Hu Hc Hp Hr text. subst text. unfold Wire.texts.
    rewrite marker_read by done. cbn [fmap option_fmap option_map].
    unfold marker_doc, remarks_elem.
    destruct remarks as [r|]; [case_bool_decide|]; split; look; reflexivity.
Qed.

End Facts.

Lemma polygon_vertices_witness :
  (∀ t, is_data (Samples.iso_micros t)) ∧
  ∃ text,
    create_polygon_event Samples.iso_micros 0%Z "0" Samples.two_vertices "Area" "green" true
      None = Return text ∧
    Wire.elements "vertex" text
    = Some [ (["polyline"; "shape"; "detail"; "event"],
              [ ("lat", "34.0"); ("lon", "-118.0"); ("hae", "0.0") ]);
             (["polyline"; "shape"; "detail"; "event"],
              [ ("lat", "34.0"); ("lon", "-117.0"); ("hae", "0.0") ]) ].
Proof.
  split; [exact iso_micros_ok|]. eexists. split; [reflexivity|].
  destruct (polygon_vertices Samples.iso_micros iso_micros_ok 0%Z "0" Samples.two_vertices
              "Area" "green" true None _ eq_refl eq_refl
              ltac:(by repeat constructor) eq_refl) as (a & _ & Hvs & _).
  exact Hvs.
Defined.

Lemma route_uids_distinct_witness :
  (∀ t, is_data (Samples.iso_micros t)) ∧
  ∃ (msgs uids : list string),
    create_route_event Samples.iso_micros 0%Z "0" Samples.patrol "Patrol" "yellow" None
    = Return msgs ∧
    length msgs = 3 ∧ length uids = 3 ∧ NoDup uids.
Proof.
  split; [exact iso_micros_ok|]. eexists.
  destruct (route_uids_distinct Samples.iso_micros iso_micros_ok 0%Z "0" Samples.patrol
              "Patrol" "yellow" None _ eq_refl eq_refl
              ltac:(by repeat constructor) eq_refl) as (uids & Hall & Hnd).
  exists uids. split; [reflexivity|]. split; [reflexivity|].
  split; [|exact Hnd]. by rewrite <- (Forall2_length _ _ _ Hall).
Defined.

Lemma given_uid_witness :
  "zone-7" ≠ EmptyString ∧
  (∀ t, is_data (Samples.iso_micros t)) ∧
  Wire.elements "event"
    (create_circle_event Samples.iso_micros 0%Z "1f0c" Samples.zone "Zone" "red"
       (Some "zone-7"))
  = Some [ ([], [ ("version", "2.0"); ("uid", "zone-7"); ("type", "u-d-f");
                  ("how", "h-g-i-g-o") ]) ] ∧
  create_circle_event Samples.iso_micros 0%Z "1f0c" Samples.zone "Zone" "red" (Some "zone-7")
  = create_circle_event Samples.iso_micros 0%Z "77aa" Samples.zone "Zone" "red" (Some "zone-7").
Proof.
  assert ("zone-7" ≠ EmptyString) as H by done.
  split; [exact H|]. split; [exact iso_micros_ok|].
  destruct (given_uid Samples.iso_micros iso_micros_ok 0%Z "1f0c" "77aa" "zone-7"
              Samples.zone Samples.two_vertices Samples.patrol Samples.san_francisco
              "Zone" "red" true "friendly" None H)
    as ((Hsame & _ & Huid & _) & _); [clean..|].
  split; [exact Huid|exact Hsame].
Defined.

Lemma marker_types_witness :
  (∀ t, is_data (Samples.iso_micros t)) ∧
  Wire.elements "event"
    (create_marker_event Samples.iso_micros 0%Z "0" Samples.san_francisco "Alpha" "medical"
       (Some "seen") None)
  = Some [ ([], [ ("version", "2.0"); ("uid", "marker-0"); ("type", "b-m-p-c");
                  ("how", "h-g-i-g-o") ]) ].
Proof.
  split; [exact iso_micros_ok|].
  apply (marker_types Samples.iso_micros iso_micros_ok 0%Z "0" Samples.san_francisco
           "Alpha" "medical" (Some "seen") None); clean.
Defined.

Lemma remarks_embedded_witness :
  (∀ t, is_data (Samples.iso_micros t)) ∧
  Wire.texts "remarks"
    (create_marker_event Samples.iso_micros 0%Z "0" Samples.san_francisco "Alpha" "medical"
       (Some "seen") None)
  = Some [ (["detail"; "event"], "seen") ].
Proof.
  split; [exact iso_micros_ok|].
  apply (remarks_embedded Samples.iso_micros iso_micros_ok 0%Z "0" Samples.san_francisco
           "Alpha" "medical" (Some "seen") None); clean.
Defined.

Lemma waypoints_carry_stops_witness :
  (∀ t, is_data (Samples.iso_micros t)) ∧
  ∃ route_msg stops,
    create_route_event Samples.iso_micros 0%Z "0" Samples.patrol "Patrol" "yellow" None
    = Return (route_msg :: stops) ∧
    length stops = 2 ∧
    Wire.elements "contact" route_msg
    = Some [ (["detail"; "event"], [ ("callsign", "Patrol") ]) ].
Proof.
  split; [exact iso_micros_ok|]. do 2 eexists. split; [reflexivity|].
  destruct (waypoints_carry_stops Samples.iso_micros iso_micros_ok 0%Z "0" Samples.patrol
              "Patrol" "yellow" None _ _ eq_refl eq_refl
              ltac:(by repeat constructor) eq_refl) as ((a & _ & _ & Hname) & Hlen & _).
  split; [exact Hlen|exact Hname].
Defined.

Lemma start_is_time_witness :
  (∀ t, is_data (Samples.iso_micros t)) ∧
  Wire.texts "start"
    (create_circle_event Samples.iso_micros 0%Z "0" Samples.zone "Zone" "red" None)
  = Some [ (["event"], "0Z") ].
Proof.
  split; [exact iso_micros_ok|].
  destruct (start_is_time Samples.iso_micros iso_micros_ok 0%Z "0" None) as (Hc & _).
  apply (Hc Samples.zone "Zone" "red"); clean.
Defined.

End Written.

(** ** More on the client *)

Module SessionFacts.
Import Py Client Session Notions.

Lemma rstrip_spec c s :
  ∃ n, s = rstrip c s +:+ copies n c ∧ last_char (rstrip c s) ≠ Some c.
Proof.
  induction s as [|a s (n & Hs & Hlast)]; [by exists 0|].
  cbn [rstrip]. destruct (rstrip c s) as [|b r] eqn:Hr.
  - case_bool_decide as Ha.
    + exists (S n). subst a. cbn in Hs. by rewrite Hs at 1.
    + exists n. split; [cbn in Hs |- *; by rewrite Hs at 1|]. cbn. congruence.
  - exists n. split; [|exact Hlast].
    change (String a s = String a (String b r +:+ copies n c)). by rewrite Hs at 1.
Qed.

Lemma track_app cur l1 l2 :
  track cur (l1 ++ l2) = track cur l1 ≫= λ cur', track cur' l2.
Proof.
  revert cur. induction l1 as [|e l1 IH]; intros cur; [done|].
  destruct e as [h|h|r]; cbn [track app].
  - destruct cur; [done|]. apply IH.
  - destruct cur as [h'|]; [|done]. case_bool_decide; [apply IH|done].
  - destruct cur; [|done]. apply IH.
Qed.

Section Facts.
Variable repr : value → string.
Variable net : request → outcome.

Ltac run :=
  unfold perform, login, get_status, get_connections, send_cot_message, create_connection,
    delete_connection, health_check, except_OmniTAKError, fmap, M_fmap, mbind, M_bind,
    get_self, put_self, lift, mret, M_ret;
  rewrite ?_request_run.

Ltac cases :=
  repeat (match goal with
          | |- context [match ?r with Return _ => _ | Raise _ => _ end] => destruct r
          | |- context [match ?e with OmniTAKError _ => _ | _ => _ end] => destruct e
          | |- context [if ?b then _ else _] => destruct b
          end; cbn [fst snd self log set_token session base_url api_key _token]).

Lemma perform_session op s :
  session (self (perform repr net op s).2) = session (self (connected s)).
Proof. destruct op; run; cases; reflexivity. Qed.

Lemma health_check_state s :
  self (health_check repr net s).2 = self (connected s) ∧
  log (health_check repr net s).2
  = log (connected s) ++ [Sent (build_request repr (self s) "GET" "/api/v1/health" None)].
Proof. run. cases; done. Qed.

Lemma connected_track s :
  ∃ ext, log (connected s) = log s ++ ext ∧
         track (session (self s)) ext = Some (session (self (connected s))) ∧
         is_Some (session (self (connected s))).
Proof.
  unfold connected. destruct (session (self s)) as [h|] eqn:E.
  - exists []. rewrite app_nil_r, E. eauto.
  - eexists. split; [reflexivity|]. cbn. eauto.
Qed.

Lemma act_track a s :
  ∃ ext, log (act repr net a s) = log s ++ ext ∧
         track (session (self s)) ext = Some (session (self (act repr net a s))).
Proof.
  destruct a as [| |op|]; cbn [act].
  - unfold connect. destruct (session (self s)) as [h|] eqn:E; cbn.
    + exists []. by rewrite app_nil_r, E.
    + eexists. split; [reflexivity|]. done.
  - unfold close. destruct (session (self s)) as [h|] eqn:E; cbn.
    + eexists. split; [reflexivity|]. cbn. by rewrite bool_decide_eq_true_2.
    + exists []. by rewrite app_nil_r, E.
  - destruct (connected_track s) as (ext & Hlog & Htrack & [h Hh]).
    exists (ext ++ [Sent (request_for repr (self s) op)]).
    rewrite perform_log, perform_session, Hlog, <- app_assoc. split; [done|].
    rewrite track_app, Htrack, Hh. done.
  - destruct (connected_track s) as (ext & Hlog & Htrack & [h Hh]).
    destruct (health_check_state s) as [Hself Hl].
    exists (ext ++ [Sent (build_request repr (self s) "GET" "/api/v1/health" None)]).
    rewrite Hl, Hself, Hlog, <- app_assoc. split; [done|].
    rewrite track_app, Htrack, Hh. done.
Qed.

Lemma act_config a s :
  base_url (self (act repr net a s)) = base_url (self s) ∧
  api_key (self (act repr net a s)) = api_key (self s).
Proof.
  destruct a as [| |op|]; cbn [act].
  - unfold connect. by destruct (session (self s)).
  - unfold close. by destruct (session (self s)).
  - pose proof (perform_self repr net op s) as (? & ? & _). done.
  - destruct (health_check_state s) as [-> _]. pose proof (connected_self s) as (? & ? & _). done.
Qed.

Lemma acts_keep (todo : list action) s :
  track None (log s) = Some (session (self s)) →
  let s' := foldl (λ s a, act repr net a s) s todo in
  track None (log s') = Some (session (self s')) ∧
  base_url (self s') = base_url (self s) ∧ api_key (self s') = api_key (self s).
Proof.
  revert s. induction todo as [|a todo IH]; intros s Hs; [done|].
  cbn [foldl]. destruct (act_track a s) as (ext & Hlog & Htrack).
  destruct (act_config a s) as [Hb Hk].
  destruct (IH (act repr net a s)) as (H1 & H2 & H3).
  { by rewrite Hlog, track_app, Hs. }
  split; [exact H1|]. by rewrite H2, H3.
Qed.

(** X8. The base URL the client keeps is the one given without its
    trailing slashes, so that it never ends with one. *)
Theorem base_url_stripped b k t :
  ∃ n, b = base_url (__init__ b k t) +:+ copies n "/" ∧
       last_char (base_url (__init__ b k t)) ≠ Some "/"%char.
Proof. apply rstrip_spec. Qed.

(** X9. Whatever is done with a client, in whatever order, its sessions
    are used properly: a session is opened only when none is open, the
    session closed is the open one, every request goes out on an open
    session, and the session the client holds in the end is the one
    open. The base URL and the key never change. *)
Theorem session_discipline b k t (todo : list action) :
  let s0 := {| self := __init__ b k t; log := [] |} in
  let s := foldl (λ s a, act repr net a s) s0 todo in
  track None (log s) = Some (session (self s)) ∧
  base_url (self s) = base_url (self s0) ∧ api_key (self s) = api_key (self s0).
Proof. intros s0. by apply acts_keep. Qed.

(** X11. [get_status] on an answer below 400 that is a JSON object:
    the six fields are taken from it when it has them all; otherwise
    [KeyError] is raised, with the first key missing in the order
    [uptime_seconds], [active_connections], [messages_processed],
    [messages_per_second], [memory_usage_bytes], [version]. *)
Theorem get_status_result s status text d :
  net (build_request repr (self s) "GET" "/api/v1/status" None)
  = Response status text (Json (Dict d)) →
  (status < 400)%Z →
  (get_status repr net s).1
  = match first_missing status_keys d with
    | Some k => Raise (KeyError k)
    | None => Return (status_of d)
    end.
Proof.
  intros Hnet Hst. run. rewrite Hnet. cbn [response_result].
  replace (400 <=? status)%Z with false by (symmetry; apply Z.leb_gt; lia).
  unfold status_of, field. cbn [subscript first_missing status_keys].
  repeat (match goal with
          | |- context [d !! ?k] => destruct (d !! k); cbn; [|done]
          end). done.
Qed.

Lemma connection_info_well c :
  first_missing connection_keys c = None → connection_info (Dict c) = Return (info_of c).
Proof.
  unfold connection_info, info_of, field, counter. cbn [first_missing connection_keys subscript].
  repeat (match goal with
          | |- context [if ?o is Some _ then _ else _] => destruct o eqn:?; [|done]
          end). intros _. by simplify_option_eq.
Qed.

Lemma connection_info_lacking c k :
  first_missing connection_keys c = Some k → connection_info (Dict c) = Raise (KeyError k).
Proof.
  unfold connection_info. cbn [first_missing connection_keys subscript].
  repeat (match goal with
          | |- context [if ?o is Some _ then _ else _] =>
              destruct o eqn:?; cbn [Py.bind]; [|by intros [= <-]]
          end). done.
Qed.

Lemma mapM_well (items : list (gmap string value)) :
  Forall (λ c, first_missing connection_keys c = None) items →
  mapM connection_info (Dict <$> items) = Return (info_of <$> items).
Proof.
  induction 1 as [|c items Hc _ IH]; [done|].
  rewrite !fmap_cons. cbn [mapM]. by rewrite connection_info_well, IH.
Qed.

Lemma mapM_lacking (items : list (gmap string value)) c (rest : list value) k :
  Forall (λ c, first_missing connection_keys c = None) items →
  first_missing connection_keys c = Some k →
  mapM connection_info ((Dict <$> items) ++ Dict c :: rest) = Raise (KeyError k).
Proof.
  intros Hitems Hc. induction Hitems as [|c' items Hc' _ IH].
  - cbn. by rewrite (connection_info_lacking c k).
  - rewrite fmap_cons. cbn [app mapM]. by rewrite connection_info_well, IH.
Qed.

(** X12. [get_connections] on an answer below 400 that is a JSON
    object: without the key [connections] the list is empty; with a list
    of connections that each have [id], [name], [connection_type],
    [status] and [address], the result has one entry per connection, in
    the order of the server, and a counter the server left out is 0; the
    first connection that lacks one of the five keys makes the call raise
    [KeyError] with that key. *)
Theorem get_connections_result s status text d :
  net (build_request repr (self s) "GET" "/api/v1/connections" None)
  = Response status text (Json (Dict d)) →
  (status < 400)%Z →
  let r := (get_connections repr net s).1 in
  match d !! "connections" with
  | None => r = Return []
  | Some conns =>
      (∀ items, conns = List_ (Dict <$> items) →
         Forall (λ c, first_missing connection_keys c = None) items →
         r = Return (info_of <$> items) ∧
         length (info_of <$> items) = length items) ∧
      (∀ items c rest k, conns = List_ ((Dict <$> items) ++ Dict c :: rest) →
         Forall (λ c, first_missing connection_keys c = None) items →
         first_missing connection_keys c = Some k →
         r = Raise (KeyError k))
  end.
Proof.
  intros Hnet Hst r. subst r.
  unfold get_connections, mbind, M_bind, lift, mret, M_ret. rewrite _request_run, Hnet.
  cbn [response_result].
  replace (400 <=? status)%Z with false by (symmetry; apply Z.leb_gt; lia).
  cbn [get]. destruct (d !! "connections") as [conns|]; unfold default, from_option, id.
  - split.
    + intros items -> Hitems. cbn [Datatypes.id iterate fst]. rewrite mapM_well by done.
      by rewrite length_fmap.
    + intros items c rest k -> Hitems Hc. cbn [Datatypes.id iterate fst].
      by rewrite (mapM_lacking items c rest k).
  - reflexivity.
Qed.


(** X14. The headers of a request always hold [Content-Type:
    application/json]; beside it there is [Authorization] exactly when
    the token is truthy, [X-API-Key] only when it is not, never both,
    and nothing else. *)
Theorem headers_of_a_request c :
  let h := _get_headers repr c in
  h !! "Content-Type" = Some "application/json" ∧
  (is_Some (h !! "Authorization") ↔ truthy (_token c) = true) ∧
  ¬ (is_Some (h !! "Authorization") ∧ is_Some (h !! "X-API-Key")) ∧
  dom h ⊆ {[ "Content-Type"; "Authorization"; "X-API-Key" ]}.
Proof.
  intros h. subst h. unfold _get_headers.
  destruct (truthy (_token c)); [|destruct (api_key c) as [k|]; [case_bool_decide|]];
    rewrite <- !not_eq_None_Some, ?dom_insert_L, ?dom_singleton_L.
  all: split; [reflexivity|].
  all: split; [split; intros ?; try done|].
  all: split; [intros [H1 H2]; first [by apply H1|by apply H2]|set_solver].
Qed.

(** X15. [login] on an answer below 400 that is a JSON object: with a
    key [token], its value, of whatever kind, is returned and stored;
    without it the call raises [KeyError] and the token the client held
    is kept. *)
Theorem login_result u p s status text d :
  net (request_for repr (self s) (Login u p)) = Response status text (Json (Dict d)) →
  (status < 400)%Z →
  let r := login repr net u p s in
  match d !! "token" with
  | Some t => r.1 = Return t ∧ _token (self r.2) = t
  | None => r.1 = Raise (KeyError "token") ∧ _token (self r.2) = _token (self s)
  end.
Proof.
  intros Hnet Hst r. subst r. pose proof (connected_self s) as (_ & _ & Ht & _).
  run. cbn [request_for] in Hnet. rewrite Hnet. cbn [response_result].
  replace (400 <=? status)%Z with false by (symmetry; apply Z.leb_gt; lia).
  cbn [subscript]. by destruct (d !! "token").
Qed.

(** X16. Nothing but a login changes the token: connecting, closing,
    the health check and every other operation leave it as it is,
    whether they return or raise. *)
Theorem token_is_kept a s :
  (∀ u p, a ≠ Do (Login u p)) →
  _token (self (act repr net a s)) = _token (self s).
Proof.
  intros Ha. destruct a as [| |op|]; cbn [act].
  - unfold connect. by destruct (session (self s)).
  - unfold close. by destruct (session (self s)).
  - apply perform_token. destruct op; try done. by destruct (Ha username password).
  - destruct (health_check_state s) as [-> _]. by pose proof (connected_self s) as (_ & _ & ? & _).
Qed.

End Facts.
Lemma get_status_result_witness :
  let net := Samples.answers 200 "{...}" (Dict {[ "uptime_seconds" := Num (Int 5) ]}) in
  (200 < 400)%Z ∧
  (get_status Samples.no_repr net (Samples.fresh None)).1
  = Raise (KeyError "active_connections").
Proof.
  intros net. split; [lia|].
  exact (get_status_result Samples.no_repr net (Samples.fresh None) 200 "{...}"
           {[ "uptime_seconds" := Num (Int 5) ]} eq_refl ltac:(lia)).
Defined.

Lemma get_connections_result_witness :
  let net := Samples.answers 200 "{}" (Dict ∅) in
  (200 < 400)%Z ∧ (get_connections Samples.no_repr net (Samples.fresh None)).1 = Return [].
Proof.
  intros net. split; [lia|].
  exact (get_connections_result Samples.no_repr net (Samples.fresh None) 200 "{}" ∅
           eq_refl ltac:(lia)).
Defined.


Lemma login_result_witness :
  let net := Samples.answers 200 "{}" (Dict ∅) in
  (200 < 400)%Z ∧
  (login Samples.no_repr net "user" "secret" (Samples.holding "abc" None)).1
  = Raise (KeyError "token") ∧
  _token (self (login Samples.no_repr net "user" "secret" (Samples.holding "abc" None)).2)
  = Str "abc".
Proof.
  intros net. split; [lia|].
  exact (login_result Samples.no_repr net "user" "secret" (Samples.holding "abc" None)
           200 "{}" ∅ eq_refl ltac:(lia)).
Defined.

Lemma token_is_kept_witness :
  (∀ u p, Close ≠ Do (Login u p)) ∧
  _token (self (act Samples.no_repr Samples.refused Close (Samples.holding "abc" None)))
  = Str "abc".
Proof.
  assert (∀ u p, Close ≠ Do (Login u p)) as H by done.
  split; [exact H|].
  exact (token_is_kept Samples.no_repr Samples.refused Close (Samples.holding "abc" None) H).
Defined.

End SessionFacts.

(** ** The tools *)

Module ToolsFacts.
Import Py Geometry Client Session Tools Notions.

Section Facts.
Variable repr : value → string.
Variable net : request → outcome.
Variable isoformat : datetime → string.
Variable float_times_1000 : string → string.

Lemma send_ready m s :
  ready s →
  send repr net m s
  = (reply repr net m, {| self := self s; log := log s ++ [Sent (carrying repr m)] |}).
Proof.
  intros ([h Hh] & Hb & Hk & Ht).
  assert (build_request repr (self s) "POST" "/api/v1/cot/send"
            (Some (Dict (cot_data m None true 5))) = carrying repr m) as Hreq.
  { unfold carrying, request_for, build_request, _get_headers. by rewrite Hb, Hk, Ht. }
  assert (connected s = s) as Hc by (unfold connected; by rewrite Hh).
  unfold reply, send, send_cot_message, mbind, M_bind, lift, mret, M_ret.
  rewrite !_request_run, Hc, Hreq.
  change (build_request repr (self default_client) "POST" "/api/v1/cot/send"
            (Some (Dict (cot_data m None true 5)))) with (carrying repr m).
  destruct (response_result repr (net (carrying repr m))) as [v|e]; cbn; [|done].
  repeat (match goal with
          | |- context [match ?r with Return _ => _ | Raise _ => _ end] => destruct r
          | |- context [if ?b then _ else _] => destruct b
          end; cbn); done.
Qed.

Lemma reply_count m v :
  reply repr net m = Return v → subscript v "sent_to_count" = Return (sent_to_count v).
Proof.
  unfold reply, send, send_cot_message, mbind, M_bind, lift, mret, M_ret.
  rewrite _request_run. destruct (response_result _ _) as [w|e]; cbn; [|done].
  destruct (get w "warnings" None_) as [x|e] eqn:Hw; cbn; [|done].
  assert (∃ d, w = Dict d) as [d ->] by (destruct w; try done; eauto).
  destruct (truthy x); cbn;
    repeat (match goal with
            | |- context [match ?r with Return _ => _ | Raise _ => _ end] =>
                destruct r eqn:?; cbn
            end); try done; intros [= <-]; cbn in *;
    by destruct (d !! "sent_to_count").
Qed.

Lemma for_each_send msgs s :
  ready s →
  for_each (send repr net) msgs s
  = (match first_failure repr net msgs with
     | None => Return ()
     | Some e => Raise e
     end,
     {| self := self s;
        log := log s ++ (Sent ∘ carrying repr <$> until_failure repr net msgs) |}).
Proof.
  revert s. induction msgs as [|m msgs IH]; intros s Hs.
  { cbn. rewrite app_nil_r. by destruct s. }
  cbn [for_each first_failure until_failure]. unfold mbind, M_bind.
  rewrite send_ready by done. destruct (reply repr net m) as [v|e].
  - rewrite IH by done. cbn [self log]. by rewrite <- app_assoc.
  - done.
Qed.

(** [async with OmniTAKClient() as client] around a body that leaves
    the client as it is. *)
Lemma async_with_default {A} (body : M A) r ext :
  (∀ s, ready s → body s = (r, {| self := self s; log := log s ++ ext |})) →
  async_with body default_client
  = (r, {| self := self default_client; log := SessionOpened 0 :: ext ++ [SessionClosed 0] |}).
Proof.
  intros Hbody. unfold async_with, default_client, connect. cbn.
  rewrite Hbody by (repeat split; eauto). cbn. reflexivity.
Qed.

(** A tool that sends one document. *)
Lemma one_document m (done_ : value → string) (failed : string → string) :
  (let '(r, s) :=
     except_OmniTAKError_as
       (result ← async_with (send repr net m);
        n ← lift (subscript result "sent_to_count");
        mret (done_ n))
       (λ e, mret (failed e))
       default_client in
   (r, log s))
  = (match reply repr net m with
     | Return v => Return (done_ (sent_to_count v))
     | Raise (OmniTAKError msg) => Return (failed msg)
     | Raise e => Raise e
     end,
     [SessionOpened 0; Sent (carrying repr m); SessionClosed 0]).
Proof.
  unfold except_OmniTAKError_as, mbind, M_bind, lift, mret, M_ret.
  rewrite (async_with_default _ (reply repr net m) [Sent (carrying repr m)])
    by (intros; by apply send_ready).
  destruct (reply repr net m) as [v|e] eqn:Hr.
  - rewrite (reply_count m v Hr). reflexivity.
  - by destruct e.
Qed.

(** The request of a tool: to the local server, with no credentials. *)
Lemma carrying_eq m :
  carrying repr m
  = {| method := "POST"; url := "http://localhost:9443/api/v1/cot/send";
       json := Some (Dict {[ "message" := Str m; "apply_filters" := Bool true;
                             "priority" := Num (Int 5) ]});
       params := None;
       headers := {[ "Content-Type" := "application/json" ]} |}.
Proof. reflexivity. Qed.

Lemma until_failure_prefix msgs : until_failure repr net msgs `prefix_of` msgs.
Proof.
  induction msgs as [|m msgs IH]; [done|]. cbn [until_failure].
  destruct (reply repr net m); [by apply prefix_cons|]. apply prefix_cons, prefix_nil.
Qed.

Lemma until_failure_all msgs :
  first_failure repr net msgs = None → until_failure repr net msgs = msgs.
Proof.
  induction msgs as [|m msgs IH]; [done|]. cbn [until_failure first_failure].
  destruct (reply repr net m); [|done]. intros H. by rewrite IH.
Qed.

(** X17. [create_patrol_route] sends the documents of the route one
    request each and in order, the route document first, and stops at
    the first request that fails, without taking back what went out
    before. A failure that is an [OmniTAKError] becomes the answer of the
    tool, any other is raised. Whatever happens the session is closed.
    With no waypoint the tool raises [IndexError] before any client
    exists. *)
Theorem patrol_route_sending now u waypoints name color :
  let route := {| Geometry.waypoints := (λ w, (LatLon0 w.1.1 w.1.2, w.2)) <$> waypoints |} in
  let run := create_patrol_route repr net isoformat now u waypoints name color in
  match waypoints with
  | [] => run = (Raise IndexError, [])
  | _ :: _ =>
      ∃ msgs,
        create_route_event isoformat now u route name color None = Return msgs ∧
        length msgs = S (length waypoints) ∧
        run.2 = SessionOpened 0
                :: (Sent ∘ carrying repr <$> until_failure repr net msgs)
                ++ [SessionClosed 0] ∧
        until_failure repr net msgs `prefix_of` msgs ∧
        match first_failure repr net msgs with
        | None =>
            until_failure repr net msgs = msgs ∧
            run.1 = Return ("✓ Created route '" +:+ name +:+ "' with "
                            +:+ pretty (length waypoints)
                            +:+ " waypoints. Sent to TAK server(s).")
        | Some (OmniTAKError msg) => run.1 = Return ("✗ Failed to create route: " +:+ msg)
        | Some e => run.1 = Raise e
        end
  end.
Proof.
  intros route run. subst run. unfold create_patrol_route. fold route.
  rewrite Rendering.route_render. subst route. cbn [Geometry.waypoints].
  destruct waypoints as [|w ws]; [reflexivity|]. rewrite fmap_cons.
  eexists. split; [reflexivity|].
  split.
  { unfold Documents.route_docs. cbn [Geometry.waypoints].
    rewrite length_fmap. cbn [length]. rewrite length_imap. cbn [length].
    by rewrite length_fmap. }
  set (msgs := Xml.render <$> _).
  unfold except_OmniTAKError_as, mbind, M_bind, mret, M_ret.
  rewrite (async_with_default _ _ _ (for_each_send msgs)).
  split; [|split; [apply until_failure_prefix|]].
  - by destruct (first_failure repr net msgs) as [[]|].
  - destruct (first_failure repr net msgs) as [e|] eqn:Hf.
    + by destruct e.
    + split; [by apply until_failure_all|done].
Qed.

(** X18. [create_area_polygon] checks no count: with one vertex or more
    the polygon is encoded (each vertex at height 0) and goes out in one
    request, to the local server and with no credentials; the answer of
    the tool tells how many vertices and the [sent_to_count] of the
    server, or the [OmniTAKError]; the session is closed. Only with no
    vertex at all does the tool raise ([IndexError]), sending nothing. *)
Theorem area_polygon_sending now u vertices name color filled :
  let polygon := {| Geometry.vertices := (λ v, LatLon0 v.1 v.2) <$> vertices |} in
  let run := create_area_polygon repr net isoformat now u vertices name color filled in
  match vertices with
  | [] => run = (Raise IndexError, [])
  | v :: _ =>
      let m := Xml.render (Documents.polygon_doc isoformat now u polygon name color filled None
                             (LatLon0 v.1 v.2)) in
      create_polygon_event isoformat now u polygon name color filled None = Return m ∧
      run.2 = [SessionOpened 0; Sent (carrying repr m); SessionClosed 0] ∧
      carrying repr m
      = {| method := "POST"; url := "http://localhost:9443/api/v1/cot/send";
           json := Some (Dict {[ "message" := Str m; "apply_filters" := Bool true;
                                 "priority" := Num (Int 5) ]});
           params := None;
           headers := {[ "Content-Type" := "application/json" ]} |} ∧
      run.1 = match reply repr net m with
              | Return r =>
                  Return ("✓ Created polygon '" +:+ name +:+ "' with "
                          +:+ pretty (length vertices) +:+ " vertices. Sent to "
                          +:+ str repr (sent_to_count r) +:+ " TAK server(s).")
              | Raise (OmniTAKError msg) => Return ("✗ Failed to create polygon: " +:+ msg)
              | Raise e => Raise e
              end
  end.
Proof.
  intros polygon run. subst run. unfold create_area_polygon. fold polygon.
  rewrite Rendering.polygon_render. subst polygon. cbn [Geometry.vertices].
  destruct vertices as [|v vs]; [reflexivity|]. rewrite fmap_cons. cbn zeta.
  split; [reflexivity|]. rewrite one_document. done.
Qed.

(** X19. [place_marker] and [create_exclusion_zone] never fail while
    encoding: each sends its one document and closes its session, and
    answers with the [sent_to_count] of the server or with the
    [OmniTAKError]. The zone of [k] kilometres, [k] an integer, is
    sent as the circle of [1000 k] metres. *)
Theorem marker_and_zone_sending now u lat lon callsign kind remarks radius_km k name color :
  let marker := create_marker_event isoformat now u (LatLon0 lat lon) callsign kind remarks None in
  let zone r := create_circle_event isoformat now u
                  {| center := LatLon0 lat lon; radius_meters := r |} name color None in
  place_marker repr net isoformat now u lat lon callsign kind remarks
  = (match reply repr net marker with
     | Return r =>
         Return ("✓ Placed " +:+ kind +:+ " marker '" +:+ callsign +:+ "' at ("
                 +:+ str_number lat +:+ ", " +:+ str_number lon +:+ "). Sent to "
                 +:+ str repr (sent_to_count r) +:+ " TAK server(s).")
     | Raise (OmniTAKError msg) => Return ("✗ Failed to place marker: " +:+ msg)
     | Raise e => Raise e
     end,
     [SessionOpened 0; Sent (carrying repr marker); SessionClosed 0]) ∧
  create_exclusion_zone repr net isoformat float_times_1000 now u lat lon radius_km name color
  = (match reply repr net (zone (times_1000 float_times_1000 radius_km)) with
     | Return r =>
         Return ("✓ Created " +:+ name +:+ ": " +:+ str_number radius_km
                 +:+ "km radius at (" +:+ str_number lat +:+ ", " +:+ str_number lon
                 +:+ "). Sent to " +:+ str repr (sent_to_count r) +:+ " TAK server(s).")
     | Raise (OmniTAKError msg) => Return ("✗ Failed to create zone: " +:+ msg)
     | Raise e => Raise e
     end,
     [SessionOpened 0; Sent (carrying repr (zone (times_1000 float_times_1000 radius_km)));
      SessionClosed 0]) ∧
  zone (times_1000 float_times_1000 (Int k)) = zone (Int (k * 1000)).
Proof.
  intros marker zone. split; [|split].
  - unfold place_marker. fold marker. by rewrite one_document.
  - unfold create_exclusion_zone.
    change (create_circle_event _ _ _ _ _ _ _) with (zone (times_1000 float_times_1000 radius_km)).
    by rewrite one_document.
  - reflexivity.
Qed.

End Facts.
End ToolsFacts.

(** ** The interactive demo *)

Module DemoFacts.
Import Py Xml Geometry Documents Text Rendering Demo.

Lemma plain_char_width c s : plain_char c = true → space_width (String c s) = 0.
Proof.
  intros H. destruct s as [|d [|e s]];
    destruct c as [[] [] [] [] [] [] [] []]; try discriminate H; reflexivity.
Qed.

Lemma plain_char_comma c : plain_char c = true → Ascii.eqb c "," = false.
Proof. destruct c as [[] [] [] [] [] [] [] []]; try discriminate; reflexivity. Qed.

Lemma plain_char_colon c : plain_char c = true → Ascii.eqb c ":" = false.
Proof. destruct c as [[] [] [] [] [] [] [] []]; try discriminate; reflexivity. Qed.

Lemma plain_cons c s : plain (String c s) = true → plain_char c = true ∧ plain s = true.
Proof. cbn [plain]. by intros [??]%andb_prop. Qed.

Lemma append_cons c (a b : string) : String c a +:+ b = String c (a +:+ b).
Proof. reflexivity. Qed.

Lemma append_nil_l (a : string) : EmptyString +:+ a = a.
Proof. reflexivity. Qed.

Lemma replace_comma_app a b :
  replace_comma (a +:+ b) = replace_comma a +:+ replace_comma b.
Proof.
  induction a as [|c a IH]; [done|].
  rewrite append_cons. cbn [replace_comma]. by rewrite IH.
Qed.

Lemma replace_comma_plain s : plain s = true → replace_comma s = s.
Proof.
  induction s as [|c s IH]; [done|]. intros [Hc Hs]%plain_cons.
  cbn [replace_comma]. by rewrite plain_char_comma, IH.
Qed.

Lemma split_from_plain s cur rest :
  plain s = true → split_from 0 cur (s +:+ rest) = split_from 0 (cur +:+ s) rest.
Proof.
  revert cur. induction s as [|c s IH]; intros cur.
  - intros _. by rewrite EncoderFacts.append_nil_r.
  - intros [Hc Hs]%plain_cons. rewrite append_cons.
    cbn [split_from]. rewrite (plain_char_width c _ Hc).
    rewrite IH by done. by rewrite append_assoc.
Qed.

Lemma split_from_space cur rest :
  split_from 0 cur (String " " rest) = (word cur ++ split_from 0 EmptyString rest)%list.
Proof. reflexivity. Qed.

Lemma word_bare w : bare w → word w = [w].
Proof. intros [H _]. unfold word. by rewrite bool_decide_eq_false_2. Qed.

Lemma join_two sep (x y : string) l :
  join sep (x :: y :: l) = x +:+ sep +:+ join sep (y :: l).
Proof. reflexivity. Qed.

(** [split] undoes [join]: the words come back. *)
Lemma split_join ws :
  Forall bare ws → split (replace_comma (join "," ws)) = ws.
Proof.
  unfold split. induction ws as [|w [|w' ws] IH]; intros Hws.
  - reflexivity.
  - apply Forall_cons in Hws as [Hw _]. cbn [join String.concat].
    rewrite replace_comma_plain by apply Hw.
    rewrite <- (EncoderFacts.append_nil_r w) at 1.
    rewrite split_from_plain by apply Hw. cbn [split_from]. by apply word_bare.
  - apply Forall_cons in Hws as [Hw Hws]. rewrite join_two.
    rewrite !replace_comma_app, replace_comma_plain by apply Hw.
    rewrite split_from_plain by apply Hw.
    change (replace_comma ",") with " ". change (" " +:+ ?r) with (String " " r).
    rewrite split_from_space, append_nil_l, word_bare by done.
    cbn [app]. f_equal. by apply IH.
Qed.

Lemma split_colon_plain a rest :
  plain a = true →
  split_colon (a +:+ rest) = (λ p, (a +:+ p.1, p.2)) <$> split_colon rest.
Proof.
  induction a as [|c a IH].
  - intros _. rewrite append_nil_l. by destruct (split_colon rest) as [[??]|].
  - intros [Hc Ha]%plain_cons. rewrite append_cons. cbn [split_colon].
    rewrite plain_char_colon, IH by done.
    by destruct (split_colon rest) as [[??]|].
Qed.

Lemma split_colon_pair p : bare p.1 → bare p.2 → split_colon (pair_word p) = None.
Proof.
  intros [_ H1] [_ H2]. unfold pair_word.
  rewrite split_colon_plain by done.
  change ("," +:+ ?r) with (String "," r). cbn [split_colon].
  change (Ascii.eqb "," ":") with false. cbn iota.
  rewrite <- (EncoderFacts.append_nil_r p.2), split_colon_plain by done. reflexivity.
Qed.

Lemma split_colon_named p name :
  bare p.1 → bare p.2 →
  split_colon (pair_word p +:+ ":" +:+ name) = Some (pair_word p, name).
Proof.
  intros [_ H1] [_ H2]. unfold pair_word. rewrite !append_assoc.
  rewrite split_colon_plain by done.
  change ("," +:+ ?r) with (String "," r). cbn [split_colon].
  change (Ascii.eqb "," ":") with false. cbn iota.
  rewrite split_colon_plain by done.
  change (":" +:+ ?r) with (String ":" r). cbn [split_colon fmap option_fmap option_map].
  change (Ascii.eqb ":" ":") with true. cbn.
  by rewrite !EncoderFacts.append_nil_r.
Qed.

Section Facts.
Variable isoformat : datetime → string.
Variable float : string → option string.
Variable float_times_1000 : string → string.
Variable send_cot_returns : nat → bool.

Lemma parse_coords_numeric p :
  numeric float p →
  parse_coords float (pair_word p)
  = Got (Some (lat (position float p), lon (position float p))).
Proof.
  intros (H1 & H2 & [x Hx] & [y Hy]). unfold parse_coords.
  change (pair_word p) with (join "," [p.1; p.2]).
  rewrite split_join by (repeat first [apply Forall_nil_2 | apply Forall_cons_2]; done).
  unfold position, reading. by rewrite Hx, Hy.
Qed.

Lemma parse_coords_plain t : plain t = true → parse_coords float t = Got None.
Proof.
  intros H. destruct t as [|c t]; [reflexivity|]. unfold parse_coords.
  change (String c t) with (join "," [String c t]).
  by rewrite split_join by (repeat first [apply Forall_nil_2 | apply Forall_cons_2]; done).
Qed.

(** X20. [parse_coords] reads the first two of the words a comma
    separates, in that order, and no others; a single word is no
    coordinate, whatever it is. What [float] refuses raises. *)
Theorem coordinate_words ws :
  Forall bare ws →
  split (replace_comma (join "," ws)) = ws ∧
  parse_coords float (join "," ws)
  = match ws with
    | a :: b :: _ =>
        match float a, float b with
        | Some x, Some y => Got (Some (Float x, Float y))
        | _, _ => Failed ValueError
        end
    | _ => Got None
    end.
Proof.
  intros H. split; [by apply split_join|].
  unfold parse_coords. rewrite split_join by done.
  by destruct ws as [|a [|b ws]].
Qed.

Lemma parse_vertices_numeric words tail vs name color :
  Forall (numeric float) words →
  parse_vertices float ((pair_word <$> words) ++ tail) vs name color
  = parse_vertices float tail (vs ++ (position float <$> words)) name color.
Proof.
  revert vs. induction words as [|w words IH]; intros vs Hw.
  - by rewrite app_nil_r.
  - apply Forall_cons in Hw as [Hw Hws]. rewrite fmap_cons, <- app_comm_cons.
    cbn [parse_vertices]. rewrite parse_coords_numeric by done.
    change (LatLon2 (lat (position float w)) (lon (position float w))) with (position float w).
    rewrite IH by done. by rewrite fmap_cons, <- app_assoc.
Qed.

Lemma parse_vertices_bound rest vs name color vs' name' color' :
  parse_vertices float rest vs name color = Got (vs', name', color') →
  length vs' ≤ length vs + length rest ∧
  (Forall (λ v, hae v = Float "0.0") vs → Forall (λ v, hae v = Float "0.0") vs').
Proof.
  revert vs. induction rest as [|part rest IH]; intros vs; cbn [parse_vertices].
  - intros [= <- _ _]. split; [lia|done].
  - destruct (parse_coords float part) as [[[la lo]|]|e]; [|intros [= <- _ _]|done].
    + intros [Hlen Hhae]%IH. rewrite length_app in Hlen. cbn [length] in *. split; [lia|].
      intros H. apply Hhae, Forall_app. split; [done|]. by apply Forall_singleton.
    + cbn [length]. split; [lia|done].
Qed.

Lemma sends_app l1 l2 : sends (l1 ++ l2) = (sends l1 ++ sends l2)%list.
Proof. apply omap_app. Qed.

Lemma sends_imap_print {A} (f : nat → A → string) (l : list A) :
  sends (imap (λ i x, Printed (f i x)) l) = [].
Proof.
  revert f. induction l as [|x l IH]; intros f; [done|].
  rewrite imap_cons. unfold sends. cbn [omap list_omap]. apply IH.
Qed.

Lemma sleeps_app l1 l2 : sleeps (l1 ++ l2) = sleeps l1 + sleeps l2.
Proof. unfold sleeps. by rewrite omap_app, length_app. Qed.

Lemma sleeps_imap_print {A} (f : nat → A → string) (l : list A) :
  sleeps (imap (λ i x, Printed (f i x)) l) = 0.
Proof.
  revert f. induction l as [|x l IH]; intros f; [done|].
  rewrite imap_cons. unfold sleeps. cbn [omap list_omap]. apply IH.
Qed.

(** What a handler that printed a header, a line per item and a footer
    and then sent one document handed over. *)
Lemma one_send {A} header (f : nat → A → string) (l : list A) footer cot description :
  let r := after ([Printed header] ++ imap (λ i x, Printed (f i x)) l ++ (Printed <$> footer))
             (send_cot send_cot_returns 0 cot description (returned [])) in
  sends (out r) = [(cot, description)] ∧
  raised r = if send_cot_returns 0 then None else Some Sender.
Proof.
  unfold send_cot. destruct (send_cot_returns 0); cbn [after returned failed out raised];
    rewrite !sends_app, sends_imap_print;
    (replace (sends (Printed <$> footer)) with (@nil (string * string))
       by (induction footer; [done|by rewrite fmap_cons]));
    done.
Qed.

(** X21. The polygon command counts what the encoder does not: it hands
    over one document or none, and one only of three vertices or more,
    each a word of the command at height [0.0]. *)
Theorem polygon_needs_three now u parts :
  let r := handle_polygon_command isoformat float send_cot_returns now u parts in
  sends (out r) = [] ∨
  ∃ v vs name color,
    3 ≤ length (v :: vs) < length parts ∧
    Forall (λ v, hae v = Float "0.0") (v :: vs) ∧
    sends (out r)
    = [ (render (polygon_doc isoformat now u {| vertices := v :: vs |} name color true None v),
         "Polygon '" +:+ name +:+ "'") ].
Proof.
  intros r. subst r. unfold handle_polygon_command.
  destruct (parse_vertices float (drop 1 parts) [] _ _) as [[[vs name] color]|e] eqn:Hp;
    [|by left].
  apply parse_vertices_bound in Hp as [Hlen Hhae]. specialize (Hhae (Forall_nil_2 _)).
  destruct (length vs <? 3) eqn:Hlt; [by left|]. apply Nat.ltb_ge in Hlt.
  right. destruct vs as [|v vs]; [cbn in Hlt; lia|]. exists v, vs, name, color.
  rewrite polygon_render. cbn [vertices].
  split; [|split; [done|]].
  - split; [done|]. rewrite length_drop in Hlen. cbn [length] in *. lia.
  - change [Printed ("   Name: " +:+ name); Printed ("   Color: " +:+ color +:+ nl)]
      with (Printed <$> ["   Name: " +:+ name; "   Color: " +:+ color +:+ nl]).
    apply one_send.
Qed.

(** The words after the coordinates: none, or a name that is no
    coordinate itself. *)
Lemma parse_vertices_tail tail vs name color :
  match tail with [] => True | t :: _ => plain t = true end →
  parse_vertices float tail vs name color
  = Got (vs, name_of name tail, color_of color tail).
Proof.
  destruct tail as [|t rest]; [done|]. intros Ht. cbn [parse_vertices].
  rewrite parse_coords_plain by done. by destruct rest.
Qed.

(** X22. A polygon command of three coordinate words or more, followed
    by nothing, by a name or by a name and a colour, hands over one
    document: the polygon of these positions in the order typed, under
    that name (or [Interactive Polygon]) and in that colour (or blue),
    filled. *)
Theorem polygon_command now u cmd w1 w2 w3 ws tail :
  let words := w1 :: w2 :: w3 :: ws in
  let name := name_of "Interactive Polygon" tail in
  let color := color_of "blue" tail in
  let r := handle_polygon_command isoformat float send_cot_returns now u
             (cmd :: (pair_word <$> words) ++ tail) in
  Forall (numeric float) words →
  match tail with [] => True | t :: _ => plain t = true end →
  sends (out r)
  = [ (render (polygon_doc isoformat now u {| vertices := position float <$> words |}
                 name color true None (position float w1)),
       "Polygon '" +:+ name +:+ "'") ] ∧
  raised r = (if send_cot_returns 0 then None else Some Sender) ∧
  length (out r) = length words + 4.
Proof.
  intros words name color r Hw Ht. subst r. unfold handle_polygon_command.
  change (drop 1 (cmd :: ?l)) with l.
  rewrite parse_vertices_numeric, parse_vertices_tail by done.
  fold name color. subst words. rewrite app_nil_l, !fmap_cons. cbn [length Nat.ltb Nat.leb].
  rewrite polygon_render. cbn [vertices].
  change [Printed ("   Name: " +:+ name); Printed ("   Color: " +:+ color +:+ nl)]
    with (Printed <$> ["   Name: " +:+ name; "   Color: " +:+ color +:+ nl]).
  match goal with |- context [after ?l (send_cot _ 0 ?c ?d _)] =>
    set (prints := l); set (cot := c)
  end.
  destruct (one_send (nl +:+ "📐 Creating polygon with "
                      +:+ pretty (length (position float <$> w1 :: w2 :: w3 :: ws))
                      +:+ " vertices:")
              (λ i v, "   Point " +:+ pretty (S i) +:+ ": " +:+ str_number (lat v)
                      +:+ ", " +:+ str_number (lon v))
              (position float <$> w1 :: w2 :: w3 :: ws)
              ["   Name: " +:+ name; "   Color: " +:+ color +:+ nl]
              cot ("Polygon '" +:+ name +:+ "'")) as [Hs Hr].
  split; [exact Hs|]. split; [exact Hr|].
  unfold send_cot. destruct (send_cot_returns 0); cbn [after failed returned out];
    subst prints; rewrite !length_app, length_imap, !fmap_cons; cbn [length];
    rewrite !length_fmap; cbn [length]; lia.
Qed.

Lemma parse_coords_unreadable a b :
  bare a → bare b → float a = None ∨ float b = None →
  parse_coords float (pair_word (a, b)) = Failed ValueError.
Proof.
  intros Ha Hb H. unfold parse_coords.
  change (pair_word (a, b)) with (join "," [a; b]).
  rewrite split_join by (repeat first [apply Forall_nil_2 | apply Forall_cons_2]; done).
  destruct H as [-> | ->]; [done|]. by destruct (float a).
Qed.

Lemma split_colon_none t : plain t = true → split_colon t = None.
Proof.
  intros H. rewrite <- (EncoderFacts.append_nil_r t). by rewrite split_colon_plain.
Qed.

Lemma split_colon_at c n : plain c = true → split_colon (c +:+ ":" +:+ n) = Some (c, n).
Proof.
  intros H. rewrite split_colon_plain by done.
  change (":" +:+ n) with (String ":" n). cbn [split_colon].
  change (Ascii.eqb ":" ":") with true. cbn. by rewrite EncoderFacts.append_nil_r.
Qed.

Lemma parse_waypoints_stops stops tail wps name color :
  Forall (λ s, numeric float s.1) stops →
  parse_waypoints float ((stop_word <$> stops) ++ tail) wps name color
  = parse_waypoints float tail
      (wps ++ imap (λ i, stop float (length wps + i)) stops) name color.
Proof.
  revert wps. induction stops as [|[p n] stops IH]; intros wps Hs.
  - by rewrite app_nil_r.
  - apply Forall_cons in Hs as [Hs Hss]. pose proof Hs as (H1 & H2 & _).
    rewrite fmap_cons, <- app_comm_cons. cbn [parse_waypoints].
    assert (∀ nm, (wps ++ [(position float p, nm)])
                  ++ imap (λ i, stop float (length (wps ++ [(position float p, nm)]) + i)) stops
                  = wps ++ (position float p, nm)
                      :: imap ((λ i, stop float (length wps + i)) ∘ S) stops)%list as Hl.
    { intros nm. rewrite <- app_assoc. cbn [app]. do 2 f_equal.
      apply imap_ext. intros i s _. cbn. rewrite length_app. cbn [length].
      f_equal. lia. }
    destruct n as [n|]; unfold stop_word; cbn [fst snd].
    + rewrite split_colon_named, parse_coords_numeric by done.
      change (LatLon2 (lat (position float p)) (lon (position float p)))
        with (position float p).
      rewrite IH, Hl by done. by rewrite imap_cons.
    + rewrite split_colon_pair, parse_coords_numeric by done.
      change (LatLon2 (lat (position float p)) (lon (position float p)))
        with (position float p).
      rewrite IH, Hl by done. rewrite imap_cons. unfold stop at 3. cbn [fst snd default].
      by rewrite Nat.add_0_r.
Qed.

Lemma parse_waypoints_tail tail wps name color :
  match tail with [] => True | t :: _ => plain t = true end →
  parse_waypoints float tail wps name color
  = Got (wps, name_of name tail, color_of color tail).
Proof.
  destruct tail as [|t rest]; [done|]. intros Ht. cbn [parse_waypoints].
  rewrite split_colon_none, parse_coords_plain by done. by destruct rest.
Qed.

Lemma send_route_returns idx name msgs :
  (∀ j, idx ≤ j < idx + length msgs → send_cot_returns j = true) →
  let r := send_route send_cot_returns idx name msgs in
  sends (out r) = imap (λ i, described name (idx + i)) msgs ∧
  raised r = None ∧
  sleeps (out r) = length msgs - (match idx with O => 1 | S _ => 0 end).
Proof.
  revert idx. induction msgs as [|m msgs IH]; intros idx Hret; [done|].
  cbn [length] in Hret.
  destruct (IH (S idx)) as (Hs & Hr & Hz); [intros j Hj; apply Hret; lia|].
  assert (imap (λ i, described name (idx + i)) (m :: msgs)
          = described name idx m :: imap (λ i, described name (S idx + i)) msgs) as ->.
  { rewrite imap_cons, Nat.add_0_r. f_equal. apply imap_ext. intros i x _.
    unfold compose. by replace (idx + S i) with (S idx + i) by lia. }
  rewrite <- Hs. cbn [send_route length].
  destruct idx as [|idx]; unfold send_cot; rewrite Hret by lia;
    cbn [after out raised]; (split; [reflexivity|]); (split; [exact Hr|]).
  - change (sleeps (out (send_route send_cot_returns 1 name msgs)) = length msgs - 0).
    rewrite Hz. reflexivity.
  - change (S (sleeps (out (send_route send_cot_returns (S (S idx)) name msgs)))
            = S (length msgs) - 0).
    rewrite Hz. lia.
Qed.

Lemma send_route_fails idx name msgs k :
  (∀ j, idx ≤ j < idx + k → send_cot_returns j = true) →
  send_cot_returns (idx + k) = false →
  k < length msgs →
  let r := send_route send_cot_returns idx name msgs in
  sends (out r) = take (S k) (imap (λ i, described name (idx + i)) msgs) ∧
  raised r = Some Sender.
Proof.
  revert idx k. induction msgs as [|m msgs IH]; intros idx k Hret Hk Hlt;
    [cbn in Hlt; lia|].
  assert (imap (λ i, described name (idx + i)) (m :: msgs)
          = described name idx m :: imap (λ i, described name (S idx + i)) msgs) as ->.
  { rewrite imap_cons, Nat.add_0_r. f_equal. apply imap_ext. intros i x _.
    unfold compose. by replace (idx + S i) with (S idx + i) by lia. }
  cbn [send_route take]. destruct k as [|k].
  - rewrite Nat.add_0_r in Hk. rewrite take_0.
    destruct idx; unfold send_cot; rewrite Hk; done.
  - cbn [length] in Hlt.
    destruct (IH (S idx) k) as [Hs Hr]; [intros j Hj; apply Hret; lia| |lia|].
    { by replace (S idx + k) with (idx + S k) by lia. }
    rewrite <- Hs.
    destruct idx as [|idx]; unfold send_cot; rewrite Hret by lia;
      cbn [after out raised]; (split; [reflexivity|exact Hr]).
Qed.

Lemma route_run now u cmd s1 s2 ss tail :
  let stops := s1 :: s2 :: ss in
  let name := name_of "Interactive Route" tail in
  let color := color_of "yellow" tail in
  let route := {| waypoints := imap (stop float) stops |} in
  Forall (λ s, numeric float s.1) stops →
  match tail with [] => True | t :: _ => plain t = true end →
  ∃ prints,
    sends prints = [] ∧ sleeps prints = 0 ∧
    handle_route_command isoformat float send_cot_returns now u
      (cmd :: (stop_word <$> stops) ++ tail)
    = after prints
        (send_route send_cot_returns 0 name
           (render <$> route_docs isoformat now u route name color None (stop float 0 s1))).
Proof.
  intros stops name color route Hs Ht. unfold handle_route_command.
  change (drop 1 (cmd :: ?l)) with l.
  rewrite parse_waypoints_stops, parse_waypoints_tail by done.
  fold name color. rewrite app_nil_l. cbn [length Nat.add].
  change (imap (λ i, stop float i) stops) with (imap (stop float) stops).
  assert ((S (length ((stop_word <$> stops) ++ tail)) <? 3) = false) as ->.
  { apply Nat.ltb_ge. subst stops. rewrite length_app, !fmap_cons. cbn [length]. lia. }
  assert ((length (imap (stop float) stops) <? 2) = false) as ->.
  { apply Nat.ltb_ge. subst stops. rewrite length_imap. cbn [length]. lia. }
  rewrite route_render. subst route. cbn [waypoints].
  assert (∃ wps, imap (stop float) stops = stop float 0 s1 :: wps) as [wps ->].
  { eexists. apply imap_cons. }
  refine (ex_intro _ _ (conj _ (conj _ eq_refl))).
  - rewrite !sends_app. rewrite (sends_imap_print
      (λ i (w : LatLon * string), "   " +:+ pretty (S i) +:+ ". " +:+ w.2 +:+ ": "
                                  +:+ str_number (lat w.1) +:+ ", " +:+ str_number (lon w.1))).
    reflexivity.
  - rewrite !sleeps_app. rewrite (sleeps_imap_print
      (λ i (w : LatLon * string), "   " +:+ pretty (S i) +:+ ". " +:+ w.2 +:+ ": "
                                  +:+ str_number (lat w.1) +:+ ", " +:+ str_number (lon w.1))).
    reflexivity.
Qed.

Lemma route_docs_length now u route name color uid a :
  length (render <$> route_docs isoformat now u route name color uid a)
  = S (length (waypoints route)).
Proof. unfold route_docs. by rewrite length_fmap, length_cons, length_imap. Qed.

(** X23. A route command of two stops or more hands over the document
    of the route and then one per stop, in the order typed, each stop
    under the name after its colon or, without one, under [WP] and its
    rank; it sleeps after each stop. The route is named by the word
    after the stops (or [Interactive Route]) and coloured by the next
    (or yellow). *)
Theorem route_command now u cmd s1 s2 ss tail :
  let stops := s1 :: s2 :: ss in
  let name := name_of "Interactive Route" tail in
  let color := color_of "yellow" tail in
  let route := {| waypoints := imap (stop float) stops |} in
  let r := handle_route_command isoformat float send_cot_returns now u
             (cmd :: (stop_word <$> stops) ++ tail) in
  Forall (λ s, numeric float s.1) stops →
  match tail with [] => True | t :: _ => plain t = true end →
  (∀ k, k ≤ length stops → send_cot_returns k = true) →
  sends (out r)
  = imap (described name)
      (render <$> route_docs isoformat now u route name color None (stop float 0 s1)) ∧
  raised r = None ∧
  sleeps (out r) = length stops.
Proof.
  cbv zeta. intros Hs Ht Hret.
  destruct (route_run now u cmd s1 s2 ss tail Hs Ht) as (prints & Hp & Hz & ->).
  set (msgs := render <$> route_docs _ _ _ _ _ _ _ _).
  assert (length msgs = S (length (s1 :: s2 :: ss))) as Hlen.
  { subst msgs. rewrite route_docs_length. cbn [waypoints]. by rewrite length_imap. }
  destruct (send_route_returns 0 (name_of "Interactive Route" tail) msgs)
    as (Hsent & Hraised & Hslept).
  { intros j Hj. apply Hret. rewrite Hlen in Hj. lia. }
  cbn [after out raised]. rewrite sends_app, sleeps_app, Hp, Hz, Hsent, Hslept, Hlen.
  split; [reflexivity|]. split; [exact Hraised|]. cbn [length]. lia.
Qed.

(** X24. Nothing is sent again and nothing is skipped: when a call of
    [send_cot] does not return, the route command ends with its error,
    having handed over the documents up to that one and none after. *)
Theorem route_sending_stops now u cmd s1 s2 ss tail k :
  let stops := s1 :: s2 :: ss in
  let name := name_of "Interactive Route" tail in
  let color := color_of "yellow" tail in
  let route := {| waypoints := imap (stop float) stops |} in
  let r := handle_route_command isoformat float send_cot_returns now u
             (cmd :: (stop_word <$> stops) ++ tail) in
  Forall (λ s, numeric float s.1) stops →
  match tail with [] => True | t :: _ => plain t = true end →
  (∀ j, j < k → send_cot_returns j = true) →
  send_cot_returns k = false →
  k ≤ length stops →
  sends (out r)
  = take (S k)
      (imap (described name)
         (render <$> route_docs isoformat now u route name color None (stop float 0 s1))) ∧
  raised r = Some Sender.
Proof.
  cbv zeta. intros Hs Ht Hret Hk Hle.
  destruct (route_run now u cmd s1 s2 ss tail Hs Ht) as (prints & Hp & Hz & ->).
  set (msgs := render <$> route_docs _ _ _ _ _ _ _ _).
  assert (length msgs = S (length (s1 :: s2 :: ss))) as Hlen.
  { subst msgs. rewrite route_docs_length. cbn [waypoints]. by rewrite length_imap. }
  destruct (send_route_fails 0 (name_of "Interactive Route" tail) msgs k)
    as (Hsent & Hraised).
  { intros j Hj. apply Hret. lia. }
  { exact Hk. }
  { rewrite Hlen. lia. }
  cbn [after out raised]. rewrite sends_app, Hp, Hsent. by split.
Qed.

(** X25. A word with a colon that is no stop ends the command where it
    stands: it does not name the route, and the words after it are not
    read. *)
Theorem colon_ends_the_route now u cmd s1 s2 ss c n tail :
  let stops := s1 :: s2 :: ss in
  Forall (λ s, numeric float s.1) stops →
  plain c = true →
  handle_route_command isoformat float send_cot_returns now u
    (cmd :: (stop_word <$> stops) ++ (c +:+ ":" +:+ n) :: tail)
  = handle_route_command isoformat float send_cot_returns now u
      (cmd :: (stop_word <$> stops)).
Proof.
  intros stops Hs Hc. rewrite <- (app_nil_r (stop_word <$> stops)) at 2.
  unfold handle_route_command. change (drop 1 (cmd :: ?l)) with l.
  assert (∀ l, (length (cmd :: (stop_word <$> stops) ++ l) <? 3) = false) as Hlen.
  { intros l. apply Nat.ltb_ge. subst stops. rewrite !fmap_cons. cbn [length app]. lia. }
  rewrite !Hlen, !parse_waypoints_stops by done. cbn [parse_waypoints].
  by rewrite split_colon_at, parse_coords_plain by done.
Qed.

(** X26. Coordinates [float] cannot read are an error of the command,
    raised before anything is printed or sent, where the word stands
    among the vertices, the stops or as the centre. *)
Theorem unreadable_coordinates now u c1 c2 c3 a b words stops n radius tail :
  bare a → bare b → float a = None ∨ float b = None →
  Forall (numeric float) words →
  Forall (λ s, numeric float s.1) stops →
  1 ≤ length stops + length tail →
  handle_polygon_command isoformat float send_cot_returns now u
    (c1 :: (pair_word <$> words) ++ pair_word (a, b) :: tail)
  = failed [] ValueError ∧
  handle_route_command isoformat float send_cot_returns now u
    (c2 :: (stop_word <$> stops) ++ stop_word ((a, b), n) :: tail)
  = failed [] ValueError ∧
  handle_circle_command isoformat float float_times_1000 send_cot_returns now u
    (c3 :: pair_word (a, b) :: radius :: tail)
  = failed [] ValueError.
Proof.
  intros Ha Hb Hf Hw Hs Hlen. split; [|split].
  - unfold handle_polygon_command. change (drop 1 (c1 :: ?l)) with l.
    rewrite parse_vertices_numeric by done. cbn [parse_vertices].
    by rewrite parse_coords_unreadable.
  - unfold handle_route_command. change (drop 1 (c2 :: ?l)) with l.
    assert ((length (c2 :: (stop_word <$> stops) ++ stop_word (a, b, n) :: tail) <? 3)
            = false) as ->.
    { apply Nat.ltb_ge. cbn [length]. rewrite length_app, length_fmap. cbn [length]. lia. }
    rewrite parse_waypoints_stops by done. cbn [parse_waypoints].
    destruct n as [n|]; unfold stop_word; cbn [fst snd].
    + rewrite (split_colon_named (a, b)) by done. by rewrite parse_coords_unreadable.
    + rewrite (split_colon_pair (a, b)) by done. by rewrite parse_coords_unreadable.
  - unfold handle_circle_command. by rewrite parse_coords_unreadable.
Qed.

(** X27. The circle command reads its third word as kilometres and
    sends a circle of a thousand times as many metres around the
    position of its second word; the radius is not compared with
    anything. A radius [float] cannot read is reported and nothing is
    sent; so is a centre that is a single word. *)
Theorem circle_command now u cmd p radius optional t :
  let name := name_of "Interactive Circle" optional in
  let color := color_of "red" optional in
  let r := handle_circle_command isoformat float float_times_1000 send_cot_returns now u
             (cmd :: pair_word p :: radius :: optional) in
  numeric float p →
  plain t = true →
  match float radius with
  | Some km =>
      sends (out r)
      = [ (render (circle_doc isoformat now u
                     {| center := position float p;
                        radius_meters := Float (float_times_1000 km) |}
                     name color None),
           "Circle '" +:+ name +:+ "'") ] ∧
      raised r = (if send_cot_returns 0 then None else Some Sender)
  | None => r = returned [ Printed "❌ Invalid radius. Use a number (kilometers)" ]
  end ∧
  handle_circle_command isoformat float float_times_1000 send_cot_returns now u
    (cmd :: t :: radius :: optional)
  = returned [ Printed "❌ Invalid coordinates. Use format: 34.0,-118.0" ].
Proof.
  intros name color r Hp Ht. subst r. unfold handle_circle_command.
  rewrite parse_coords_numeric, parse_coords_plain by done. split; [|done].
  destruct (float radius) as [km|]; [|done].
  fold name color.
  change (LatLon2 (lat (position float p)) (lon (position float p))) with (position float p).
  rewrite circle_render.
  unfold send_cot. by destruct (send_cot_returns 0).
Qed.

End Facts.

Ltac words_ok :=
  repeat first [apply Forall_nil_2 | apply Forall_cons_2];
  repeat split; try discriminate; try reflexivity; try (eexists; reflexivity).

Lemma coordinate_words_witness :
  let ws := ["34.0"; "-118.0"; "250.0"] in
  Forall bare ws ∧
  split (replace_comma "34.0,-118.0,250.0") = ws ∧
  parse_coords sample_float "34.0,-118.0,250.0"
  = Got (Some (Float "34.0", Float "-118.0")).
Proof.
  intros ws. assert (Forall bare ws) as H by words_ok.
  split; [exact H|]. exact (coordinate_words sample_float ws H).
Defined.

Lemma polygon_command_witness :
  let w1 := ("34.0", "-118.0") in
  let w2 := ("34.0", "-117.0") in
  let w3 := ("33.5", "-117.0") in
  let r := handle_polygon_command Samples.iso_micros sample_float (λ _, true) 0%Z "u"
             ["polygon"; "34.0,-118.0"; "34.0,-117.0"; "33.5,-117.0"; "MyArea"; "blue"] in
  Forall (numeric sample_float) [w1; w2; w3] ∧
  plain "MyArea" = true ∧
  sends (out r)
  = [ (render (polygon_doc Samples.iso_micros 0%Z "u"
                 {| vertices := position sample_float <$> [w1; w2; w3] |}
                 "MyArea" "blue" true None (position sample_float w1)),
       "Polygon 'MyArea'") ] ∧
  raised r = None ∧
  length (out r) = 7.
Proof.
  intros w1 w2 w3 r. assert (Forall (numeric sample_float) [w1; w2; w3]) as H by words_ok.
  split; [exact H|]. split; [reflexivity|].
  exact (polygon_command Samples.iso_micros sample_float (λ _, true) 0%Z "u" "polygon"
           w1 w2 w3 [] ["MyArea"; "blue"] H eq_refl).
Defined.

Lemma route_command_witness :
  let s1 := (("34.0", "-118.0"), Some "Start") in
  let s2 := (("34.0", "-117.0"), None) in
  let route := {| waypoints := [ (position sample_float s1.1, "Start");
                                 (position sample_float s2.1, "WP2") ] |} in
  let r := handle_route_command Samples.iso_micros sample_float (λ _, true) 0%Z "u"
             ["route"; "34.0,-118.0:Start"; "34.0,-117.0"; "Patrol"; "yellow"] in
  Forall (λ s, numeric sample_float s.1) [s1; s2] ∧
  plain "Patrol" = true ∧
  (∀ k, k ≤ 2 → (λ _ : nat, true) k = true) ∧
  sends (out r)
  = imap (described "Patrol")
      (render <$> route_docs Samples.iso_micros 0%Z "u" route "Patrol" "yellow" None
                    (position sample_float s1.1, "Start")) ∧
  raised r = None ∧
  sleeps (out r) = 2.
Proof.
  intros s1 s2 route r.
  assert (Forall (λ s, numeric sample_float s.1) [s1; s2]) as H by words_ok.
  split; [exact H|]. split; [reflexivity|]. split; [reflexivity|].
  exact (route_command Samples.iso_micros sample_float (λ _, true) 0%Z "u" "route"
           s1 s2 [] ["Patrol"; "yellow"] H eq_refl (λ _ _, eq_refl)).
Defined.

Lemma route_sending_stops_witness :
  let s1 := (("34.0", "-118.0"), Some "Start") in
  let s2 := (("34.0", "-117.0"), None) in
  let route := {| waypoints := [ (position sample_float s1.1, "Start");
                                 (position sample_float s2.1, "WP2") ] |} in
  let returns := λ k, k =? 0 in
  let r := handle_route_command Samples.iso_micros sample_float returns 0%Z "u"
             ["route"; "34.0,-118.0:Start"; "34.0,-117.0"] in
  Forall (λ s, numeric sample_float s.1) [s1; s2] ∧
  (∀ j, j < 1 → returns j = true) ∧
  returns 1 = false ∧
  1 ≤ 2 ∧
  sends (out r)
  = take 2
      (imap (described "Interactive Route")
         (render <$> route_docs Samples.iso_micros 0%Z "u" route "Interactive Route" "yellow"
                       None (position sample_float s1.1, "Start"))) ∧
  raised r = Some Sender.
Proof.
  intros s1 s2 route returns r.
  assert (Forall (λ s, numeric sample_float s.1) [s1; s2]) as H by words_ok.
  assert (∀ j, j < 1 → returns j = true) as Hret.
  { intros [|j] Hj; [reflexivity|lia]. }
  split; [exact H|]. split; [exact Hret|]. split; [reflexivity|]. split; [lia|].
  exact (route_sending_stops Samples.iso_micros sample_float returns 0%Z "u" "route"
           s1 s2 [] [] 1 H I Hret eq_refl ltac:(cbn; lia)).
Defined.

Lemma colon_ends_the_route_witness :
  let s1 := (("34.0", "-118.0"), Some "Start") in
  let s2 := (("34.0", "-117.0"), None) in
  Forall (λ s, numeric sample_float s.1) [s1; s2] ∧
  plain "Patrol" = true ∧
  handle_route_command Samples.iso_micros sample_float (λ _, true) 0%Z "u"
    ["route"; "34.0,-118.0:Start"; "34.0,-117.0"; "Patrol:Alpha"; "red"]
  = handle_route_command Samples.iso_micros sample_float (λ _, true) 0%Z "u"
      ["route"; "34.0,-118.0:Start"; "34.0,-117.0"].
Proof.
  intros s1 s2.
  assert (Forall (λ s, numeric sample_float s.1) [s1; s2]) as H by words_ok.
  split; [exact H|]. split; [reflexivity|].
  exact (colon_ends_the_route Samples.iso_micros sample_float (λ _, true) 0%Z "u" "route"
           s1 s2 [] "Patrol" "Alpha" ["red"] H eq_refl).
Defined.

Lemma unreadable_coordinates_witness :
  let times := λ _ : string, "5000.0" in
  bare "north" ∧ bare "5.0" ∧
  (sample_float "north" = None ∨ sample_float "5.0" = None) ∧
  Forall (numeric sample_float) [("34.0", "-118.0")] ∧
  Forall (λ s : string * string * option string, numeric sample_float s.1) [] ∧
  1 ≤ 0 + 1 ∧
  handle_polygon_command Samples.iso_micros sample_float (λ _, true) 0%Z "u"
    ["polygon"; "34.0,-118.0"; "north,5.0"; "34.0,-117.0"]
  = failed [] ValueError ∧
  handle_route_command Samples.iso_micros sample_float (λ _, true) 0%Z "u"
    ["route"; "north,5.0:Start"; "34.0,-117.0"]
  = failed [] ValueError ∧
  handle_circle_command Samples.iso_micros sample_float times (λ _, true) 0%Z "u"
    ["circle"; "north,5.0"; "5.0"; "34.0,-117.0"]
  = failed [] ValueError.
Proof.
  intros times.
  assert (bare "north") as Ha by words_ok. assert (bare "5.0") as Hb by words_ok.
  assert (Forall (numeric sample_float) [("34.0", "-118.0")]) as Hw by words_ok.
  split; [exact Ha|]. split; [exact Hb|]. split; [by left|]. split; [exact Hw|].
  split; [apply Forall_nil_2|]. split; [lia|].
  exact (unreadable_coordinates Samples.iso_micros sample_float times (λ _, true) 0%Z "u"
           "polygon" "route" "circle" "north" "5.0" [("34.0", "-118.0")] [] (Some "Start") "5.0"
           ["34.0,-117.0"] Ha Hb (or_introl eq_refl) Hw (Forall_nil_2 _) ltac:(cbn; lia)).
Defined.

Lemma circle_command_witness :
  let times := λ _ : string, "-5000.0" in
  let p := ("34.0", "-118.0") in
  let r := handle_circle_command Samples.iso_micros sample_float times (λ _, true) 0%Z "u"
             ["circle"; "34.0,-118.0"; "-5.0"; "LAX_Zone"; "red"] in
  numeric sample_float p ∧
  plain "LAX_Zone" = true ∧
  (sends (out r)
   = [ (render (circle_doc Samples.iso_micros 0%Z "u"
                  {| center := position sample_float p; radius_meters := Float "-5000.0" |}
                  "LAX_Zone" "red" None),
        "Circle 'LAX_Zone'") ] ∧
   raised r = None) ∧
  handle_circle_command Samples.iso_micros sample_float times (λ _, true) 0%Z "u"
    ["circle"; "LAX_Zone"; "-5.0"; "LAX_Zone"; "red"]
  = returned [ Printed "❌ Invalid coordinates. Use format: 34.0,-118.0" ].
Proof.
  intros times p r. assert (numeric sample_float p) as H by words_ok.
  split; [exact H|]. split; [reflexivity|].
  exact (circle_command Samples.iso_micros sample_float times (λ _, true) 0%Z "u" "circle"
           p "-5.0" ["LAX_Zone"; "red"] "LAX_Zone" H eq_refl).
Defined.

End DemoFacts.
